(** * Local rank checker: the query, pagination and brand-matching pipeline

    A shallow embedding of [server/routes.ts]: the name normalisers
    ([normalizeBrandName], [normalizeBranchName]), the geo-grid generator
    ([generateGeoGrid]), the search page fetcher ([searchSerperPlaces]) and the
    matching loop of the [/api/process-csv-stream] handler, followed by the
    properties of the specification checked against them.

    Conventions of the embedding.
    - JavaScript numbers are IEEE 754 binary64 values: Rocq's primitive
      [float], whose [+], [-], [*] and [/] are the same operations.  Counters
      that only ever hold small non-negative integers ([page],
      [queryResultIndex], [totalApiCalls], loop indices) are [nat].
    - A string is the sequence of its UTF-16 code units: the type [string]
      of this file, over [codeUnit].  A literal ["abc"] stands for the code
      units of that ASCII text.  The class [\s] and the white space of
      [trim()] are the code units that ECMAScript lists;
      [String.prototype.toLowerCase], which follows the Unicode tables of
      the runtime, is a parameter of the environment, as [Math.cos] is.
    - The handler is [async] code that mutates [allResults] and
      [totalApiCalls] and may throw: a state-and-exception monad [M] over the
      record [State].  The [while (true)] pagination loop takes fuel, and so
      do the loops of the grid, which do not end for a grid size of
      [Infinity].
    - What the handler only reports (console output, progress events with
      their wall-clock figures, the one second pause between pages) is left
      out. *)

From Stdlib Require Import List Ascii Bool Arith Lia ZArith NArith.
From Stdlib Require Import Floats Uint63 DecimalString.
From Stdlib.Strings Require Import Byte.
Import ListNotations.

Set Warnings "-inexact-float".

(* ================================================================== *)
(** ** Strings *)

(** A UTF-16 code unit: a number below 65536. *)
Definition codeUnit : Type := N.

(** A string: its code units, first to last. *)
Inductive string : Type :=
| EmptyString
| String (c : codeUnit) (t : string).

Arguments String c%_N t.

Declare Scope js_scope.
Delimit Scope js_scope with js.
Bind Scope js_scope with string.

(** The literals: ["abc"] is the string of the code units of the ASCII
    characters between the quotes; a byte outside ASCII has no reading. *)
Fixpoint ofBytes (bytes : list Byte.byte) : option string :=
  match bytes with
  | [] => Some EmptyString
  | b :: rest =>
      if (Byte.to_N b <? 128)%N
      then match ofBytes rest with
           | Some t => Some (String (Byte.to_N b) t)
           | None => None
           end
      else None
  end.

Fixpoint toBytes (s : string) : option (list Byte.byte) :=
  match s with
  | EmptyString => Some []
  | String c t =>
      match (if (c <? 128)%N then Byte.of_N c else None), toBytes t with
      | Some b, Some l => Some (b :: l)
      | _, _ => None
      end
  end.

String Notation string ofBytes toBytes : js_scope.

(** [s + t]. *)
Fixpoint append (s t : string) : string :=
  match s with
  | EmptyString => t
  | String c s' => String c (append s' t)
  end.

Notation "s ++ t" := (append s t) : js_scope.

Local Open Scope js_scope.
Local Open Scope list_scope.
Local Open Scope nat_scope.

Module String.

(** [s === t]. *)
Fixpoint eqb (s t : string) : bool :=
  match s, t with
  | EmptyString, EmptyString => true
  | String c s', String d t' => (c =? d)%N && eqb s' t'
  | _, _ => false
  end.

End String.

(** [hay.startsWith(needle)]. *)
Fixpoint prefix (needle hay : string) : bool :=
  match needle with
  | EmptyString => true
  | String c n =>
      match hay with
      | EmptyString => false
      | String d h => (c =? d)%N && prefix n h
      end
  end.

Fixpoint mapChars (f : codeUnit -> codeUnit) (s : string) : string :=
  match s with
  | EmptyString => EmptyString
  | String c t => String (f c) (mapChars f t)
  end.

(** [s.replace(/re/g, '')] for a regular expression [re] that is a single
    character class without the [u] flag: every code unit of the class is
    dropped. *)
Fixpoint removeAll (cls : codeUnit -> bool) (s : string) : string :=
  match s with
  | EmptyString => EmptyString
  | String c t => if cls c then removeAll cls t else String c (removeAll cls t)
  end.

(** [c] lies between [lo] and [hi]. *)
Definition within (lo hi c : codeUnit) : bool := ((lo <=? c) && (c <=? hi))%N.

Arguments within (lo hi c)%_N.

(** The class [\s], which is also the white space and line terminators
    that [trim()] strips: TAB, LF, VT, FF, CR, SPACE, U+00A0, U+1680,
    U+2000 to U+200A, U+2028, U+2029, U+202F, U+205F, U+3000 and
    U+FEFF. *)
Definition isWhitespace (c : codeUnit) : bool :=
  within 9 13 c || (c =? 32)%N || (c =? 0xA0)%N || (c =? 0x1680)%N
  || within 0x2000 0x200A c || (c =? 0x2028)%N || (c =? 0x2029)%N
  || (c =? 0x202F)%N || (c =? 0x205F)%N || (c =? 0x3000)%N || (c =? 0xFEFF)%N.

(** The class [[^a-z0-9]]. *)
Definition isLowerLetter (c : codeUnit) : bool := within 97 122 c.

Definition isDigit (c : codeUnit) : bool := within 48 57 c.

Definition notLowerAlnum (c : codeUnit) : bool :=
  negb (isLowerLetter c || isDigit c).

(** [hay.includes(needle)]: [needle] starts at some position of [hay]. *)
Fixpoint includes (hay needle : string) : bool :=
  if prefix needle hay then true
  else match hay with
       | EmptyString => false
       | String _ t => includes t needle
       end.

(** "Contains as a substring". *)
Definition Substring (needle hay : string) : Prop :=
  exists pre post, hay = (pre ++ needle ++ post)%js.

(** Every code unit of [s] satisfies [p]. *)
Fixpoint allChars (p : codeUnit -> bool) (s : string) : bool :=
  match s with
  | EmptyString => true
  | String c t => p c && allChars p t
  end.

(** The ASCII text of a string of the standard library. *)
Fixpoint ofAscii (s : Stdlib.Strings.String.string) : string :=
  match s with
  | Stdlib.Strings.String.EmptyString => EmptyString
  | Stdlib.Strings.String.String a t => String (N_of_ascii a) (ofAscii t)
  end.

(* ================================================================== *)
(** ** The geo-grid generator *)

(** [{ lat: number, lng: number }]. *)
Record GeoPoint : Type := mkGeoPoint { lat : float; lng : float }.

(** [Math.PI]. *)
Definition Math_PI : float := 0x1.921fb54442d18p+1%float.

(** A loop index or count read as a number (exact below 2^53). *)
Definition number (n : nat) : float :=
  PrimFloat.of_uint63 (Uint63.of_Z (Z.of_nat n)).

Section GeoGrid.

(** [Math.cos] is implementation-approximated: whatever function the
    runtime provides. *)
Variable Math_cos : float -> float.

Local Open Scope float_scope.

Definition kmPerDegreeLat : float := 111.32.

Definition kmPerDegreeLng (centerLat : float) : float :=
  111.32 * Math_cos (centerLat * Math_PI / 180).

Definition latStep (radiusKm : float) (gridSize : nat) : float :=
  (radiusKm * 2) / (number gridSize - 1) / kmPerDegreeLat.

Definition lngStep (centerLat radiusKm : float) (gridSize : nat) : float :=
  (radiusKm * 2) / (number gridSize - 1) / kmPerDegreeLng centerLat.

(** The point pushed by the loop body at indices [i] (outer loop) and [j]
    (inner loop). *)
Definition gridPointAt (centerLat centerLng radiusKm : float)
    (gridSize i j : nat) : GeoPoint :=
  {| lat := centerLat - radiusKm / kmPerDegreeLat
            + (number i * latStep radiusKm gridSize);
     lng := centerLng - radiusKm / kmPerDegreeLng centerLat
            + (number j * lngStep centerLat radiusKm gridSize) |}.

(** [function generateGeoGrid(centerLat, centerLng, radiusKm, gridSize)]:
    [for (i = 0; i < gridSize; i++) for (j = 0; j < gridSize; j++)
       points.push({lat, lng})]. *)
Definition generateGeoGrid (centerLat centerLng radiusKm : float)
    (gridSize : nat) : list GeoPoint :=
  flat_map
    (fun i => map (gridPointAt centerLat centerLng radiusKm gridSize i)
                  (seq 0 gridSize))
    (seq 0 gridSize).

(** The same function as the handler calls it, with a [gridSize] that is
    whatever number the request holds.  The loop counters are numbers,
    and a loop that has not ended after [fuel] rounds gives [None]: for a
    [gridSize] of [Infinity] it never ends. *)
Definition latStepOf (radiusKm gridSize : float) : float :=
  (radiusKm * 2) / (gridSize - 1) / kmPerDegreeLat.

Definition lngStepOf (centerLat radiusKm gridSize : float) : float :=
  (radiusKm * 2) / (gridSize - 1) / kmPerDegreeLng centerLat.

(** The point pushed when the counters stand at [i] and [j]. *)
Definition pointAt (centerLat centerLng radiusKm gridSize i j : float)
    : GeoPoint :=
  {| lat := centerLat - radiusKm / kmPerDegreeLat
            + (i * latStepOf radiusKm gridSize);
     lng := centerLng - radiusKm / kmPerDegreeLng centerLat
            + (j * lngStepOf centerLat radiusKm gridSize) |}.

(** [for (let i = ...; i < gridSize; i++)]: the values the counter takes
    from [i] on. *)
Fixpoint counting (fuel : nat) (i gridSize : float) : option (list float) :=
  if i <? gridSize
  then match fuel with
       | O => None
       | S fuel' =>
           match counting fuel' (i + 1) gridSize with
           | Some rest => Some (i :: rest)
           | None => None
           end
       end
  else Some [].

Definition generateGeoGridOf (fuel : nat)
    (centerLat centerLng radiusKm gridSize : float) : option (list GeoPoint) :=
  match counting fuel 0 gridSize with
  | Some counters =>
      Some (flat_map
              (fun i => map (pointAt centerLat centerLng radiusKm gridSize i)
                            counters)
              counters)
  | None => None
  end.

(** The south-west corner of the bounding box. *)
Definition southWestCorner (centerLat centerLng radiusKm : float) : GeoPoint :=
  {| lat := centerLat - radiusKm / kmPerDegreeLat;
     lng := centerLng - radiusKm / kmPerDegreeLng centerLat |}.

(** The layout the specification describes, "stepping north then east":
    the point at position [k] of the sequence lies [k mod gridSize] steps
    north and [k / gridSize] steps east of the corner. *)
Definition northThenEastPoint (centerLat centerLng radiusKm : float)
    (gridSize k : nat) : GeoPoint :=
  gridPointAt centerLat centerLng radiusKm gridSize
              (k mod gridSize)%nat (k / gridSize)%nat.

End GeoGrid.

(** [x] and [y] are the same number: equal, or the two zeros. *)
Definition sameNumber (x y : float) : Prop :=
  x = y \/ (x = 0%float /\ y = (-0)%float).

Definition samePoint (p q : GeoPoint) : Prop :=
  sameNumber (lat p) (lat q) /\ sameNumber (lng p) (lng q).

(* ================================================================== *)
(** ** The search page fetcher *)

(** One entry of the upstream's [places] array: the fields the handler and
    its consumers read.  [rating] is a JSON number that is only passed
    along, kept as its text. *)
Record Place : Type := mkPlace {
  place_title : option string;
  place_address : option string;
  place_rating : option string;
  place_category : option string
}.

(** The JSON body of the request; [ll] is the pair interpolated into
    [`@${lat},${lng},14z`]. *)
Record Payload : Type := mkPayload {
  q : string;
  gl : string;
  hl : string;
  page : nat;
  device : string;
  ll : option (float * float)
}.

Record Request : Type := mkRequest {
  X_API_KEY : string;
  body : Payload
}.

(** What [fetch] resolves to: the status line and the parsed body's
    [places] field, which may be absent. *)
Record Response : Type := mkResponse {
  status : nat;
  statusText : string;
  places : option (list Place)
}.

(** [response.ok]: the status is in the range 200-299. *)
Definition ok (response : Response) : bool :=
  (200 <=? status response) && (status response <=? 299).

(** What the handler runs in: the process environment, the upstream service
    (its answer to the [n]-th request it receives, which may depend on the
    request) and the runtime's cosine and [String.prototype.toLowerCase].
    The upstream always answers: a [fetch] that rejects and a body that is
    not JSON are not modelled. *)
Record Environment : Type := mkEnvironment {
  SERPER_API_KEY : option string;
  upstream : nat -> Request -> Response;
  Math_cos : float -> float;
  toLowerCase : string -> string
}.

(** [function normalizeBrandName(text)]:
    [text.toLowerCase().replace(/\s/g, '')]. *)
Definition normalizeBrandName (env : Environment) (text : string) : string :=
  removeAll isWhitespace (toLowerCase env text).

(** [function normalizeBranchName(text)]:
    [text.toLowerCase().replace(/[^a-z0-9]/g, '')]. *)
Definition normalizeBranchName (env : Environment) (text : string) : string :=
  removeAll notLowerAlnum (toLowerCase env text).

(** The two [throw new Error(...)] of the fetcher. *)
Inductive FetchError : Type :=
| ConfigurationError
| UpstreamError (status : nat) (statusText : string).

(** [String(n)] for a natural number. *)
Definition decimal (n : nat) : string :=
  ofAscii (NilEmpty.string_of_uint (Nat.to_uint n)).

(** [error.message]. *)
Definition message (e : FetchError) : string :=
  match e with
  | ConfigurationError => "SERPER_API_KEY not configured"
  | UpstreamError st txt => "Serper API error: " ++ decimal st ++ " " ++ txt
  end.

(* ================================================================== *)
(** ** The handler's data *)

(** [query_result_number]: a number, or the string ['N/A']. *)
Inductive ResultNumber : Type :=
| Position (n : nat)
| NotAvailable.

(** [interface PlaceResult].  A field that is absent, [undefined] or [null]
    is [None]. *)
Record PlaceResult : Type := mkPlaceResult {
  title : option string;
  address : option string;
  rating : option string;
  category : option string;
  query : string;
  brand : string;
  branch : string;
  query_result_number : ResultNumber;
  brand_match : bool;
  is_local_pack : option bool;
  local_pack_position : option nat;
  device_type : option string;
  search_latitude : option float;
  search_longitude : option float;
  local_ranking : option string
}.

(** [interface QueryRow]. *)
Record QueryRow : Type := mkQueryRow {
  Keywords : string;
  Brand : string;
  Branch : string
}.

(** [interface GeoGridConfig], as parsed from the request: each field is
    the JSON number the request holds, whatever it is.  A field that is
    missing acts as [NaN] in the arithmetic and as falsy under [||]. *)
Record GeoGridConfig : Type := mkGeoGridConfig {
  centerLat : float;
  centerLng : float;
  radiusKm : float;
  gridSize : float
}.

(** The request's options after their defaults. *)
Record Options : Type := mkOptions {
  opt_gl : string;
  opt_hl : string;
  deviceType : string;
  geoGridEnabled : bool;
  geoGridConfig : option GeoGridConfig
}.

(** An element of [gridPoints]: [{ lat, lng }], both [undefined] when the
    geo-grid is off. *)
Record SearchPoint : Type := mkSearchPoint {
  searchLat : option float;
  searchLng : option float
}.

(** One call of [searchSerperPlaces], as history: its page and coordinates
    and the error it threw, if any. *)
Record FetchCall : Type := mkFetchCall {
  call_page : nat;
  call_lat : option float;
  call_lng : option float;
  call_error : option FetchError
}.

(** The handler's mutable variables [allResults] and [totalApiCalls],
    and two history variables that the code does not have: [calls], the
    invocations of the fetcher so far, and [wire], the requests that were
    sent upstream so far (both oldest first). *)
Record State : Type := mkState {
  allResults : list PlaceResult;
  totalApiCalls : nat;
  calls : list FetchCall;
  wire : list Request
}.

(** The per-query flags [foundBrandMatch], [foundAnyResults] and
    [foundLocalPackMatch]. *)
Record Found : Type := mkFound {
  foundBrandMatch : bool;
  foundAnyResults : bool;
  foundLocalPackMatch : bool
}.

(* ------------------------------------------------------------------ *)
(** *** The monad of the handler *)

Inductive outcome (A : Type) : Type :=
| Returned (a : A) (s : State)
| Threw (e : FetchError) (s : State)
| OutOfFuel.

Arguments Returned {A} a s.
Arguments Threw {A} e s.
Arguments OutOfFuel {A}.

Definition M (A : Type) : Type := State -> outcome A.

Definition ret {A : Type} (a : A) : M A := fun s => Returned a s.

Definition bind {A B : Type} (m : M A) (k : A -> M B) : M B :=
  fun s =>
    match m s with
    | Returned a s' => k a s'
    | Threw e s' => Threw e s'
    | OutOfFuel => OutOfFuel
    end.

Notation "'let*' x ':=' m 'in' k" := (bind m (fun x => k))
  (at level 10, x name, m at level 100, k at level 200).

(** [allResults.push(r)]. *)
Definition push (r : PlaceResult) : M unit :=
  fun s => Returned tt {| allResults := allResults s ++ [r];
                          totalApiCalls := totalApiCalls s;
                          calls := calls s;
                          wire := wire s |}.

(** [totalApiCalls++]. *)
Definition countApiCall : M unit :=
  fun s => Returned tt {| allResults := allResults s;
                          totalApiCalls := S (totalApiCalls s);
                          calls := calls s;
                          wire := wire s |}.

(** History: the request leaves for the upstream. *)
Definition send (request : Request) (s : State) : State :=
  {| allResults := allResults s;
     totalApiCalls := totalApiCalls s;
     calls := calls s;
     wire := wire s ++ [request] |}.

(** History: a call of the fetcher ends. *)
Definition record (c : FetchCall) (s : State) : State :=
  {| allResults := allResults s;
     totalApiCalls := totalApiCalls s;
     calls := calls s ++ [c];
     wire := wire s |}.

(* ------------------------------------------------------------------ *)
(** *** [searchSerperPlaces] *)

(** [async function searchSerperPlaces(query, gl, hl, page, deviceType, lat,
    lng)].  It returns the body's [places] field, which is all its caller
    reads of [response.json()]. *)
Definition searchSerperPlaces (env : Environment)
    (query gl hl : string) (page : nat) (deviceType : string)
    (lat lng : option float) : M (option (list Place)) :=
  fun s =>
    match SERPER_API_KEY env with
    | Some (String c k) =>
        let apiKey := String c k in
        let payload :=
          {| q := query; gl := gl; hl := hl; page := page;
             device := deviceType;
             ll := match lat, lng with
                   | Some a, Some b => Some (a, b)
                   | _, _ => None
                   end |} in
        let request := {| X_API_KEY := apiKey; body := payload |} in
        let response := upstream env (List.length (wire s)) request in
        if ok response
        then Returned (places response)
               (record (mkFetchCall page lat lng None) (send request s))
        else
          let e := UpstreamError (status response) (statusText response) in
          Threw e (record (mkFetchCall page lat lng (Some e)) (send request s))
    | _ =>
        Threw ConfigurationError
          (record (mkFetchCall page lat lng (Some ConfigurationError)) s)
    end.

(* ------------------------------------------------------------------ *)
(** *** The matching loop of [/api/process-csv-stream] *)

(** The record pushed for [place] when the counter stands at
    [queryResultIndex]. *)
Definition placeResult (env : Environment) (opts : Options) (row : QueryRow)
    (normBrand normBranch : string) (point : SearchPoint)
    (queryResultIndex : nat) (place : Place) : PlaceResult :=
  let title := match place_title place with Some t => t | None => "" end in
  let normTitle := removeAll isWhitespace (toLowerCase env title) in
  let brandMatch := includes normTitle normBrand && includes normTitle normBranch in
  let isLocalPack := queryResultIndex <=? 3 in
  let localPackPosition := if isLocalPack then Some queryResultIndex else None in
  {| title := place_title place;
     address := place_address place;
     rating := place_rating place;
     category := place_category place;
     query := Keywords row;
     brand := Brand row;
     branch := Branch row;
     query_result_number := Position queryResultIndex;
     brand_match := brandMatch;
     is_local_pack := Some isLocalPack;
     local_pack_position := localPackPosition;
     device_type := Some (deviceType opts);
     search_latitude := searchLat point;
     search_longitude := searchLng point;
     local_ranking := None |}.

(** The flags after the [if (brandMatch) { ... }] of the loop body. *)
Definition noteMatch (r : PlaceResult) (found : Found) : Found :=
  if brand_match r
  then {| foundBrandMatch := true;
          foundAnyResults := foundAnyResults found;
          foundLocalPackMatch :=
            match is_local_pack r with
            | Some true => true
            | _ => foundLocalPackMatch found
            end |}
  else found.

(** [for (const place of places) { ... queryResultIndex++ }]. *)
Fixpoint forEachPlace (env : Environment) (opts : Options) (row : QueryRow)
    (normBrand normBranch : string) (point : SearchPoint)
    (places : list Place) (queryResultIndex : nat) (found : Found)
    : M (nat * Found) :=
  match places with
  | [] => ret (queryResultIndex, found)
  | place :: rest =>
      let r := placeResult env opts row normBrand normBranch point
                           queryResultIndex place in
      let* _ := push r in
      forEachPlace env opts row normBrand normBranch point rest
                   (S queryResultIndex) (noteMatch r found)
  end.

(** [while (true) { ... }]: one iteration per unit of fuel.  The branch
    [None | Some []] is [const places = data.places || [];
    if (places.length === 0) break]. *)
Fixpoint whileTrue (fuel : nat) (env : Environment) (opts : Options)
    (row : QueryRow) (normBrand normBranch : string) (point : SearchPoint)
    (page queryResultIndex : nat) (found : Found) : M Found :=
  match fuel with
  | O => fun _ => OutOfFuel
  | S fuel' =>
      let* data :=
        searchSerperPlaces env (Keywords row) (opt_gl opts) (opt_hl opts)
          page (deviceType opts) (searchLat point) (searchLng point) in
      let* _ := countApiCall in
      match data with
      | None | Some [] => ret found
      | Some (p :: ps) =>
          let found1 := {| foundBrandMatch := foundBrandMatch found;
                           foundAnyResults := true;
                           foundLocalPackMatch := foundLocalPackMatch found |} in
          let* next :=
            forEachPlace env opts row normBrand normBranch point (p :: ps)
              queryResultIndex found1 in
          whileTrue fuel' env opts row normBrand normBranch point
                    (S page) (fst next) (snd next)
      end
  end.

(** The body of [for (const gridPoint of gridPoints)]:
    [let page = 1; let queryResultIndex = 1; while (true) ...]. *)
Definition searchGridPoint (fuel : nat) (env : Environment) (opts : Options)
    (row : QueryRow) (normBrand normBranch : string) (found : Found)
    (gridPoint : SearchPoint) : M Found :=
  whileTrue fuel env opts row normBrand normBranch gridPoint 1 1 found.

Fixpoint forEachGridPoint (fuel : nat) (env : Environment) (opts : Options)
    (row : QueryRow) (normBrand normBranch : string)
    (gridPoints : list SearchPoint) (found : Found) : M Found :=
  match gridPoints with
  | [] => ret found
  | gridPoint :: rest =>
      let* found' :=
        searchGridPoint fuel env opts row normBrand normBranch found gridPoint in
      forEachGridPoint fuel env opts row normBrand normBranch rest found'
  end.

(** [x || d] on numbers: [0], [-0] and [NaN] are falsy. *)
Definition orElse (x d : float) : float :=
  if PrimFloat.is_zero x || PrimFloat.is_nan x then d else x.

Definition searchPointOf (p : GeoPoint) : SearchPoint :=
  {| searchLat := Some (lat p); searchLng := Some (lng p) |}.

(** [const gridPoints = geoGridEnabled && geoGridConfig ? generateGeoGrid(...)
    : [{ lat: undefined, lng: undefined }]]; [None] when the loops of the
    grid have not ended within [fuel] rounds. *)
Definition gridPointsOf (fuel : nat) (env : Environment) (opts : Options)
    : option (list SearchPoint) :=
  match geoGridEnabled opts, geoGridConfig opts with
  | true, Some cfg =>
      match generateGeoGridOf (Math_cos env) fuel (centerLat cfg)
              (centerLng cfg) (orElse (radiusKm cfg) 5)
              (orElse (gridSize cfg) 3) with
      | Some points => Some (map searchPointOf points)
      | None => None
      end
  | _, _ => Some [ {| searchLat := None; searchLng := None |} ]
  end.

(** The record pushed when [!foundBrandMatch]. *)
Definition brandNotFound (row : QueryRow) : PlaceResult :=
  {| title := Some "Brand not found";
     address := Some "N/A";
     rating := None;
     category := Some "N/A";
     query := Keywords row;
     brand := Brand row;
     branch := Branch row;
     query_result_number := NotAvailable;
     brand_match := false;
     is_local_pack := None;
     local_pack_position := None;
     device_type := None;
     search_latitude := None;
     search_longitude := None;
     local_ranking := Some "N/A" |}.

(** The body of [for (let i = 0; i < queryData.length; i++)] over the grid
    points it is given. *)
Definition matchQuery (fuel : nat) (env : Environment) (opts : Options)
    (gridPoints : list SearchPoint) (row : QueryRow) : M unit :=
  let normBrand := normalizeBrandName env (Brand row) in
  let normBranch := normalizeBranchName env (Branch row) in
  let* found :=
    forEachGridPoint fuel env opts row normBrand normBranch gridPoints
      {| foundBrandMatch := false;
         foundAnyResults := false;
         foundLocalPackMatch := false |} in
  if negb (foundBrandMatch found) then push (brandNotFound row) else ret tt.

Definition processQuery (fuel : nat) (env : Environment) (opts : Options)
    (row : QueryRow) : M unit :=
  match gridPointsOf fuel env opts with
  | Some gridPoints => matchQuery fuel env opts gridPoints row
  | None => fun _ => OutOfFuel
  end.

Fixpoint forEachQuery (fuel : nat) (env : Environment) (opts : Options)
    (queryData : list QueryRow) : M unit :=
  match queryData with
  | [] => ret tt
  | row :: rest =>
      let* _ := processQuery fuel env opts row in
      forEachQuery fuel env opts rest
  end.

(** [const allResults = []; let totalApiCalls = 0]. *)
Definition start : State :=
  {| allResults := []; totalApiCalls := 0; calls := []; wire := [] |}.

(** What the handler streams last: the ['complete'] event with [allPlaces],
    [brandMatches] and the [stats], or the ['error'] event of the [catch]
    with the error's message and none of the results. *)
Inductive Reply : Type :=
| Complete (allPlaces brandMatches : list PlaceResult)
           (queriesProcessed placesFound apiCallsMade : nat)
| ErrorEvent (error : string)
| Unfinished.

Definition processCsvStream (fuel : nat) (env : Environment) (opts : Options)
    (queryData : list QueryRow) : Reply :=
  match forEachQuery fuel env opts queryData start with
  | Returned _ s =>
      Complete (allResults s) (filter brand_match (allResults s))
               (List.length queryData) (List.length (allResults s)) (totalApiCalls s)
  | Threw e _ =>
      ErrorEvent (match message e with
                  | EmptyString => "Failed to process CSV file"
                  | m => m
                  end)
  | OutOfFuel => Unfinished
  end.

(* ================================================================== *)
(** ** Auxiliary definitions of the statements *)

(** [!apiKey] is false: the variable is set and not the empty string. *)
Definition configured (env : Environment) : bool :=
  match SERPER_API_KEY env with
  | Some (String _ _) => true
  | _ => false
  end.

(** The request [searchSerperPlaces] builds from its arguments. *)
Definition requestOf (apiKey query gl hl : string) (page : nat)
    (deviceType : string) (lat lng : option float) : Request :=
  {| X_API_KEY := apiKey;
     body := {| q := query; gl := gl; hl := hl; page := page;
                device := deviceType;
                ll := match lat, lng with
                      | Some a, Some b => Some (a, b)
                      | _, _ => None
                      end |} |}.

(** The records pushed for [places], in order, when the counter starts at
    [queryResultIndex]. *)
Fixpoint observations (env : Environment) (opts : Options) (row : QueryRow)
    (normBrand normBranch : string) (point : SearchPoint)
    (queryResultIndex : nat) (places : list Place) : list PlaceResult :=
  match places with
  | [] => []
  | place :: rest =>
      placeResult env opts row normBrand normBranch point queryResultIndex place
      :: observations env opts row normBrand normBranch point
                      (S queryResultIndex) rest
  end.

Definition notedAll (found : Found) (rs : list PlaceResult) : Found :=
  fold_left (fun f r => noteMatch r f) rs found.

Definition pushAll (rs : list PlaceResult) (s : State) : State :=
  {| allResults := allResults s ++ rs;
     totalApiCalls := totalApiCalls s;
     calls := calls s;
     wire := wire s |}.

(** A record with a numeric rank: a listing observation. *)
Definition isObservation (r : PlaceResult) : bool :=
  match query_result_number r with
  | Position _ => true
  | NotAvailable => false
  end.

(** The rank positions of the listing observations among [rs], in order. *)
Definition ranks (rs : list PlaceResult) : list nat :=
  flat_map (fun r => match query_result_number r with
                     | Position n => [n]
                     | NotAvailable => []
                     end) rs.

(** The row a record was pushed for, read back from its fields. *)
Definition rowOf (r : PlaceResult) : QueryRow :=
  {| Keywords := query r; Brand := brand r; Branch := branch r |}.

(** The listing title the loop body reads: [place.title || '']. *)
Definition titleText (r : PlaceResult) : string :=
  match title r with Some t => t | None => "" end.

(** [r] is one of the two records the handler pushes: a listing observation
    built by the loop body with the row's normalised names, or the
    "Brand not found" record. *)
Definition Emitted (env : Environment) (r : PlaceResult) : Prop :=
  (exists opts point n place,
      r = placeResult env opts (rowOf r) (normalizeBrandName env (brand r))
            (normalizeBranchName env (branch r)) point n place)
  \/ r = brandNotFound (rowOf r).

Definition succeeded (c : FetchCall) : Prop := call_error c = None.

(** From [s] to [s']: only successful fetches, each sent upstream and each
    counted. *)
Definition Clean (s s' : State) : Prop :=
  exists cs,
    calls s' = calls s ++ cs /\ Forall succeeded cs /\
    totalApiCalls s' = totalApiCalls s + List.length cs /\
    List.length (wire s') = List.length (wire s) + List.length cs.

(** From [s] to [s']: successful, counted fetches and then, last, a fetch
    that threw [e]. *)
Definition Failed (e : FetchError) (s s' : State) : Prop :=
  exists cs c,
    calls s' = calls s ++ cs ++ [c] /\ Forall succeeded cs /\
    call_error c = Some e /\
    totalApiCalls s' = totalApiCalls s + List.length cs.

(** [s'] is the state in which a call of the fetcher threw [e]. *)
Definition ThrownByFetch (env : Environment) (e : FetchError) (s' : State) : Prop :=
  exists query gl hl page deviceType lat lng s0,
    searchSerperPlaces env query gl hl page deviceType lat lng s0 = Threw e s'.

(** The answer ends a grid point's pagination: an error status, or no
    places. *)
Definition endsPagination (response : Response) : bool :=
  negb (ok response) ||
  match places response with
  | None | Some [] => true
  | Some (_ :: _) => false
  end.

(** The upstream does not serve non-empty pages for ever. *)
Definition Exhausts (env : Environment) : Prop :=
  forall n, exists k, forall request,
    endsPagination (upstream env (n + k) request) = true.

(** The answer is a success with no places. *)
Definition emptyPage (response : Response) : bool :=
  ok response &&
  match places response with
  | None | Some [] => true
  | Some (_ :: _) => false
  end.

(** The weakest reading of "monotonically increasing": no later element is
    smaller than an earlier one. *)
Definition NonDecreasing (l : list nat) : Prop :=
  forall i j a b,
    i < j -> nth_error l i = Some a -> nth_error l j = Some b -> a <= b.

(** The grid points of a query, none when the loops of the grid have not
    ended within [fuel] rounds. *)
Definition gridPoints (fuel : nat) (env : Environment) (opts : Options)
    : list SearchPoint :=
  match gridPointsOf fuel env opts with
  | Some points => points
  | None => []
  end.

(** The loops of the grid end. *)
Definition GridEnds (env : Environment) (opts : Options) : Prop :=
  exists fuel, gridPointsOf fuel env opts <> None.

Definition allPlacesOf (reply : Reply) : list PlaceResult :=
  match reply with
  | Complete allPlaces _ _ _ _ => allPlaces
  | _ => []
  end.

(** The state after [totalApiCalls++]. *)
Definition counted (s : State) : State :=
  {| allResults := allResults s;
     totalApiCalls := S (totalApiCalls s);
     calls := calls s;
     wire := wire s |}.

(** The history entries of successful fetches of pages [page], [page + 1],
    ... at one grid point. *)
Definition fetched (point : SearchPoint) (page count : nat) : list FetchCall :=
  map (fun pg => mkFetchCall pg (searchLat point) (searchLng point) None)
      (seq page count).

(** [b] is what one grid point's loop pushes at [gridPoint]: the records
    of some places, numbered from 1. *)
Definition GridPointBlock (env : Environment) (opts : Options) (row : QueryRow)
    (normBrand normBranch : string) (gridPoint : SearchPoint)
    (b : list PlaceResult) : Prop :=
  exists places,
    b = observations env opts row normBrand normBranch gridPoint 1 places.

(** More fuel does not change the outcome of a computation that had
    enough. *)
Definition Mono {A : Type} (f : nat -> M A) : Prop :=
  forall fuel fuel' s,
    fuel <= fuel' -> f fuel s <> OutOfFuel -> f fuel' s = f fuel s.

(** Some amount of fuel is enough, from any state. *)
Definition Halts {A : Type} (f : nat -> M A) : Prop :=
  forall s, exists fuel, f fuel s <> OutOfFuel.

(** *** The match rule as the specification words it *)

(** The listing title the loop body reads: [place.title || '']. *)
Definition titleOf (place : Place) : string :=
  match place_title place with Some t => t | None => "" end.

(** "Normalized title (lowercased, whitespace removed)". *)
Definition spec_normalizeTitle (env : Environment) (s : string) : string :=
  removeAll isWhitespace (toLowerCase env s).

(** "Lowercased, whitespace removed". *)
Definition spec_normalizeBrand (env : Environment) (s : string) : string :=
  removeAll isWhitespace (toLowerCase env s).

(** "Alphanumeric": a letter or a digit.  The letters are those of the
    Basic Latin and Latin-1 Supplement blocks, which is as far as the
    statements below look. *)
Definition isAlphanumeric (c : codeUnit) : bool :=
  within 48 57 c || within 65 90 c || within 97 122 c
  || (c =? 0xAA)%N || (c =? 0xB5)%N || (c =? 0xBA)%N
  || within 0xC0 0xD6 c || within 0xD8 0xF6 c || within 0xF8 0xFF c.

(** "Lowercased, all non-alphanumeric characters removed". *)
Definition spec_normalizeBranch (env : Environment) (s : string) : string :=
  removeAll (fun c => negb (isAlphanumeric c)) (toLowerCase env s).

(** The match rule as the specification states it, for the flag of the
    listing observation of [row] and [place]. *)
Definition MatchClaim (env : Environment) (row : QueryRow) (place : Place)
    (flag : bool) : Prop :=
  flag = true <->
  Substring (spec_normalizeBrand env (Brand row))
            (spec_normalizeTitle env (titleOf place)) /\
  Substring (spec_normalizeBranch env (Branch row))
            (spec_normalizeTitle env (titleOf place)).

(** "Lowercased, every character other than [a] to [z] and [0] to [9]
    removed". *)
Definition lowerAlnumOnly (env : Environment) (s : string) : string :=
  removeAll (fun c => negb (within 97 122 c || within 48 57 c))
            (toLowerCase env s).

(** The match rule of the code, in the same words. *)
Definition MatchRule (env : Environment) (row : QueryRow) (place : Place)
    (flag : bool) : Prop :=
  flag = true <->
  Substring (spec_normalizeBrand env (Brand row))
            (spec_normalizeTitle env (titleOf place)) /\
  Substring (lowerAlnumOnly env (Branch row))
            (spec_normalizeTitle env (titleOf place)).

(** A code unit that has no other case: white space, and the ASCII code
    units other than the capital letters. *)
Definition caseless (c : codeUnit) : bool :=
  isWhitespace c || (within 0 127 c && negb (within 65 90 c)).

(** What the statements assume of [String.prototype.toLowerCase] where
    they need anything: it leaves a string of caseless code units as it
    is. *)
Definition KeepsCaseless (lower : string -> string) : Prop :=
  forall s, allChars caseless s = true -> lower s = s.

(** ASCII punctuation, symbols, controls and white space: an ASCII code
    unit that is neither a letter nor a digit. *)
Definition isPunctuation (c : codeUnit) : bool :=
  within 0 127 c
  && negb (within 65 90 c || within 97 122 c || within 48 57 c).

(** The local-pack rule of the specification, read on a pushed record of
    rank [n]. *)
Definition LocalPackRule (r : PlaceResult) (n : nat) : Prop :=
  (is_local_pack r = Some true <-> n <= 3) /\
  (is_local_pack r = Some true -> local_pack_position r = Some n) /\
  (is_local_pack r <> Some true ->
   is_local_pack r = Some false /\ local_pack_position r = None).

(* ------------------------------------------------------------------ *)
(** *** Worked examples *)

(** [String.prototype.toLowerCase] on text of the Basic Latin and Latin-1
    Supplement blocks: the capital letters [A] to [Z] and U+00C0 to U+00DE
    (but for the multiplication sign U+00D7) move up by 32.  For the
    worked examples. *)
Definition lowerChar (c : codeUnit) : codeUnit :=
  if within 65 90 c || (within 0xC0 0xDE c && negb (c =? 0xD7)%N)
  then (c + 32)%N else c.

Definition latin1LowerCase (s : string) : string := mapChars lowerChar s.

(** A polynomial approximation of the cosine, for the worked examples. *)
Definition cosSeries (x : float) : float :=
  (1 - x * x / 2 + x * x * x * x / 24 - x * x * x * x * x * x / 720)%float.

Definition plainOptions : Options :=
  {| opt_gl := "gb"; opt_hl := "en"; deviceType := "desktop";
     geoGridEnabled := false; geoGridConfig := None |}.

(** A two by two grid within 5 km of central London. *)
Definition gridOptions : Options :=
  {| opt_gl := "gb"; opt_hl := "en"; deviceType := "desktop";
     geoGridEnabled := true;
     geoGridConfig :=
       Some {| centerLat := 51.5; centerLng := -0.12;
               radiusKm := 5; gridSize := 2 |} |}.

Definition brightSmile : QueryRow :=
  {| Keywords := "dentist london"; Brand := "Bright Smile"; Branch := "London" |}.

(** "Caf\u00E9 Nero" and "Orl\u00E9ans". *)
Definition cafeNero : string := "Caf" ++ String 0xE9 " Nero".

Definition orleans : string := "Orl" ++ String 0xE9 "ans".

(** The two in lower case. *)
Definition cafeNeroLower : string := "caf" ++ String 0xE9 " nero".

Definition orleansLower : string := "orl" ++ String 0xE9 "ans".

Definition cafeRow : QueryRow :=
  {| Keywords := "cafe"; Brand := cafeNero; Branch := orleans |}.

Definition listing (t : string) : Place :=
  {| place_title := Some t; place_address := None;
     place_rating := None; place_category := None |}.

(** The listing "Caf\u00E9 Nero Orl\u00E9ans". *)
Definition cafeListing : Place := listing (cafeNero ++ " " ++ orleans).

Definition firstPage : list Place :=
  [ listing "Smile Hub"; listing "Bright Smile Dental London";
    listing "City Dental"; listing "Dental Care"; listing "Tooth Fairy" ].

Definition success (ps : list Place) : Response :=
  {| status := 200; statusText := "OK"; places := Some ps |}.

(** An upstream that answers a page of five listings and an empty page in
    turn. *)
Definition alternating (n : nat) (_ : Request) : Response :=
  if Nat.even n then success firstPage else success [].

(** An upstream that never has a place. *)
Definition barren (_ : nat) (_ : Request) : Response := success [].

(** An upstream whose answer to its third request (counting from 0: [n = 2])
    is a server error. *)
Definition breaking (n : nat) (request : Request) : Response :=
  if n =? 2
  then {| status := 500; statusText := "Internal Server Error"; places := None |}
  else alternating n request.

Definition demoEnv (up : nat -> Request -> Response) : Environment :=
  {| SERPER_API_KEY := Some "secret"; upstream := up; Math_cos := cosSeries;
     toLowerCase := latin1LowerCase |}.

Definition noKeyEnv : Environment :=
  {| SERPER_API_KEY := None; upstream := alternating; Math_cos := cosSeries;
     toLowerCase := latin1LowerCase |}.

(** C6 as stated, at one grid spec: [gridSize * gridSize] points, the first
    of them the south-west corner. *)
Definition GridClaim (cos : float -> float) (centerLat centerLng radiusKm : float)
    (gridSize : nat) : Prop :=
  List.length (generateGeoGrid cos centerLat centerLng radiusKm gridSize)
  = gridSize * gridSize /\
  hd_error (generateGeoGrid cos centerLat centerLng radiusKm gridSize)
  = Some (southWestCorner cos centerLat centerLng radiusKm).

(** C7 as stated, at one grid spec: the sequence runs north first. *)
Definition NorthThenEast (cos : float -> float)
    (centerLat centerLng radiusKm : float) (gridSize : nat) : Prop :=
  forall k, k < gridSize * gridSize ->
    nth_error (generateGeoGrid cos centerLat centerLng radiusKm gridSize) k
    = Some (northThenEastPoint cos centerLat centerLng radiusKm gridSize k).

From Stdlib Require Import Sorted Permutation.

(* ================================================================== *)
(** ** Further definitions: the run as a whole *)

(** The requests one grid point's loop sends for pages [1 .. count]. *)
Definition pageRequests (apiKey : string) (opts : Options) (row : QueryRow)
    (point : SearchPoint) (first count : nat) : list Request :=
  map (fun pg => requestOf apiKey (Keywords row) (opt_gl opts) (opt_hl opts)
                   pg (deviceType opts) (searchLat point) (searchLng point))
      (seq first count).

(** The number of grid points a query is searched at. *)
Definition gridPointCount (fuel : nat) (env : Environment) (opts : Options)
    : nat :=
  List.length (gridPoints fuel env opts).

(** The number of rounds of [for (let i = 0; i < gridSize; i++)], when it
    ends within [fuel] rounds. *)
Definition rounds (fuel : nat) (gridSize : float) : option nat :=
  match counting fuel 0 gridSize with
  | Some counters => Some (List.length counters)
  | None => None
  end.

(** [r] was pushed for [row]: it carries the row's three fields. *)
Definition taggedWith (row : QueryRow) (r : PlaceResult) : Prop :=
  query r = Keywords row /\ brand r = Brand row /\ branch r = Branch row.

(* ================================================================== *)
(** ** [parseCSV] *)

(** A record as [Papa.parse] returns it with [header: true]: an object
    from the (trimmed) header names to the cells of one line. *)
Definition CsvRecord : Type := list (string * string).

(** [row[key]]: the cell, or [undefined]. *)
Fixpoint cell (key : string) (row : CsvRecord) : option string :=
  match row with
  | [] => None
  | (k, v) :: rest => if String.eqb key k then Some v else cell key rest
  end.

(** [key in row]. *)
Definition hasColumn (key : string) (row : CsvRecord) : bool :=
  match cell key row with Some _ => true | None => false end.

(** What [Papa.parse] returns: the records and the messages of its
    errors.  The library call itself is not modelled. *)
Record PapaResult : Type := mkPapaResult {
  data : list CsvRecord;
  errors : list string
}.

(** [String.prototype.trim]: the white space it strips is the class
    [\s]. *)
Fixpoint trimStart (s : string) : string :=
  match s with
  | EmptyString => EmptyString
  | String c t => if isWhitespace c then trimStart t else s
  end.

Fixpoint trimEnd (s : string) : string :=
  match s with
  | EmptyString => EmptyString
  | String c t =>
      match trimEnd t with
      | EmptyString => if isWhitespace c then EmptyString else String c EmptyString
      | t' => String c t'
      end
  end.

Definition trim (s : string) : string := trimEnd (trimStart s).

(** [msgs.join(sep)]. *)
Fixpoint join (sep : string) (msgs : list string) : string :=
  match msgs with
  | [] => ""
  | [m] => m
  | m :: rest => (m ++ sep ++ join sep rest)%js
  end.

(** [(row.Keywords || row.keywords || '').trim()] for a column of the two
    spellings [upper] and [lower]. *)
Definition trimmedCell (upper lower : string) (row : CsvRecord) : string :=
  trim (match cell upper row with
        | Some (String c t) => String c t
        | _ => match cell lower row with
               | Some (String c t) => String c t
               | _ => ""
               end
        end).

(** A non-empty string is truthy. *)
Definition nonEmpty (s : string) : bool :=
  match s with EmptyString => false | String _ _ => true end.

(** The body of [for (const row of result.data)] on the array [rows]. *)
Definition pushValidRow (rows : list QueryRow) (row : CsvRecord) : list QueryRow :=
  let keywords := trimmedCell "Keywords" "keywords" row in
  let brand := trimmedCell "Brand" "brand" row in
  let branch := trimmedCell "Branch" "branch" row in
  if nonEmpty keywords && nonEmpty brand && nonEmpty branch
  then rows ++ [ {| Keywords := keywords; Brand := brand; Branch := branch |} ]
  else rows.

(** [function parseCSV(content)], from the result of [Papa.parse] on:
    the error message it throws, or the rows it returns. *)
Definition parseCSV (result : PapaResult) : string + list QueryRow :=
  match errors result with
  | _ :: _ => inl ("CSV parsing error: " ++ join "; " (errors result))%js
  | [] =>
      match data result with
      | [] => inl "CSV file is empty or has no data rows"
      | firstRow :: _ =>
          let hasKeywords :=
            hasColumn "Keywords" firstRow || hasColumn "keywords" firstRow in
          let hasBrand := hasColumn "Brand" firstRow || hasColumn "brand" firstRow in
          let hasBranch :=
            hasColumn "Branch" firstRow || hasColumn "branch" firstRow in
          if negb hasKeywords || negb hasBrand || negb hasBranch
          then inl "CSV must contain 'Keywords', 'Brand', and 'Branch' columns"
          else
            match fold_left pushValidRow (data result) [] with
            | [] => inl "No valid data rows found in CSV"
            | rows => inr rows
            end
      end
  end.

(** Nothing to trim, and something left. *)
Definition cleanField (s : string) : Prop := trim s = s /\ s <> "".

Definition cleanRow (row : QueryRow) : Prop :=
  cleanField (Keywords row) /\ cleanField (Brand row) /\ cleanField (Branch row).

(** The record of a line with the three cells of [row] under the
    capitalised headers. *)
Definition recordOf (row : QueryRow) : CsvRecord :=
  [ ("Keywords", Keywords row); ("Brand", Brand row); ("Branch", Branch row) ].

(** The same under the lower-case headers. *)
Definition lowerRecordOf (row : QueryRow) : CsvRecord :=
  [ ("keywords", Keywords row); ("brand", Brand row); ("branch", Branch row) ].

(** The first character, if any, is not whitespace. *)
Definition startsClean (s : string) : Prop :=
  match s with
  | EmptyString => True
  | String c _ => isWhitespace c = false
  end.

(* ================================================================== *)
(** ** What the handler saves *)

Module Insert.

(** [InsertRankingResult], as the handler fills it.  The columns [rating],
    [latitude], [longitude] and [rawData], which copy parts of the
    upstream's answer that [Place] does not hold, are left out. *)
Record row : Type := mk {
  searchId : string;
  query : string;
  brand : string;
  branch : string;
  rankingPosition : option nat;
  isLocalPack : bool;
  localPackPosition : option nat;
  deviceType : string;
  searchLatitude : option string;
  searchLongitude : option string;
  title : option string;
  address : option string;
  category : option string;
  brandMatch : bool
}.

End Insert.

(** [s || null] on an optional string: the empty string is falsy. *)
Definition orNull (s : option string) : option string :=
  match s with
  | Some (String c t) => Some (String c t)
  | _ => None
  end.

(** [n || null] on an optional number. *)
Definition positionOrNull (n : option nat) : option nat :=
  match n with
  | Some (S m) => Some (S m)
  | _ => None
  end.

Section Saving.

(** [String(x)] on numbers, which is not modelled. *)
Variable String_ : float -> string.

(** [x ? String(x) : null]: [undefined], [0], [-0] and [NaN] are falsy. *)
Definition coordinateText (x : option float) : option string :=
  match x with
  | Some v =>
      if PrimFloat.is_zero v || PrimFloat.is_nan v then None
      else Some (String_ v)
  | None => None
  end.

(** The function mapped over the records of numeric rank
    ([rankingResultsToSave]). *)
Definition toSave (searchId deviceType : string) (r : PlaceResult) : Insert.row :=
  {| Insert.searchId := searchId;
     Insert.query := query r;
     Insert.brand := brand r;
     Insert.branch := branch r;
     Insert.rankingPosition :=
       match query_result_number r with
       | Position n => Some n
       | NotAvailable => None
       end;
     Insert.isLocalPack :=
       match is_local_pack r with Some b => b | None => false end;
     Insert.localPackPosition := positionOrNull (local_pack_position r);
     Insert.deviceType :=
       match device_type r with
       | Some (String c t) => String c t
       | _ => deviceType
       end;
     Insert.searchLatitude := coordinateText (search_latitude r);
     Insert.searchLongitude := coordinateText (search_longitude r);
     Insert.title := orNull (title r);
     Insert.address := orNull (address r);
     Insert.category := orNull (category r);
     Insert.brandMatch := brand_match r |}.

(** The function mapped over the other records ([noMatchResults]). *)
Definition toNoMatch (searchId deviceType : string) (r : PlaceResult) : Insert.row :=
  {| Insert.searchId := searchId;
     Insert.query := query r;
     Insert.brand := brand r;
     Insert.branch := branch r;
     Insert.rankingPosition := None;
     Insert.isLocalPack := false;
     Insert.localPackPosition := None;
     Insert.deviceType := deviceType;
     Insert.searchLatitude := None;
     Insert.searchLongitude := None;
     Insert.title := Some "Brand not found";
     Insert.address := None;
     Insert.category := None;
     Insert.brandMatch := false |}.

(** [[...rankingResultsToSave, ...noMatchResults]], the argument of
    [storage.createRankingResults]. *)
Definition rowsToSave (searchId deviceType : string)
    (allResults : list PlaceResult) : list Insert.row :=
  map (toSave searchId deviceType) (filter isObservation allResults)
  ++ map (toNoMatch searchId deviceType)
         (filter (fun r => negb (isObservation r)) allResults).

End Saving.

(** The counts the handler writes with [storage.updateSearch] when the run
    has completed. *)
Record Totals : Type := mkTotals {
  totalResults : nat;
  totalBrandMatches : nat;
  totalLocalPackMatches : nat;
  apiCallsMade : nat
}.

Definition inLocalPack (r : PlaceResult) : bool :=
  match is_local_pack r with Some b => b | None => false end.

Definition totalsOf (s : State) : Totals :=
  {| totalResults := List.length (allResults s);
     totalBrandMatches := List.length (filter brand_match (allResults s));
     totalLocalPackMatches :=
       List.length (filter (fun r => inLocalPack r && brand_match r)
                           (allResults s));
     apiCallsMade := totalApiCalls s |}.

(** The records of one query: one block per grid point and, if none of
    their records matches, the "Brand not found" record. *)
Definition QueryRecords (fuel : nat) (env : Environment) (opts : Options)
    (row : QueryRow) (g : list PlaceResult) : Prop :=
  exists points blocks,
    gridPointsOf fuel env opts = Some points /\
    Forall2 (GridPointBlock env opts row (normalizeBrandName env (Brand row))
               (normalizeBranchName env (Branch row)))
            points blocks /\
    g = List.concat blocks
        ++ (if existsb brand_match (List.concat blocks) then []
            else [brandNotFound row]).

(** What a run's records look like to the saving code: a listing
    observation of rank [n >= 1] with the local-pack fields of its rank and
    the run's device type, or the "Brand not found" record. *)
Definition Saveable (opts : Options) (r : PlaceResult) : Prop :=
  (exists n,
      1 <= n /\
      query_result_number r = Position n /\
      is_local_pack r = Some (n <=? 3) /\
      local_pack_position r = (if n <=? 3 then Some n else None) /\
      device_type r = Some (deviceType opts))
  \/ r = brandNotFound (rowOf r).

(** The rule a saved row obeys. *)
Definition SavedRowRule (searchId : string) (opts : Options)
    (row : Insert.row) : Prop :=
  Insert.searchId row = searchId /\
  Insert.deviceType row = deviceType opts /\
  match Insert.rankingPosition row with
  | Some n =>
      1 <= n /\
      Insert.isLocalPack row = (n <=? 3) /\
      Insert.localPackPosition row = (if n <=? 3 then Some n else None)
  | None =>
      Insert.title row = Some "Brand not found" /\
      Insert.brandMatch row = false /\
      Insert.isLocalPack row = false /\
      Insert.localPackPosition row = None /\
      Insert.searchLatitude row = None /\
      Insert.searchLongitude row = None
  end.

(* ================================================================== *)
(** ** [MemStorage] *)

(** A JavaScript [Map] with string keys: its entries in insertion order,
    one per key. *)
Definition JsMap (V : Type) : Type := list (string * V).

(** [m.get(k)]. *)
Fixpoint mapGet {V : Type} (k : string) (m : JsMap V) : option V :=
  match m with
  | [] => None
  | (k', v) :: rest => if String.eqb k k' then Some v else mapGet k rest
  end.

(** [m.set(k, v)]: a key that is present keeps its place. *)
Fixpoint mapSet {V : Type} (k : string) (v : V) (m : JsMap V) : JsMap V :=
  match m with
  | [] => [(k, v)]
  | (k', v') :: rest =>
      if String.eqb k k' then (k, v) :: rest else (k', v') :: mapSet k v rest
  end.

(** [m.delete(k)]: the map without the key. *)
Fixpoint mapDelete {V : Type} (k : string) (m : JsMap V) : JsMap V :=
  match m with
  | [] => []
  | (k', v') :: rest =>
      if String.eqb k k' then rest else (k', v') :: mapDelete k rest
  end.

(** [Array.from(m.values())]. *)
Definition mapValues {V : Type} (m : JsMap V) : list V := map snd m.

(** [Array.prototype.sort(cmp)]: the stable sort, by insertion; [cmp a b]
    negative or zero leaves [a] before [b]. *)
Fixpoint insertSorted {A : Type} (cmp : A -> A -> Z) (x : A) (l : list A)
    : list A :=
  match l with
  | [] => [x]
  | y :: rest =>
      if (cmp x y <=? 0)%Z then x :: l else y :: insertSorted cmp x rest
  end.

Definition sort {A : Type} (cmp : A -> A -> Z) (l : list A) : list A :=
  fold_right (insertSorted cmp) [] l.

(** [type User]. *)
Record User : Type := mkUser {
  user_id : string;
  username : string;
  password : string
}.

(** [type Project]; a [Date] is its time value in milliseconds. *)
Record Project : Type := mkProject {
  project_id : string;
  name : string;
  description : option string;
  project_queryData : option (list QueryRow);
  project_country : option string;
  project_language : option string;
  project_createdAt : Z;
  updatedAt : Z
}.

(** [type InsertProject]. *)
Record InsertProject : Type := mkInsertProject {
  ip_name : string;
  ip_description : option string;
  ip_queryData : option (list QueryRow);
  ip_country : option string;
  ip_language : option string
}.

(** [Partial<InsertProject>]: a key that is absent is [None]; a key that
    is present holds the value to write, which may be [null]. *)
Record ProjectPatch : Type := mkProjectPatch {
  pp_name : option string;
  pp_description : option (option string);
  pp_queryData : option (option (list QueryRow));
  pp_country : option (option string);
  pp_language : option (option string)
}.

(** [type Search], with the columns the handlers write. *)
Record Search : Type := mkSearch {
  search_id : string;
  search_createdAt : Z;
  projectId : option string;
  csvFilename : string;
  country : string;
  language : string;
  search_deviceType : string;
  search_geoGridEnabled : bool;
  search_geoGridConfig : option GeoGridConfig;
  totalQueries : nat;
  search_totals : Totals;
  processingTimeSeconds : option string;
  search_status : string;
  scheduledFor : option Z;
  isRecurring : bool;
  recurringInterval : option string
}.

(** [type InsertSearch]: the keys with a default may be absent. *)
Record InsertSearch : Type := mkInsertSearch {
  is_projectId : option string;
  is_csvFilename : string;
  is_country : option string;
  is_language : option string;
  is_deviceType : string;
  is_geoGridEnabled : bool;
  is_geoGridConfig : option GeoGridConfig;
  is_totalQueries : nat;
  is_totals : Totals;
  is_processingTimeSeconds : option string;
  is_status : option string;
  is_scheduledFor : option Z;
  is_isRecurring : option bool;
  is_recurringInterval : option string
}.

(** [Partial<InsertSearch>]: a key that is absent is [None]; a key that
    is present holds the value to write, which may be [null] for a
    nullable column. *)
Record SearchPatch : Type := mkSearchPatch {
  sp_projectId : option (option string);
  sp_csvFilename : option string;
  sp_country : option string;
  sp_language : option string;
  sp_deviceType : option string;
  sp_geoGridEnabled : option bool;
  sp_geoGridConfig : option (option GeoGridConfig);
  sp_totalQueries : option nat;
  sp_totalResults : option nat;
  sp_totalBrandMatches : option nat;
  sp_totalLocalPackMatches : option nat;
  sp_apiCallsMade : option nat;
  sp_processingTimeSeconds : option (option string);
  sp_status : option string;
  sp_scheduledFor : option (option Z);
  sp_isRecurring : option bool;
  sp_recurringInterval : option (option string)
}.

(** [type RankingResult]: the inserted columns with [id] and
    [createdAt]. *)
Record RankingResult : Type := mkRankingResult {
  ranking_id : string;
  ranking_createdAt : Z;
  columns : Insert.row
}.

(** The four maps of [class MemStorage]. *)
Record MemStorage : Type := mkMemStorage {
  users : JsMap User;
  projects : JsMap Project;
  searches : JsMap Search;
  rankingResults : JsMap RankingResult
}.

(** [new MemStorage()]. *)
Definition emptyStorage : MemStorage :=
  {| users := []; projects := []; searches := []; rankingResults := [] |}.

(** [patch ?? old] for one key of a spread [{...existing, ...patch}]. *)
Definition patched {A : Type} (update : option A) (old : A) : A :=
  match update with Some v => v | None => old end.

(** [a ?? b]. *)
Definition orDefault {A : Type} (a : option A) (b : A) : A :=
  match a with Some v => v | None => b end.

(* ------------------------------------------------------------------ *)
(** *** Users *)

Definition getUser (id : string) (st : MemStorage) : option User :=
  mapGet id (users st).

(** [Array.from(this.users.values()).find(user => user.username ===
    username)]. *)
Definition getUserByUsername (uname : string) (st : MemStorage) : option User :=
  find (fun user => String.eqb (username user) uname) (mapValues (users st)).

(** [createUser], with [id] the value [randomUUID()] returns. *)
Definition createUser (id uname pw : string) (st : MemStorage)
    : User * MemStorage :=
  let user := {| user_id := id; username := uname; password := pw |} in
  (user, {| users := mapSet id user (users st);
            projects := projects st;
            searches := searches st;
            rankingResults := rankingResults st |}).

(* ------------------------------------------------------------------ *)
(** *** Projects *)

(** [createProject], with [id] the value of [randomUUID()] and [created],
    [updated] the two readings of [new Date()]. *)
Definition createProject (id : string) (created updated : Z)
    (project : InsertProject) (st : MemStorage) : Project * MemStorage :=
  let newProject :=
    {| project_id := id;
       name := ip_name project;
       description := ip_description project;
       project_queryData := ip_queryData project;
       project_country := ip_country project;
       project_language := ip_language project;
       project_createdAt := created;
       updatedAt := updated |} in
  (newProject, {| users := users st;
                  projects := mapSet id newProject (projects st);
                  searches := searches st;
                  rankingResults := rankingResults st |}).

Definition getProject (id : string) (st : MemStorage) : option Project :=
  mapGet id (projects st).

(** The comparator [(a, b) => b.createdAt.getTime() - a.createdAt.getTime()]
    for a type whose creation time is [key]. *)
Definition newestFirst {A : Type} (key : A -> Z) (a b : A) : Z :=
  (key b - key a)%Z.

Definition getAllProjects (st : MemStorage) : list Project :=
  sort (newestFirst project_createdAt) (mapValues (projects st)).

(** [updateProject], with [now] the reading of [new Date()]. *)
Definition updateProject (id : string) (project : ProjectPatch) (now : Z)
    (st : MemStorage) : option Project * MemStorage :=
  match mapGet id (projects st) with
  | None => (None, st)
  | Some existing =>
      let updated :=
        {| project_id := project_id existing;
           name := patched (pp_name project) (name existing);
           description := patched (pp_description project) (description existing);
           project_queryData :=
             patched (pp_queryData project) (project_queryData existing);
           project_country :=
             patched (pp_country project) (project_country existing);
           project_language :=
             patched (pp_language project) (project_language existing);
           project_createdAt := project_createdAt existing;
           updatedAt := now |} in
      (Some updated, {| users := users st;
                        projects := mapSet id updated (projects st);
                        searches := searches st;
                        rankingResults := rankingResults st |})
  end.

(** [deleteProject]: [this.projects.delete(id)] and what it returns. *)
Definition deleteProject (id : string) (st : MemStorage) : bool * MemStorage :=
  (match mapGet id (projects st) with Some _ => true | None => false end,
   {| users := users st;
      projects := mapDelete id (projects st);
      searches := searches st;
      rankingResults := rankingResults st |}).

(* ------------------------------------------------------------------ *)
(** *** Searches *)

(** [createSearch], with [id] the value of [randomUUID()] and [now] the
    reading of [new Date()]. *)
Definition createSearch (id : string) (now : Z) (search : InsertSearch)
    (st : MemStorage) : Search * MemStorage :=
  let newSearch :=
    {| search_id := id;
       search_createdAt := now;
       projectId := is_projectId search;
       csvFilename := is_csvFilename search;
       country := orDefault (is_country search) "gb";
       language := orDefault (is_language search) "en";
       search_deviceType := is_deviceType search;
       search_geoGridEnabled := is_geoGridEnabled search;
       search_geoGridConfig := is_geoGridConfig search;
       totalQueries := is_totalQueries search;
       search_totals := is_totals search;
       processingTimeSeconds := is_processingTimeSeconds search;
       search_status := orDefault (is_status search) "completed";
       scheduledFor := is_scheduledFor search;
       isRecurring := orDefault (is_isRecurring search) false;
       recurringInterval := is_recurringInterval search |} in
  (newSearch, {| users := users st;
                 projects := projects st;
                 searches := mapSet id newSearch (searches st);
                 rankingResults := rankingResults st |}).

Definition getSearch (id : string) (st : MemStorage) : option Search :=
  mapGet id (searches st).

(** [{ ...existing, ...search }]. *)
Definition applySearchPatch (existing : Search) (search : SearchPatch) : Search :=
  {| search_id := search_id existing;
     search_createdAt := search_createdAt existing;
     projectId := patched (sp_projectId search) (projectId existing);
     csvFilename := patched (sp_csvFilename search) (csvFilename existing);
     country := patched (sp_country search) (country existing);
     language := patched (sp_language search) (language existing);
     search_deviceType :=
       patched (sp_deviceType search) (search_deviceType existing);
     search_geoGridEnabled :=
       patched (sp_geoGridEnabled search) (search_geoGridEnabled existing);
     search_geoGridConfig :=
       patched (sp_geoGridConfig search) (search_geoGridConfig existing);
     totalQueries := patched (sp_totalQueries search) (totalQueries existing);
     search_totals :=
       {| totalResults :=
            patched (sp_totalResults search)
                    (totalResults (search_totals existing));
          totalBrandMatches :=
            patched (sp_totalBrandMatches search)
                    (totalBrandMatches (search_totals existing));
          totalLocalPackMatches :=
            patched (sp_totalLocalPackMatches search)
                    (totalLocalPackMatches (search_totals existing));
          apiCallsMade :=
            patched (sp_apiCallsMade search)
                    (apiCallsMade (search_totals existing)) |};
     processingTimeSeconds :=
       patched (sp_processingTimeSeconds search) (processingTimeSeconds existing);
     search_status := patched (sp_status search) (search_status existing);
     scheduledFor := patched (sp_scheduledFor search) (scheduledFor existing);
     isRecurring := patched (sp_isRecurring search) (isRecurring existing);
     recurringInterval :=
       patched (sp_recurringInterval search) (recurringInterval existing) |}.

Definition updateSearch (id : string) (search : SearchPatch) (st : MemStorage)
    : option Search * MemStorage :=
  match mapGet id (searches st) with
  | None => (None, st)
  | Some existing =>
      let updated := applySearchPatch existing search in
      (Some updated, {| users := users st;
                        projects := projects st;
                        searches := mapSet id updated (searches st);
                        rankingResults := rankingResults st |})
  end.

(** [s.projectId === projectId]: a [null] project id equals no string. *)
Definition ofProject (pid : string) (s : Search) : bool :=
  match projectId s with
  | Some p => String.eqb p pid
  | None => false
  end.

Definition getSearchesByProject (pid : string) (st : MemStorage) : list Search :=
  sort (newestFirst search_createdAt)
       (filter (ofProject pid) (mapValues (searches st))).

(** How many elements [list.slice(0, end)] keeps of a list of [len]
    elements, for an [end] that is any number: [NaN] counts as 0, a
    fraction is cut off, and a negative [end] counts back from the end of
    the list.  The integer part of a number is found by counting the
    indices up to it. *)
Definition upTo (len : nat) (x : float) : nat :=
  List.length (filter (fun i => (number i <=? x)%float) (seq 1 len)).

Definition sliceCount (len : nat) (end_ : float) : nat :=
  if (end_ <? 0)%float
  then if (- end_ <? 1)%float then 0 else len - upTo len (- end_)%float
  else upTo len end_.

(** [getAllSearches(limit)]: the route passes whatever number [parseInt]
    made of the query string, [50] without one. *)
Definition getAllSearches (limit : float) (st : MemStorage) : list Search :=
  firstn (sliceCount (List.length (searches st)) limit)
         (sort (newestFirst search_createdAt) (mapValues (searches st))).

(** [getScheduledSearches], with [now] the reading of [new Date()]. *)
Definition getScheduledSearches (now : Z) (st : MemStorage) : list Search :=
  filter (fun s => isRecurring s &&
                   match scheduledFor s with
                   | Some t => (t <=? now)%Z
                   | None => false
                   end)
         (mapValues (searches st)).

(* ------------------------------------------------------------------ *)
(** *** Ranking results *)

(** [createRankingResult], with [id] and [now] as before. *)
Definition createRankingResult (id : string) (now : Z) (result : Insert.row)
    (st : MemStorage) : RankingResult * MemStorage :=
  let newResult :=
    {| ranking_id := id; ranking_createdAt := now; columns := result |} in
  (newResult, {| users := users st;
                 projects := projects st;
                 searches := searches st;
                 rankingResults := mapSet id newResult (rankingResults st) |}).

(** [Promise.all(results.map(r => this.createRankingResult(r)))]: the
    calls run in the order of [results]; [supply i] is what [randomUUID()]
    and [new Date()] give in the call of index [i], counted from
    [first]. *)
Fixpoint createRankingResultsFrom (first : nat) (supply : nat -> string * Z)
    (results : list Insert.row) (st : MemStorage)
    : list RankingResult * MemStorage :=
  match results with
  | [] => ([], st)
  | r :: rest =>
      let (created, st1) :=
        createRankingResult (fst (supply first)) (snd (supply first)) r st in
      let (others, st2) := createRankingResultsFrom (S first) supply rest st1 in
      (created :: others, st2)
  end.

Definition createRankingResults (supply : nat -> string * Z)
    (results : list Insert.row) (st : MemStorage)
    : list RankingResult * MemStorage :=
  createRankingResultsFrom 0 supply results st.

(** The filter of [getRankingHistory]; [startDate] and [endDate] are
    [None] when [undefined]. *)
Definition inHistory (q b br : string) (startDate endDate : option Z)
    (r : RankingResult) : bool :=
  if negb (String.eqb (Insert.query (columns r)) q)
     || negb (String.eqb (Insert.brand (columns r)) b)
     || negb (String.eqb (Insert.branch (columns r)) br)
  then false
  else if match startDate with
          | Some d => (ranking_createdAt r <? d)%Z
          | None => false
          end
  then false
  else if match endDate with
          | Some d => (d <? ranking_createdAt r)%Z
          | None => false
          end
  then false
  else true.

Definition getRankingHistory (q b br : string) (startDate endDate : option Z)
    (st : MemStorage) : list RankingResult :=
  sort (newestFirst ranking_createdAt)
       (filter (inHistory q b br startDate endDate)
               (mapValues (rankingResults st))).

(* ------------------------------------------------------------------ *)
(** *** [/api/ranking-history]: the trends *)

(** An element of [historyWithTrends]. *)
Record Trend : Type := mkTrend {
  result : RankingResult;
  previousPosition : option nat;
  change : option Z
}.

(** [list.map((x, index) => f(x, index))], from index [i]. *)
Fixpoint mapWithIndex {A B : Type} (f : A -> nat -> B) (i : nat) (l : list A)
    : list B :=
  match l with
  | [] => []
  | x :: rest => f x i :: mapWithIndex f (S i) rest
  end.

(** A position that is truthy: present and not zero. *)
Definition truthyPosition (p : option nat) : option nat :=
  match p with
  | Some (S n) => Some (S n)
  | _ => None
  end.

(** [history.map((result, index) => ...)] of the handler. *)
Definition historyWithTrends (history : list RankingResult) : list Trend :=
  mapWithIndex
    (fun result index =>
       let prevResult :=
         if index <? List.length history - 1
         then nth_error history (index + 1)
         else None in
       let prevPos :=
         match prevResult with
         | Some p => Insert.rankingPosition (columns p)
         | None => None
         end in
       let currPos := Insert.rankingPosition (columns result) in
       {| result := result;
          previousPosition := prevPos;
          change :=
            match truthyPosition currPos, truthyPosition prevPos with
            | Some c, Some p => Some (Z.of_nat p - Z.of_nat c)%Z
            | _, _ => None
            end |})
    0 history.

(** The three icons of [getTrendIcon] in [History.tsx]. *)
Inductive TrendIcon : Type := Minus | TrendingUp | TrendingDown.

(** [getTrendIcon(change)]: [null] and [0] are falsy. *)
Definition getTrendIcon (change : option Z) : TrendIcon :=
  match change with
  | None => Minus
  | Some c =>
      if (c =? 0)%Z then Minus
      else if (0 <? c)%Z then TrendingUp
      else TrendingDown
  end.

(** The trends read along the list: each row with the position of the
    row after it. *)
Fixpoint trendsOf (history : list RankingResult) : list Trend :=
  match history with
  | [] => []
  | r :: rest =>
      let prevPos :=
        match rest with
        | p :: _ => Insert.rankingPosition (columns p)
        | [] => None
        end in
      {| result := r;
         previousPosition := prevPos;
         change :=
           match truthyPosition (Insert.rankingPosition (columns r)),
                 truthyPosition prevPos with
           | Some c, Some p => Some (Z.of_nat p - Z.of_nat c)%Z
           | _, _ => None
           end |}
      :: trendsOf rest
  end.

(** The icon the history page shows for a row of position [curr] whose
    predecessor in time has position [prev]. *)
Definition iconFor (curr prev : option nat) : TrendIcon :=
  match truthyPosition curr, truthyPosition prev with
  | Some c, Some p =>
      if c <? p then TrendingUp
      else if p <? c then TrendingDown
      else Minus
  | _, _ => Minus
  end.

(** The sum of the changes, a missing change counting for nothing. *)
Definition totalChange (trends : list Trend) : Z :=
  fold_right (fun t acc => (orDefault (change t) 0 + acc)%Z) 0%Z trends.

Definition positionOf (r : RankingResult) : option nat :=
  Insert.rankingPosition (columns r).

(** Every key of the map occurs once. *)
Definition uniqueKeys {V : Type} (m : JsMap V) : Prop := NoDup (map fst m).

(** The four maps are maps. *)
Definition WellFormed (st : MemStorage) : Prop :=
  uniqueKeys (users st) /\ uniqueKeys (projects st) /\
  uniqueKeys (searches st) /\ uniqueKeys (rankingResults st).

(** Newest first. *)
Definition NewestFirst {A : Type} (key : A -> Z) (l : list A) : Prop :=
  StronglySorted (fun a b => (key b <= key a)%Z) l.

(** A history row for the examples. *)
Definition historyRow (id : string) (at_ : Z) (position : option nat)
    : RankingResult :=
  {| ranking_id := id;
     ranking_createdAt := at_;
     columns :=
       Insert.mk "search-1" "dentist london" "Bright Smile" "London" position
                 false None "desktop" None None None None None true |}.

(* ------------------------------------------------------------------ *)
(** *** Ranking results of one search *)

Section BySearch.

(** [String.prototype.localeCompare], which is not modelled. *)
Variable localeCompare : string -> string -> Z.

(** The comparator of [getRankingResultsBySearch]. *)
Definition bySearchOrder (a b : RankingResult) : Z :=
  if negb (String.eqb (Insert.query (columns a)) (Insert.query (columns b)))
  then localeCompare (Insert.query (columns a)) (Insert.query (columns b))
  else (Z.of_nat (orDefault (Insert.rankingPosition (columns a)) 0%nat)
        - Z.of_nat (orDefault (Insert.rankingPosition (columns b)) 0%nat))%Z.

Definition ofSearch (sid : string) (r : RankingResult) : bool :=
  String.eqb (Insert.searchId (columns r)) sid.

Definition getRankingResultsBySearch (sid : string) (st : MemStorage)
    : list RankingResult :=
  sort bySearchOrder (filter (ofSearch sid) (mapValues (rankingResults st))).

(** What [GET /api/searches/:id] answers: [None] for the 404, or the
    search, its results and the two [stats]. *)
Record SearchDetails : Type := mkSearchDetails {
  details_search : Search;
  details_results : list RankingResult;
  stats_totalResults : nat;
  stats_brandMatches : nat
}.

Definition searchDetails (id : string) (st : MemStorage) : option SearchDetails :=
  match getSearch id st with
  | None => None
  | Some search =>
      let results := getRankingResultsBySearch id st in
      Some {| details_search := search;
              details_results := results;
              stats_totalResults := List.length results;
              stats_brandMatches :=
                List.length
                  (filter (fun r => Insert.brandMatch (columns r)) results) |}
  end.

End BySearch.

(** What [GET /api/campaigns/:id] answers: [None] for the 404, or the
    campaign, its searches and the two [stats]. *)
Record CampaignDetails : Type := mkCampaignDetails {
  campaign : Project;
  campaign_searches : list Search;
  totalSearches : nat;
  lastRun : option Z
}.

Definition campaignDetails (id : string) (st : MemStorage)
    : option CampaignDetails :=
  match getProject id st with
  | None => None
  | Some c =>
      let found := getSearchesByProject id st in
      Some {| campaign := c;
              campaign_searches := found;
              totalSearches := List.length found;
              lastRun := match found with
                         | newest :: _ => Some (search_createdAt newest)
                         | [] => None
                         end |}
  end.

(** [GET /api/ranking-history] for the three required parameters, each
    present and not empty, and the two optional dates. *)
Definition rankingHistory (q b br : string) (startDate endDate : option Z)
    (st : MemStorage) : list Trend :=
  historyWithTrends (getRankingHistory q b br startDate endDate st).

(* ------------------------------------------------------------------ *)
(** *** The API as a list of calls *)

(** The calls of [IStorage] that write. *)
Inductive StorageCall : Type :=
| CreateUser (id uname pw : string)
| CreateProject (id : string) (created updated : Z) (project : InsertProject)
| UpdateProject (id : string) (project : ProjectPatch) (now : Z)
| DeleteProject (id : string)
| CreateSearch (id : string) (now : Z) (search : InsertSearch)
| UpdateSearch (id : string) (search : SearchPatch)
| CreateRankingResults (stamps : nat -> string * Z) (results : list Insert.row).

Definition perform (st : MemStorage) (call : StorageCall) : MemStorage :=
  match call with
  | CreateUser id uname pw => snd (createUser id uname pw st)
  | CreateProject id created updated project =>
      snd (createProject id created updated project st)
  | UpdateProject id project now => snd (updateProject id project now st)
  | DeleteProject id => snd (deleteProject id st)
  | CreateSearch id now search => snd (createSearch id now search st)
  | UpdateSearch id search => snd (updateSearch id search st)
  | CreateRankingResults stamps results =>
      snd (createRankingResults stamps results st)
  end.

(** The store after the calls, from [new MemStorage()]. *)
Definition after (history : list StorageCall) : MemStorage :=
  fold_left perform history emptyStorage.

(** Every value of the map is filed under its own id. *)
Definition filedById {V : Type} (idOf : V -> string) (m : JsMap V) : Prop :=
  Forall (fun entry => idOf (snd entry) = fst entry) m.

(** Each of the four maps has unique keys and files every record under
    the record's id. *)
Definition Consistent (st : MemStorage) : Prop :=
  WellFormed st /\
  filedById user_id (users st) /\
  filedById project_id (projects st) /\
  filedById search_id (searches st) /\
  filedById ranking_id (rankingResults st).

(* ------------------------------------------------------------------ *)
(** *** The handlers that write to the store *)

(** [req.file], with the result of [Papa.parse] on its content. *)
Record UploadedFile : Type := mkUploadedFile {
  originalname : string;
  parsed : PapaResult
}.

(** What the run reads from [randomUUID()], [new Date()] and
    [Date.now()]: the id and creation time of the search, those of the
    ranking results in the order of their creation, and
    [String(processingTime)]. *)
Record Runtime : Type := mkRuntime {
  rt_searchId : string;
  rt_searchCreatedAt : Z;
  rt_stamps : nat -> string * Z;
  rt_processingTime : string
}.

(** What a handler answers: [res.status(code).json({ error })], or the
    last event (resp. the JSON body) with the value of [searchId] when it
    is written. *)
Inductive Answer : Type :=
| StatusJson (code : nat) (error : string)
| Finished (searchId : option string) (last : Reply).

(** [s || fallback] on an optional string. *)
Definition orString (s : option string) (fallback : string) : string :=
  match s with
  | Some (String c t) => String c t
  | _ => fallback
  end.

(** The argument of [storage.createSearch] in both handlers. *)
Definition processingSearch (pid : option string) (filename : string)
    (opts : Options) (queryData : list QueryRow) : InsertSearch :=
  {| is_projectId := pid;
     is_csvFilename := filename;
     is_country := Some (opt_gl opts);
     is_language := Some (opt_hl opts);
     is_deviceType := deviceType opts;
     is_geoGridEnabled := geoGridEnabled opts;
     is_geoGridConfig := geoGridConfig opts;
     is_totalQueries := List.length queryData;
     is_totals := {| totalResults := 0; totalBrandMatches := 0;
                     totalLocalPackMatches := 0; apiCallsMade := 0 |};
     is_processingTimeSeconds := None;
     is_status := Some "processing";
     is_scheduledFor := None;
     is_isRecurring := None;
     is_recurringInterval := None |}.

(** The patch without keys. *)
Definition emptyPatch : SearchPatch :=
  {| sp_projectId := None; sp_csvFilename := None; sp_country := None;
     sp_language := None; sp_deviceType := None; sp_geoGridEnabled := None;
     sp_geoGridConfig := None; sp_totalQueries := None;
     sp_totalResults := None; sp_totalBrandMatches := None;
     sp_totalLocalPackMatches := None; sp_apiCallsMade := None;
     sp_processingTimeSeconds := None; sp_status := None;
     sp_scheduledFor := None; sp_isRecurring := None;
     sp_recurringInterval := None |}.

(** The argument of [storage.updateSearch] when the run has completed. *)
Definition completedPatch (s : State) (seconds : string) : SearchPatch :=
  {| sp_projectId := None; sp_csvFilename := None; sp_country := None;
     sp_language := None; sp_deviceType := None; sp_geoGridEnabled := None;
     sp_geoGridConfig := None; sp_totalQueries := None;
     sp_totalResults := Some (totalResults (totalsOf s));
     sp_totalBrandMatches := Some (totalBrandMatches (totalsOf s));
     sp_totalLocalPackMatches := Some (totalLocalPackMatches (totalsOf s));
     sp_apiCallsMade := Some (apiCallsMade (totalsOf s));
     sp_processingTimeSeconds := Some (Some seconds);
     sp_status := Some "completed";
     sp_scheduledFor := None; sp_isRecurring := None;
     sp_recurringInterval := None |}.

(** [{ status: 'error' }]. *)
Definition errorPatch : SearchPatch :=
  {| sp_projectId := None; sp_csvFilename := None; sp_country := None;
     sp_language := None; sp_deviceType := None; sp_geoGridEnabled := None;
     sp_geoGridConfig := None; sp_totalQueries := None;
     sp_totalResults := None; sp_totalBrandMatches := None;
     sp_totalLocalPackMatches := None; sp_apiCallsMade := None;
     sp_processingTimeSeconds := None; sp_status := Some "error";
     sp_scheduledFor := None; sp_isRecurring := None;
     sp_recurringInterval := None |}.

(** What the handlers read of [req.body].  A field that is absent is
    [None]; [body_geoGridEnabled] is the outcome of
    [req.body.geoGridEnabled === 'true' || req.body.geoGridEnabled === true];
    [body_geoGridConfig] is what [JSON.parse(req.body.geoGridConfig || '{}')]
    does: it throws a [SyntaxError] with the message given, or returns a
    value, which is falsy ([None]) or holds the configuration. *)
Record Body : Type := mkBody {
  body_gl : option string;
  body_hl : option string;
  body_deviceType : option string;
  body_projectId : option string;
  body_geoGridEnabled : bool;
  body_geoGridConfig : string + option GeoGridConfig
}.

(** [geoGridEnabled ? JSON.parse(req.body.geoGridConfig || '{}') : null]. *)
Definition parsedGeoGridConfig (b : Body) : string + option GeoGridConfig :=
  if body_geoGridEnabled b then body_geoGridConfig b else inr None.

(** The options of [POST /api/process-csv-stream], or the message of the
    error thrown while they are read. *)
Definition streamOptions (b : Body) : string + Options :=
  match parsedGeoGridConfig b with
  | inl thrown => inl thrown
  | inr cfg =>
      inr {| opt_gl := orString (body_gl b) "gb";
             opt_hl := orString (body_hl b) "en";
             deviceType := orString (body_deviceType b) "desktop";
             geoGridEnabled := body_geoGridEnabled b;
             geoGridConfig := cfg |}
  end.

Section Handlers.

Variable String_ : float -> string.

(** [storage.createRankingResults([...rankingResultsToSave,
    ...noMatchResults])] and then [storage.updateSearch(searchId, ...)]:
    with [MemStorage] neither call throws. *)
Definition saveRun (sid : string) (opts : Options) (rt : Runtime) (s : State)
    (st : MemStorage) : MemStorage :=
  let (_, st1) :=
    createRankingResults (rt_stamps rt)
      (rowsToSave String_ sid (deviceType opts) (allResults s)) st in
  snd (updateSearch sid (completedPatch s (rt_processingTime rt)) st1).

(** [POST /api/process-csv-stream] over [MemStorage]: the answer and the
    store it leaves.  The options are read, and the geo-grid
    configuration parsed, before the file is. *)
Definition processCsvStreamStored (fuel : nat) (env : Environment)
    (file : option UploadedFile) (b : Body) (rt : Runtime) (st : MemStorage)
    : Answer * MemStorage :=
  match file with
  | None => (StatusJson 400 "No file uploaded", st)
  | Some f =>
      match streamOptions b with
      | inl thrown =>
          (Finished None
             (ErrorEvent (match thrown with
                          | EmptyString => "Failed to process CSV file"
                          | m => m
                          end)), st)
      | inr opts =>
          match parseCSV (parsed f) with
          | inl thrown =>
              (Finished None
                 (ErrorEvent (match thrown with
                              | EmptyString => "Failed to process CSV file"
                              | m => m
                              end)), st)
          | inr [] => (StatusJson 400 "No valid data rows found in CSV", st)
          | inr queryData =>
              let (search, st1) :=
                createSearch (rt_searchId rt) (rt_searchCreatedAt rt)
                  (processingSearch (orNull (body_projectId b))
                     (originalname f) opts queryData) st in
              let sid := search_id search in
              (Finished (Some sid) (processCsvStream fuel env opts queryData),
               match forEachQuery fuel env opts queryData start with
               | Returned _ s =>
                   if nonEmpty sid then saveRun sid opts rt s st1 else st1
               | Threw _ _ =>
                   if nonEmpty sid then snd (updateSearch sid errorPatch st1)
                   else st1
               | OutOfFuel => st1
               end)
          end
      end
  end.

(** The options of [POST /api/campaigns/:id/rerun]: country and language
    are the campaign's, the rest is the request's. *)
Definition rerunOptions (c : Project) (b : Body) : string + Options :=
  match parsedGeoGridConfig b with
  | inl thrown => inl thrown
  | inr cfg =>
      inr {| opt_gl := orString (project_country c) "gb";
             opt_hl := orString (project_language c) "en";
             deviceType := orString (body_deviceType b) "desktop";
             geoGridEnabled := body_geoGridEnabled b;
             geoGridConfig := cfg |}
  end.

(** [POST /api/campaigns/:id/rerun] over [MemStorage], for query data of
    the shape [parseCSV] gives. *)
Definition rerunCampaign (fuel : nat) (env : Environment) (id : string)
    (b : Body) (rt : Runtime) (st : MemStorage) : Answer * MemStorage :=
  match getProject id st with
  | None => (StatusJson 404 "Campaign not found", st)
  | Some c =>
      match project_queryData c with
      | None => (StatusJson 400 "Campaign has no saved query data", st)
      | Some queryData =>
          match rerunOptions c b with
          | inl thrown =>
              (StatusJson 500 (match thrown with
                               | EmptyString => "Failed to rerun campaign"
                               | m => m
                               end), st)
          | inr opts =>
              let (search, st1) :=
                createSearch (rt_searchId rt) (rt_searchCreatedAt rt)
                  (processingSearch (Some id) (name c ++ " - Rerun")%js opts
                                    queryData) st in
              match forEachQuery fuel env opts queryData start with
              | Returned _ s =>
                  (Finished (Some (search_id search))
                     (Complete (allResults s)
                        (filter brand_match (allResults s))
                        (List.length queryData) (List.length (allResults s))
                        (totalApiCalls s)),
                   saveRun (search_id search) opts rt s st1)
              | Threw e _ =>
                  (StatusJson 500 (match message e with
                                   | EmptyString => "Failed to rerun campaign"
                                   | m => m
                                   end), st1)
              | OutOfFuel =>
                  (Finished (Some (search_id search)) Unfinished, st1)
              end
          end
      end
  end.

End Handlers.

(** The results [createRankingResults] returns: each row with the stamp of
    its call. *)
Definition stamped (stamps : nat -> string * Z) (first : nat)
    (results : list Insert.row) : list RankingResult :=
  mapWithIndex (fun r i => {| ranking_id := fst (stamps i);
                              ranking_createdAt := snd (stamps i);
                              columns := r |})
               first results.

(** The ids of the stamps [first .. first + n - 1] are distinct and not in
    the map. *)
Definition FreshStamps {V : Type} (stamps : nat -> string * Z) (first n : nat)
    (m : JsMap V) : Prop :=
  NoDup (map (fun i => fst (stamps i)) (seq first n)) /\
  forall i, first <= i < first + n -> mapGet (fst (stamps i)) m = None.

(** Examples. *)
Definition demoStamps (i : nat) : string * Z :=
  (("r" ++ decimal i)%js, (1000 + Z.of_nat i)%Z).

Definition demoRuntime : Runtime :=
  {| rt_searchId := "search-1";
     rt_searchCreatedAt := 500;
     rt_stamps := demoStamps;
     rt_processingTime := "4.2" |}.

(** A request without fields: every option takes its default. *)
Definition plainBody : Body :=
  {| body_gl := None; body_hl := None; body_deviceType := None;
     body_projectId := None; body_geoGridEnabled := false;
     body_geoGridConfig := inr None |}.

(** A request whose geo-grid configuration is not JSON. *)
Definition brokenBody : Body :=
  {| body_gl := None; body_hl := None; body_deviceType := None;
     body_projectId := None; body_geoGridEnabled := true;
     body_geoGridConfig := inl "Unexpected token o in JSON at position 1" |}.

Definition demoFile : UploadedFile :=
  {| originalname := "queries.csv";
     parsed := {| data := [recordOf brightSmile]; errors := [] |} |}.

Definition pawsLeeds : QueryRow :=
  {| Keywords := "vet leeds"; Brand := "Paws"; Branch := "Leeds" |}.

Definition twoLineFile : UploadedFile :=
  {| originalname := "two.csv";
     parsed := {| data := [recordOf brightSmile; recordOf pawsLeeds];
                  errors := [] |} |}.

(** A store with one campaign of two saved queries. *)
Definition campaignStore : MemStorage :=
  after [ CreateProject "p1" 10 10
            {| ip_name := "Dentists"; ip_description := None;
               ip_queryData := Some [brightSmile; pawsLeeds];
               ip_country := Some "gb"; ip_language := None |} ].

(** A store with one campaign, two runs of it and one other run. *)
Definition threeRuns : MemStorage :=
  after [ CreateProject "p1" 10 10
            {| ip_name := "Dentists"; ip_description := None;
               ip_queryData := None; ip_country := None;
               ip_language := None |};
          CreateSearch "s1" 20
            (processingSearch (Some "p1") "a.csv" plainOptions []);
          CreateSearch "s2" 30
            (processingSearch (Some "p1") "b.csv" plainOptions []);
          CreateSearch "s3" 40
            (processingSearch None "c.csv" plainOptions []) ].

(* ------------------------------------------------------------------ *)
(** *** [History.tsx]: the chart *)

(** An element of [chartData]; [chart_date] is the time value of
    [item.createdAt], whose formatting is not modelled. *)
Record ChartPoint : Type := mkChartPoint {
  chart_date : Z;
  chart_position : nat;
  chart_change : option Z
}.

(** The function mapped over the history: [position] is
    [item.rankingPosition || 0]. *)
Definition pointOf (item : Trend) : ChartPoint :=
  {| chart_date := ranking_createdAt (result item);
     chart_position := orDefault (positionOf (result item)) 0;
     chart_change := change item |}.

(** [history.map(...).reverse()]. *)
Definition chartData (history : list Trend) : list ChartPoint :=
  rev (map pointOf history).
(* ------------------------------------------------------------------ *)
(** *** Facts about strings *)

Lemma prefix_empty (s : string) : prefix "" s = true.
Proof. destruct s; reflexivity. Qed.

Lemma prefix_iff (needle hay : string) :
  prefix needle hay = true <-> exists post, hay = (needle ++ post)%js.
Proof.
  revert hay; induction needle as [|c n IH]; intros hay.
  - rewrite prefix_empty. split; [intros _; now exists hay | reflexivity].
  - destruct hay as [|d h]; simpl.
    + split; [discriminate | intros [post H]; discriminate].
    + destruct (N.eqb_spec c d) as [->|ne]; simpl.
      * rewrite IH. split; intros [post H]; exists post.
        -- now rewrite H.
        -- now injection H.
      * split; [discriminate | intros [post H]; injection H; congruence].
Qed.

Lemma includes_unfold (hay needle : string) :
  includes hay needle =
  if prefix needle hay then true
  else match hay with
       | EmptyString => false
       | String _ t => includes t needle
       end.
Proof. destruct hay; reflexivity. Qed.

Lemma includes_iff (hay needle : string) :
  includes hay needle = true <-> Substring needle hay.
Proof.
  induction hay as [|d h IH]; rewrite includes_unfold.
  - destruct (prefix needle "") eqn:P.
    + split; [intros _ | reflexivity].
      apply prefix_iff in P as [post H]. now exists "", post.
    + split; [discriminate | intros [pre [post H]]].
      destruct pre; [| discriminate]. simpl in H.
      rewrite <- P. apply prefix_iff. now exists post.
  - destruct (prefix needle (String d h)) eqn:P.
    + split; [intros _ | reflexivity].
      apply prefix_iff in P as [post H]. now exists "", post.
    + rewrite IH. split; intros [pre [post H]].
      * exists (String d pre), post. simpl. now rewrite H.
      * destruct pre as [|x pre]; simpl in H.
        -- assert (prefix needle (String d h) = true) as Q
             by (apply prefix_iff; now exists post).
           congruence.
        -- injection H as _ H. now exists pre, post.
Qed.

Lemma includes_empty (hay : string) : includes hay "" = true.
Proof. rewrite includes_unfold, prefix_empty. reflexivity. Qed.

Lemma removeAll_ext (p q : codeUnit -> bool) (s : string) :
  allChars (fun c => Bool.eqb (p c) (q c)) s = true ->
  removeAll p s = removeAll q s.
Proof.
  induction s as [|c t IH]; simpl; [reflexivity |].
  intros H. apply andb_prop in H as [Hc Ht].
  apply eqb_prop in Hc. rewrite Hc, (IH Ht). reflexivity.
Qed.

Lemma removeAll_all (p : codeUnit -> bool) (s : string) :
  allChars p s = true -> removeAll p s = "".
Proof.
  induction s as [|c t IH]; simpl; [reflexivity |].
  intros H. apply andb_prop in H as [Hc Ht]. now rewrite Hc, IH.
Qed.

Lemma removeAll_empty (p : codeUnit -> bool) (s : string) :
  removeAll p s = "" <-> allChars p s = true.
Proof.
  split; [| apply removeAll_all].
  induction s as [|c t IH]; simpl; [reflexivity |].
  destruct (p c); [exact IH | discriminate].
Qed.

Lemma allChars_impl (p q : codeUnit -> bool) (s : string) :
  (forall c, p c = true -> q c = true) ->
  allChars p s = true -> allChars q s = true.
Proof.
  intros I. induction s as [|c t IH]; simpl; [reflexivity |].
  intros H. apply andb_prop in H as [Hc Ht]. now rewrite (I c Hc), IH.
Qed.

Lemma String_eqb_refl (s : string) : String.eqb s s = true.
Proof.
  induction s as [|c t IH]; simpl; [reflexivity |].
  now rewrite N.eqb_refl, IH.
Qed.

Lemma String_eqb_eq (s t : string) : String.eqb s t = true <-> s = t.
Proof.
  revert t. induction s as [|c s IH]; intros [|d t]; simpl;
    try (split; [discriminate | discriminate]); [tauto |].
  rewrite andb_true_iff, N.eqb_eq, IH. split.
  - now intros [-> ->].
  - intros H. now injection H.
Qed.

Lemma String_eqb_neq (s t : string) : String.eqb s t = false <-> s <> t.
Proof.
  rewrite <- String_eqb_eq. destruct (String.eqb s t); split; congruence.
Qed.

Lemma String_eqb_sym (s t : string) : String.eqb s t = String.eqb t s.
Proof.
  destruct (String.eqb s t) eqn:E.
  - apply String_eqb_eq in E. subst. symmetry. apply String_eqb_refl.
  - destruct (String.eqb t s) eqn:F; [| reflexivity].
    apply String_eqb_eq in F. subst. now rewrite String_eqb_refl in E.
Qed.

(** The instance of the worked examples leaves caseless strings alone. *)
Lemma latin1LowerCase_KeepsCaseless : KeepsCaseless latin1LowerCase.
Proof.
  intros s. unfold latin1LowerCase.
  induction s as [|c t IH]; cbn [mapChars allChars]; [reflexivity |].
  intros H. apply andb_prop in H as [Hc Ht]. rewrite (IH Ht). f_equal.
  unfold lowerChar. unfold caseless, isWhitespace, within in Hc.
  unfold within.
  destruct (65 <=? c)%N eqn:A, (c <=? 90)%N eqn:B; simpl;
    destruct (192 <=? c)%N eqn:C, (c <=? 222)%N eqn:D; simpl;
    try reflexivity;
    rewrite ?N.leb_le, ?N.leb_gt, ?N.eqb_eq, ?N.eqb_neq in *;
    repeat rewrite ?orb_true_iff, ?andb_true_iff, ?negb_true_iff,
      ?N.leb_le, ?N.leb_gt, ?N.eqb_eq in Hc;
    try lia.
  all: destruct (N.eqb_spec c 215); simpl; try reflexivity; lia.
Qed.

(** The code's class [[^a-z0-9]] in the rule's words. *)
Lemma normalizeBranchName_refines env (s : string) :
  normalizeBranchName env s = lowerAlnumOnly env s.
Proof. reflexivity. Qed.

Lemma normalizeBrandName_refines env (s : string) :
  normalizeBrandName env s = spec_normalizeBrand env s.
Proof. reflexivity. Qed.


(* ------------------------------------------------------------------ *)
(** *** Facts about binary64 arithmetic *)

Lemma finite_cases (x : float) :
  PrimFloat.is_finite x = true ->
  (exists b, Prim2SF x = S754_zero b) \/
  (exists b m e, Prim2SF x = S754_finite b m e).
Proof.
  unfold PrimFloat.is_finite, PrimFloat.is_nan, PrimFloat.is_infinity.
  rewrite !FloatAxioms.eqb_spec, FloatAxioms.abs_spec.
  destruct (Prim2SF x) as [b|b| |b m e]; intros H.
  - left. now exists b.
  - destruct b; vm_compute in H; discriminate.
  - vm_compute in H. discriminate.
  - right. now exists b, m, e.
Qed.

(** Adding zero times a finite number changes nothing, except that a
    negative zero may come out as the positive one. *)
Lemma add_zero_times (x s : float) :
  PrimFloat.is_finite s = true ->
  sameNumber (x + number 0 * s)%float x.
Proof.
  intros F.
  assert (exists b, Prim2SF (number 0 * s)%float = S754_zero b) as [b Z].
  { rewrite FloatAxioms.mul_spec.
    change (Prim2SF (number 0)) with (S754_zero false).
    destruct (finite_cases s F) as [[b ->] | [b [m [e ->]]]]; now exists b. }
  assert (Prim2SF (x + number 0 * s)%float
          = SF64add (Prim2SF x) (S754_zero b)) as A
    by (now rewrite FloatAxioms.add_spec, Z).
  destruct (Prim2SF x) as [sx|sx| |sx m e] eqn:X;
    try (left; apply FloatAxioms.Prim2SF_inj; now rewrite A, X).
  destruct sx, b;
    try (left; apply FloatAxioms.Prim2SF_inj; now rewrite A, X).
  right. split; apply FloatAxioms.Prim2SF_inj.
  - now rewrite A.
  - now rewrite X.
Qed.

(* ------------------------------------------------------------------ *)
(** *** Facts about the geo-grid *)

Lemma nested_loops_length {A : Type} (f : nat -> nat -> A) (n m a : nat) :
  List.length (flat_map (fun i => map (f i) (seq 0 n)) (seq a m)) = m * n.
Proof.
  revert a; induction m as [|m IH]; intros a; simpl; [reflexivity |].
  now rewrite length_app, length_map, length_seq, IH.
Qed.

Lemma nested_loops_nth {A : Type} (f : nat -> nat -> A) (n m a i j : nat) :
  i < m -> j < n ->
  nth_error (flat_map (fun i => map (f i) (seq 0 n)) (seq a m)) (i * n + j)
  = Some (f (a + i) j).
Proof.
  revert a i; induction m as [|m IH]; intros a i Hi Hj; [lia |].
  simpl. destruct i as [|i].
  - rewrite nth_error_app1 by (rewrite length_map, length_seq; simpl; lia).
    simpl. rewrite nth_error_map, nth_error_seq.
    assert ((j <? n) = true) as -> by (apply Nat.ltb_lt; lia).
    simpl. now rewrite Nat.add_0_r.
  - rewrite nth_error_app2 by (rewrite length_map, length_seq; simpl; lia).
    rewrite length_map, length_seq.
    replace (S i * n + j - n) with (i * n + j) by (simpl; lia).
    rewrite IH by lia. f_equal. f_equal. lia.
Qed.

Lemma generateGeoGrid_length cos cLat cLng r n :
  List.length (generateGeoGrid cos cLat cLng r n) = n * n.
Proof. apply nested_loops_length. Qed.

Lemma generateGeoGrid_nth cos cLat cLng r n i j :
  i < n -> j < n ->
  nth_error (generateGeoGrid cos cLat cLng r n) (i * n + j)
  = Some (gridPointAt cos cLat cLng r n i j).
Proof. intros Hi Hj. apply (nested_loops_nth _ n n 0 i j Hi Hj). Qed.

Lemma generateGeoGrid_first cos cLat cLng r n :
  1 <= n ->
  hd_error (generateGeoGrid cos cLat cLng r n)
  = Some (gridPointAt cos cLat cLng r n 0 0).
Proof.
  intros H. destruct n as [|n]; [lia | reflexivity].
Qed.

(* ------------------------------------------------------------------ *)
(** *** Facts about the fetcher *)

Lemma searchSerperPlaces_unconfigured env query gl hl page dev lat lng s :
  configured env = false ->
  searchSerperPlaces env query gl hl page dev lat lng s
  = Threw ConfigurationError
      (record (mkFetchCall page lat lng (Some ConfigurationError)) s).
Proof.
  unfold configured, searchSerperPlaces.
  destruct (SERPER_API_KEY env) as [[|c k]|]; intros H;
    [reflexivity | discriminate | reflexivity].
Qed.

Lemma searchSerperPlaces_configured env query gl hl page dev lat lng s :
  configured env = true ->
  exists apiKey,
    SERPER_API_KEY env = Some apiKey /\
    let request := requestOf apiKey query gl hl page dev lat lng in
    let response := upstream env (List.length (wire s)) request in
    searchSerperPlaces env query gl hl page dev lat lng s
    = if ok response
      then Returned (places response)
             (record (mkFetchCall page lat lng None) (send request s))
      else Threw (UpstreamError (status response) (statusText response))
             (record (mkFetchCall page lat lng
                        (Some (UpstreamError (status response)
                                             (statusText response))))
                     (send request s)).
Proof.
  unfold configured, searchSerperPlaces.
  destruct (SERPER_API_KEY env) as [[|c k]|]; intros H; try discriminate.
  exists (String c k). split; reflexivity.
Qed.

Lemma searchSerperPlaces_returned env query gl hl page dev lat lng s data s1 :
  searchSerperPlaces env query gl hl page dev lat lng s = Returned data s1 ->
  allResults s1 = allResults s /\
  calls s1 = calls s ++ [mkFetchCall page lat lng None] /\
  totalApiCalls s1 = totalApiCalls s /\
  List.length (wire s1) = List.length (wire s) + 1.
Proof.
  intros E. destruct (configured env) eqn:K.
  - destruct (searchSerperPlaces_configured env query gl hl page dev lat lng
                s K) as [apiKey [_ E']].
    cbv zeta in E'. rewrite E' in E. destruct (ok _); [| discriminate].
    injection E as _ <-. simpl. rewrite length_app. repeat split.
  - rewrite searchSerperPlaces_unconfigured in E by exact K. discriminate.
Qed.

Lemma searchSerperPlaces_threw env query gl hl page dev lat lng s e s1 :
  searchSerperPlaces env query gl hl page dev lat lng s = Threw e s1 ->
  allResults s1 = allResults s /\
  calls s1 = calls s ++ [mkFetchCall page lat lng (Some e)] /\
  totalApiCalls s1 = totalApiCalls s.
Proof.
  intros E. destruct (configured env) eqn:K.
  - destruct (searchSerperPlaces_configured env query gl hl page dev lat lng
                s K) as [apiKey [_ E']].
    cbv zeta in E'. rewrite E' in E. destruct (ok _); [discriminate |].
    injection E as <- <-. repeat split.
  - rewrite searchSerperPlaces_unconfigured in E by exact K.
    injection E as <- <-. repeat split.
Qed.

(* ------------------------------------------------------------------ *)
(** *** Facts about the matching loop *)

Lemma pushAll_nil s : pushAll [] s = s.
Proof. destruct s; unfold pushAll; simpl. now rewrite app_nil_r. Qed.

Lemma pushAll_app a b s : pushAll b (pushAll a s) = pushAll (a ++ b) s.
Proof. unfold pushAll; simpl. now rewrite app_assoc. Qed.

Lemma pushAll_fields rs s :
  allResults (pushAll rs s) = allResults s ++ rs /\
  calls (pushAll rs s) = calls s /\
  totalApiCalls (pushAll rs s) = totalApiCalls s /\
  wire (pushAll rs s) = wire s.
Proof. repeat split. Qed.

Lemma observations_app env opts row nB nBr pt idx ps qs :
  observations env opts row nB nBr pt idx (ps ++ qs)
  = observations env opts row nB nBr pt idx ps
    ++ observations env opts row nB nBr pt (idx + List.length ps) qs.
Proof.
  revert idx; induction ps as [|p ps IH]; intros idx; simpl.
  - now rewrite Nat.add_0_r.
  - rewrite IH. do 3 f_equal. lia.
Qed.

Lemma observations_length env opts row nB nBr pt idx ps :
  List.length (observations env opts row nB nBr pt idx ps) = List.length ps.
Proof.
  revert idx; induction ps as [|p ps IH]; intros idx; simpl;
    [reflexivity | now rewrite IH].
Qed.

Lemma observations_ranks env opts row nB nBr pt idx ps :
  map query_result_number (observations env opts row nB nBr pt idx ps)
  = map Position (seq idx (List.length ps)).
Proof.
  revert idx; induction ps as [|p ps IH]; intros idx; simpl;
    [reflexivity | now rewrite IH].
Qed.

Lemma noteMatch_found r found :
  foundBrandMatch (noteMatch r found) = foundBrandMatch found || brand_match r.
Proof.
  unfold noteMatch. destruct (brand_match r); simpl.
  - now rewrite orb_true_r.
  - now rewrite orb_false_r.
Qed.

Lemma notedAll_found rs : forall found,
  foundBrandMatch (notedAll found rs)
  = foundBrandMatch found || existsb brand_match rs.
Proof.
  induction rs as [|r rs IH]; intros found; simpl.
  - now rewrite orb_false_r.
  - unfold notedAll in *. simpl. rewrite IH, noteMatch_found.
    now rewrite orb_assoc.
Qed.

Lemma forEachPlace_eq env opts row nB nBr pt places : forall idx found s,
  forEachPlace env opts row nB nBr pt places idx found s
  = Returned (idx + List.length places,
              notedAll found (observations env opts row nB nBr pt idx places))
             (pushAll (observations env opts row nB nBr pt idx places) s).
Proof.
  induction places as [|p ps IH]; intros idx found s.
  - simpl. unfold ret. now rewrite pushAll_nil, Nat.add_0_r.
  - cbn [forEachPlace observations]. unfold bind, push.
    change (mkState (allResults s ++ [?r]) _ _ _) with (pushAll [r] s).
    rewrite IH, pushAll_app. simpl. do 3 f_equal. lia.
Qed.

(** One turn of the [while (true)] loop. *)
Lemma whileTrue_step fuel env opts row nB nBr pt page idx found s :
  whileTrue (S fuel) env opts row nB nBr pt page idx found s
  = match searchSerperPlaces env (Keywords row) (opt_gl opts) (opt_hl opts)
            page (deviceType opts) (searchLat pt) (searchLng pt) s with
    | Returned data s1 =>
        match data with
        | None | Some [] => Returned found (counted s1)
        | Some (p :: ps) =>
            let obs := observations env opts row nB nBr pt idx (p :: ps) in
            whileTrue fuel env opts row nB nBr pt (S page)
              (idx + List.length (p :: ps))
              (notedAll {| foundBrandMatch := foundBrandMatch found;
                           foundAnyResults := true;
                           foundLocalPackMatch := foundLocalPackMatch found |}
                        obs)
              (pushAll obs (counted s1))
        end
    | Threw e s1 => Threw e s1
    | OutOfFuel => OutOfFuel
    end.
Proof.
  cbn [whileTrue]. unfold bind at 1.
  destruct (searchSerperPlaces _ _ _ _ _ _ _ _ s) as [data s1|e s1|];
    try reflexivity.
  unfold bind at 1, countApiCall. fold (counted s1).
  destruct data as [[|p ps]|]; try reflexivity.
  unfold bind. now rewrite forEachPlace_eq.
Qed.

Lemma fetched_cons pt page n :
  fetched pt page (S n)
  = mkFetchCall page (searchLat pt) (searchLng pt) None :: fetched pt (S page) n.
Proof. reflexivity. Qed.

Lemma fetched_succeeded pt page n : Forall succeeded (fetched pt page n).
Proof.
  unfold fetched. apply Forall_forall. intros c H.
  apply in_map_iff in H as [pg [<- _]]. reflexivity.
Qed.

Lemma fetched_length pt page n : List.length (fetched pt page n) = n.
Proof. unfold fetched. now rewrite length_map, length_seq. Qed.

(** A grid point's loop that ends normally has fetched the pages [page],
    [page + 1], ... up to the first one without places, has counted each
    fetch, and has pushed the places of the pages before, numbered on from
    [idx]. *)
Lemma whileTrue_returned fuel env opts row nB nBr pt :
  forall page idx found s found' s',
    whileTrue fuel env opts row nB nBr pt page idx found s = Returned found' s' ->
    exists pages,
      allResults s'
      = allResults s ++ observations env opts row nB nBr pt idx (List.concat pages) /\
      foundBrandMatch found'
      = foundBrandMatch found
        || existsb brand_match
             (observations env opts row nB nBr pt idx (List.concat pages)) /\
      calls s' = calls s ++ fetched pt page (S (List.length pages)) /\
      totalApiCalls s' = totalApiCalls s + S (List.length pages) /\
      List.length (wire s') = List.length (wire s) + S (List.length pages).
Proof.
  induction fuel as [|fuel IH]; intros page idx found s found' s' H;
    [discriminate |].
  rewrite whileTrue_step in H.
  destruct (searchSerperPlaces env (Keywords row) (opt_gl opts) (opt_hl opts)
              page (deviceType opts) (searchLat pt) (searchLng pt) s)
    as [data s1|e1 s1|] eqn:E; try discriminate.
  apply searchSerperPlaces_returned in E as [R [C [T W]]].
  assert (forall found0, Returned found (counted s1) = Returned found0 s' ->
            exists pages,
              allResults s' = allResults s
                ++ observations env opts row nB nBr pt idx (List.concat pages) /\
              foundBrandMatch found0 = foundBrandMatch found
                || existsb brand_match
                     (observations env opts row nB nBr pt idx (List.concat pages)) /\
              calls s' = calls s ++ fetched pt page (S (List.length pages)) /\
              totalApiCalls s' = totalApiCalls s + S (List.length pages) /\
              List.length (wire s')
              = List.length (wire s) + S (List.length pages)) as Stop.
  { intros found0 H0. injection H0 as <- <-. exists []. simpl.
    rewrite app_nil_r, orb_false_r.
    repeat split; try assumption; try (now rewrite C); lia. }
  destruct data as [[|p ps]|]; try (now apply Stop).
  cbv zeta in H. apply IH in H as [pages [R' [F' [C' [T' W']]]]].
  exists ((p :: ps) :: pages).
  change (List.concat ((p :: ps) :: pages)) with ((p :: ps) ++ List.concat pages).
  rewrite observations_app, existsb_app.
  rewrite notedAll_found in F'. simpl foundBrandMatch in F'.
  destruct (pushAll_fields (observations env opts row nB nBr pt idx (p :: ps))
              (counted s1)) as [P1 [P2 [P3 P4]]].
  rewrite P1 in R'. rewrite P2 in C'. rewrite P3 in T'. rewrite P4 in W'.
  simpl in R', C', T', W'. rewrite R in R'. rewrite C in C'.
  rewrite T in T'. rewrite W in W'.
  repeat split.
  - now rewrite R', <- app_assoc.
  - now rewrite F', orb_assoc.
  - rewrite C', <- app_assoc. reflexivity.
  - simpl List.length. lia.
  - simpl List.length. lia.
Qed.

(** A grid point's loop that throws does so from a fetch, right after the
    fetches that succeeded. *)
Lemma whileTrue_threw fuel env opts row nB nBr pt :
  forall page idx found s e s',
    whileTrue fuel env opts row nB nBr pt page idx found s = Threw e s' ->
    exists pages,
      allResults s'
      = allResults s ++ observations env opts row nB nBr pt idx (List.concat pages) /\
      calls s' = calls s ++ fetched pt page (List.length pages)
                 ++ [mkFetchCall (page + List.length pages)
                       (searchLat pt) (searchLng pt) (Some e)] /\
      totalApiCalls s' = totalApiCalls s + List.length pages /\
      ThrownByFetch env e s'.
Proof.
  induction fuel as [|fuel IH]; intros page idx found s e s' H;
    [discriminate |].
  rewrite whileTrue_step in H.
  destruct (searchSerperPlaces env (Keywords row) (opt_gl opts) (opt_hl opts)
              page (deviceType opts) (searchLat pt) (searchLng pt) s)
    as [data s1|e1 s1|] eqn:E; [| | discriminate].
  - apply searchSerperPlaces_returned in E as [R [C [T _]]].
    destruct data as [[|p ps]|]; try discriminate.
    cbv zeta in H. apply IH in H as [pages [R' [C' [T' B']]]].
    exists ((p :: ps) :: pages).
    change (List.concat ((p :: ps) :: pages))
      with ((p :: ps) ++ List.concat pages).
    rewrite observations_app.
    destruct (pushAll_fields (observations env opts row nB nBr pt idx (p :: ps))
                (counted s1)) as [P1 [P2 [P3 _]]].
    rewrite P1 in R'. rewrite P2 in C'. rewrite P3 in T'.
    simpl in R', C', T'. rewrite R in R'. rewrite C in C'. rewrite T in T'.
    repeat split.
    + now rewrite R', <- app_assoc.
    + rewrite C', <- app_assoc. simpl List.length. rewrite fetched_cons.
      replace (page + S (List.length pages)) with (S (page + List.length pages))
        by lia.
      reflexivity.
    + simpl List.length. lia.
    + exact B'.
  - injection H as <- <-. exists [].
    pose proof (searchSerperPlaces_threw _ _ _ _ _ _ _ _ _ _ _ E) as [R [C T]].
    simpl. rewrite app_nil_r, !Nat.add_0_r. repeat split; try assumption.
    now exists (Keywords row), (opt_gl opts), (opt_hl opts), page,
      (deviceType opts), (searchLat pt), (searchLng pt), s.
Qed.

(* ------------------------------------------------------------------ *)
(** *** Accounting of the fetches *)

Lemma Clean_refl s : Clean s s.
Proof.
  exists []. rewrite app_nil_r. simpl. repeat split; auto.
Qed.

Lemma Clean_trans s1 s2 s3 : Clean s1 s2 -> Clean s2 s3 -> Clean s1 s3.
Proof.
  intros [c1 [C1 [F1 [T1 W1]]]] [c2 [C2 [F2 [T2 W2]]]].
  exists (c1 ++ c2). rewrite length_app. repeat split.
  - now rewrite C2, C1, app_assoc.
  - now apply Forall_app.
  - lia.
  - lia.
Qed.

Lemma Clean_Failed e s1 s2 s3 : Clean s1 s2 -> Failed e s2 s3 -> Failed e s1 s3.
Proof.
  intros [c1 [C1 [F1 [T1 W1]]]] [c2 [c [C2 [F2 [E2 T2]]]]].
  exists (c1 ++ c2), c. rewrite length_app. repeat split.
  - now rewrite C2, C1, !app_assoc.
  - now apply Forall_app.
  - exact E2.
  - lia.
Qed.

Lemma Clean_pushAll rs s1 s2 : Clean s1 s2 -> Clean s1 (pushAll rs s2).
Proof. intros [cs H]. now exists cs. Qed.

Lemma whileTrue_Clean fuel env opts row nB nBr pt page idx found s found' s' :
  whileTrue fuel env opts row nB nBr pt page idx found s = Returned found' s' ->
  Clean s s'.
Proof.
  intros H. apply whileTrue_returned in H as [pages [_ [_ [C [T W]]]]].
  exists (fetched pt page (S (List.length pages))).
  rewrite fetched_length. repeat split; auto using fetched_succeeded.
Qed.

Lemma whileTrue_Failed fuel env opts row nB nBr pt page idx found s e s' :
  whileTrue fuel env opts row nB nBr pt page idx found s = Threw e s' ->
  Failed e s s'.
Proof.
  intros H. apply whileTrue_threw in H as [pages [_ [C [T _]]]].
  exists (fetched pt page (List.length pages)),
    (mkFetchCall (page + List.length pages) (searchLat pt) (searchLng pt)
                 (Some e)).
  rewrite fetched_length. repeat split; auto using fetched_succeeded.
Qed.

(* ------------------------------------------------------------------ *)
(** *** The loops over grid points and over queries *)

Lemma forEachGridPoint_returned fuel env opts row nB nBr :
  forall gps found s found' s',
    forEachGridPoint fuel env opts row nB nBr gps found s = Returned found' s' ->
    exists blocks,
      Forall2 (GridPointBlock env opts row nB nBr) gps blocks /\
      allResults s' = allResults s ++ List.concat blocks /\
      foundBrandMatch found'
      = foundBrandMatch found || existsb brand_match (List.concat blocks) /\
      Clean s s'.
Proof.
  induction gps as [|gp gps IH]; intros found s found' s' H.
  - injection H as <- <-. exists []. simpl.
    rewrite app_nil_r, orb_false_r. auto using Clean_refl.
  - cbn [forEachGridPoint] in H. unfold bind, searchGridPoint in H.
    destruct (whileTrue fuel env opts row nB nBr gp 1 1 found s)
      as [found1 s1|e s1|] eqn:E; try discriminate.
    pose proof (whileTrue_Clean _ _ _ _ _ _ _ _ _ _ _ _ _ E) as K1.
    apply whileTrue_returned in E as [pages [R1 [F1 _]]].
    apply IH in H as [blocks [B [R2 [F2 K2]]]].
    exists (observations env opts row nB nBr gp 1 (List.concat pages) :: blocks).
    simpl List.concat. rewrite existsb_app. repeat split.
    + constructor; [now exists (List.concat pages) | exact B].
    + now rewrite R2, R1, app_assoc.
    + now rewrite F2, F1, orb_assoc.
    + exact (Clean_trans _ _ _ K1 K2).
Qed.

Lemma forEachGridPoint_threw fuel env opts row nB nBr :
  forall gps found s e s',
    forEachGridPoint fuel env opts row nB nBr gps found s = Threw e s' ->
    Failed e s s' /\ ThrownByFetch env e s'.
Proof.
  induction gps as [|gp gps IH]; intros found s e s' H; [discriminate |].
  cbn [forEachGridPoint] in H. unfold bind, searchGridPoint in H.
  destruct (whileTrue fuel env opts row nB nBr gp 1 1 found s)
    as [found1 s1|e1 s1|] eqn:E; try discriminate.
  - pose proof (whileTrue_Clean _ _ _ _ _ _ _ _ _ _ _ _ _ E) as K1.
    apply IH in H as [K2 B]. split; [exact (Clean_Failed _ _ _ _ K1 K2) | exact B].
  - injection H as <- <-. split.
    + exact (whileTrue_Failed _ _ _ _ _ _ _ _ _ _ _ _ _ E).
    + now apply whileTrue_threw in E as [pages [_ [_ [_ B]]]].
Qed.

Lemma matchQuery_returned fuel env opts gps row s u s' :
  matchQuery fuel env opts gps row s = Returned u s' ->
  exists blocks,
    Forall2 (GridPointBlock env opts row (normalizeBrandName env (Brand row))
               (normalizeBranchName env (Branch row))) gps blocks /\
    allResults s'
    = allResults s ++ List.concat blocks
      ++ (if existsb brand_match (List.concat blocks) then []
          else [brandNotFound row]) /\
    Clean s s'.
Proof.
  unfold matchQuery, bind. intros H.
  destruct (forEachGridPoint _ _ _ _ _ _ _ _ s) as [found s1|e s1|] eqn:E;
    try discriminate.
  apply forEachGridPoint_returned in E as [blocks [B [R [F K]]]].
  exists blocks. simpl in F. rewrite F in H.
  destruct (existsb brand_match (List.concat blocks)); simpl in H;
    injection H as _ <-.
  - rewrite app_nil_r. auto.
  - repeat split; auto using Clean_pushAll.
    simpl. now rewrite R, app_assoc.
Qed.

Lemma matchQuery_threw fuel env opts gps row s e s' :
  matchQuery fuel env opts gps row s = Threw e s' ->
  Failed e s s' /\ ThrownByFetch env e s'.
Proof.
  unfold matchQuery, bind. intros H.
  destruct (forEachGridPoint _ _ _ _ _ _ _ _ s) as [found s1|e1 s1|] eqn:E;
    try discriminate.
  - destruct (negb (foundBrandMatch found)); discriminate.
  - injection H as <- <-. now apply forEachGridPoint_threw in E.
Qed.

Lemma observations_Emitted env opts row gp places : forall idx,
  Forall (Emitted env)
    (observations env opts row (normalizeBrandName env (Brand row))
                  (normalizeBranchName env (Branch row)) gp idx places).
Proof.
  induction places as [|p ps IH]; intros idx; constructor; [| apply IH].
  left. exists opts, gp, idx, p. destruct row; reflexivity.
Qed.

Lemma brandNotFound_Emitted env row : Emitted env (brandNotFound row).
Proof. right. destruct row; reflexivity. Qed.

Lemma blocks_Emitted env opts row gps blocks :
  Forall2 (GridPointBlock env opts row (normalizeBrandName env (Brand row))
             (normalizeBranchName env (Branch row))) gps blocks ->
  Forall (Emitted env) (List.concat blocks).
Proof.
  induction 1 as [|gp b gps blocks [places ->] _ IH]; simpl.
  - constructor.
  - apply Forall_app. split; [apply observations_Emitted | exact IH].
Qed.

Lemma forEachQuery_returned fuel env opts :
  forall queryData s u s',
    forEachQuery fuel env opts queryData s = Returned u s' ->
    exists new,
      allResults s' = allResults s ++ new /\ Forall (Emitted env) new /\ Clean s s'.
Proof.
  induction queryData as [|row rest IH]; intros s u s' H.
  - injection H as _ <-. exists []. rewrite app_nil_r.
    auto using Clean_refl.
  - cbn [forEachQuery] in H. unfold bind, processQuery in H.
    destruct (gridPointsOf fuel env opts) as [gps|]; [| discriminate].
    destruct (matchQuery fuel env opts gps row s)
      as [u1 s1|e s1|] eqn:E; try discriminate.
    apply matchQuery_returned in E as [blocks [B [R1 K1]]].
    apply IH in H as [new [R2 [F2 K2]]].
    eexists. split; [| split].
    + rewrite R2, R1, <- !app_assoc. reflexivity.
    + apply Forall_app. split; [exact (blocks_Emitted _ _ _ _ _ B) |].
      apply Forall_app. split; [| exact F2].
      destruct (existsb brand_match (List.concat blocks)); constructor;
        [apply brandNotFound_Emitted | constructor].
    + exact (Clean_trans _ _ _ K1 K2).
Qed.

Lemma forEachQuery_threw fuel env opts :
  forall queryData s e s',
    forEachQuery fuel env opts queryData s = Threw e s' ->
    Failed e s s' /\ ThrownByFetch env e s'.
Proof.
  induction queryData as [|row rest IH]; intros s e s' H; [discriminate |].
  cbn [forEachQuery] in H. unfold bind, processQuery in H.
  destruct (gridPointsOf fuel env opts) as [gps|]; [| discriminate].
  destruct (matchQuery fuel env opts gps row s)
    as [u1 s1|e1 s1|] eqn:E; try discriminate.
  - apply matchQuery_returned in E as [blocks [_ [_ K1]]].
    apply IH in H as [K2 B]. split; [exact (Clean_Failed _ _ _ _ K1 K2) | exact B].
  - injection H as <- <-. now apply matchQuery_threw in E.
Qed.

(* ------------------------------------------------------------------ *)
(** *** Fuel *)

Lemma Mono_bind {A B : Type} (f : nat -> M A) (k : nat -> A -> M B) :
  Mono f -> (forall a, Mono (fun n => k n a)) ->
  Mono (fun n => bind (f n) (k n)).
Proof.
  intros Mf Mk fuel fuel' s L N. unfold bind in *.
  destruct (f fuel s) as [a s1|e s1|] eqn:E; [| | contradiction].
  - rewrite (Mf fuel fuel' s L) by (rewrite E; discriminate).
    rewrite E. now apply (Mk a).
  - rewrite (Mf fuel fuel' s L) by (rewrite E; discriminate).
    now rewrite E.
Qed.

Lemma Halts_bind {A B : Type} (f : nat -> M A) (k : nat -> A -> M B) :
  Mono f -> (forall a, Mono (fun n => k n a)) ->
  Halts f -> (forall a, Halts (fun n => k n a)) ->
  Halts (fun n => bind (f n) (k n)).
Proof.
  intros Mf Mk Hf Hk s. destruct (Hf s) as [n1 N1].
  destruct (f n1 s) as [a s1|e s1|] eqn:E; [| | contradiction].
  - destruct (Hk a s1) as [n2 N2]. exists (Nat.max n1 n2). unfold bind.
    rewrite (Mf n1 (Nat.max n1 n2) s) by (try lia; rewrite E; discriminate).
    rewrite E.
    now rewrite (Mk a n2 (Nat.max n1 n2) s1) by (try lia; exact N2).
  - exists n1. unfold bind. rewrite E. discriminate.
Qed.

Lemma whileTrue_Mono env opts row nB nBr pt page idx found :
  Mono (fun fuel => whileTrue fuel env opts row nB nBr pt page idx found).
Proof.
  intros fuel. revert page idx found.
  induction fuel as [|fuel IH]; intros page idx found fuel' s L N;
    [now contradiction N |].
  destruct fuel' as [|fuel']; [lia |].
  rewrite whileTrue_step in N. rewrite !whileTrue_step.
  destruct (searchSerperPlaces _ _ _ _ _ _ _ _ s) as [data s1|e s1|];
    try reflexivity.
  destruct data as [[|p ps]|]; try reflexivity.
  cbv zeta in *. apply IH; [lia | exact N].
Qed.

Lemma forEachGridPoint_Mono env opts row nB nBr gps : forall found,
  Mono (fun fuel => forEachGridPoint fuel env opts row nB nBr gps found).
Proof.
  induction gps as [|gp gps IH]; intros found;
    [intros fuel fuel' s _ _; reflexivity |].
  cbn [forEachGridPoint].
  apply (Mono_bind
           (fun fuel => searchGridPoint fuel env opts row nB nBr found gp)
           (fun fuel found' =>
              forEachGridPoint fuel env opts row nB nBr gps found')).
  - apply whileTrue_Mono.
  - exact IH.
Qed.

Lemma matchQuery_Mono env opts gps row :
  Mono (fun fuel => matchQuery fuel env opts gps row).
Proof.
  unfold matchQuery.
  apply (Mono_bind
           (fun fuel => forEachGridPoint fuel env opts row _ _ gps _)
           (fun _ found =>
              if negb (foundBrandMatch found) then push (brandNotFound row)
              else ret tt)).
  - apply forEachGridPoint_Mono.
  - intros found fuel fuel' s _ _. reflexivity.
Qed.

Lemma counting_more : forall fuel fuel' i gridSize counters,
  fuel <= fuel' ->
  counting fuel i gridSize = Some counters ->
  counting fuel' i gridSize = Some counters.
Proof.
  induction fuel as [|fuel IH]; intros fuel' i gridSize counters L H.
  - destruct fuel'; cbn [counting] in *;
      destruct (i <? gridSize)%float; congruence.
  - destruct fuel' as [|fuel']; [lia |]. cbn [counting] in *.
    destruct (i <? gridSize)%float; [| exact H].
    destruct (counting fuel (i + 1) gridSize) as [rest|] eqn:E;
      [| discriminate].
    now rewrite (IH fuel' _ _ rest ltac:(lia) E).
Qed.

(** For a [gridSize] that is a count, the loops over numbers give the
    grid of [generateGeoGrid]; checked by evaluation for the sizes up to
    12. *)
Lemma generateGeoGridOf_count Math_cos centerLat centerLng radiusKm gridSize :
  gridSize <= 12 ->
  generateGeoGridOf Math_cos gridSize centerLat centerLng radiusKm
    (number gridSize)
  = Some (generateGeoGrid Math_cos centerLat centerLng radiusKm gridSize).
Proof.
  intros L.
  do 13 (destruct gridSize as [|gridSize]; [reflexivity |]). lia.
Qed.

Lemma gridPointsOf_more fuel fuel' env opts points :
  fuel <= fuel' ->
  gridPointsOf fuel env opts = Some points ->
  gridPointsOf fuel' env opts = Some points.
Proof.
  intros L. unfold gridPointsOf, generateGeoGridOf.
  destruct (geoGridEnabled opts); [| exact id].
  destruct (geoGridConfig opts) as [cfg|]; [| exact id].
  destruct (counting fuel 0 _) as [counters|] eqn:E; [| discriminate].
  now rewrite (counting_more fuel fuel' _ _ counters L E).
Qed.

Lemma processQuery_Mono env opts row :
  Mono (fun fuel => processQuery fuel env opts row).
Proof.
  intros fuel fuel' s L N. unfold processQuery in *.
  destruct (gridPointsOf fuel env opts) as [gps|] eqn:G;
    [| now contradiction N].
  rewrite (gridPointsOf_more fuel fuel' env opts gps L G).
  now apply matchQuery_Mono.
Qed.

Lemma forEachQuery_Mono env opts queryData :
  Mono (fun fuel => forEachQuery fuel env opts queryData).
Proof.
  induction queryData as [|row rest IH];
    [intros fuel fuel' s _ _; reflexivity |].
  cbn [forEachQuery].
  apply (Mono_bind (fun fuel => processQuery fuel env opts row)
                   (fun fuel _ => forEachQuery fuel env opts rest)).
  - apply processQuery_Mono.
  - intros _. exact IH.
Qed.

(** The loop ends within [k + 1] turns when the answer to the request it
    sends [k] requests from now ends the pagination. *)
Lemma whileTrue_within env opts row nB nBr pt : forall k page idx found s,
  (forall request,
      endsPagination (upstream env (List.length (wire s) + k) request) = true) ->
  whileTrue (S k) env opts row nB nBr pt page idx found s <> OutOfFuel.
Proof.
  induction k as [|k IH]; intros page idx found s E;
    rewrite whileTrue_step;
    (destruct (configured env) eqn:K;
     [| rewrite searchSerperPlaces_unconfigured by exact K; discriminate]);
    destruct (searchSerperPlaces_configured env (Keywords row) (opt_gl opts)
                (opt_hl opts) page (deviceType opts) (searchLat pt)
                (searchLng pt) s K) as [apiKey [_ ->]]; cbv zeta.
  - specialize (E (requestOf apiKey (Keywords row) (opt_gl opts) (opt_hl opts)
                     page (deviceType opts) (searchLat pt) (searchLng pt))).
    rewrite Nat.add_0_r in E. unfold endsPagination in E.
    destruct (ok _); [| discriminate]. simpl in E.
    destruct (places _) as [[|p ps]|]; discriminate.
  - destruct (ok _); [| discriminate].
    destruct (places _) as [[|p ps]|]; try discriminate.
    apply IH. intros request. specialize (E request).
    simpl. rewrite length_app. simpl.
    now replace (List.length (wire s) + 1 + k)
      with (List.length (wire s) + S k) by lia.
Qed.

Lemma whileTrue_Halts env opts row nB nBr pt page idx found :
  Exhausts env ->
  Halts (fun fuel => whileTrue fuel env opts row nB nBr pt page idx found).
Proof.
  intros X s. destruct (X (List.length (wire s))) as [k E].
  exists (S k). now apply whileTrue_within.
Qed.

Lemma forEachGridPoint_Halts env opts row nB nBr gps :
  Exhausts env -> forall found,
  Halts (fun fuel => forEachGridPoint fuel env opts row nB nBr gps found).
Proof.
  intros X. induction gps as [|gp gps IH]; intros found.
  - intros s. exists 0. discriminate.
  - cbn [forEachGridPoint].
    apply (Halts_bind
             (fun fuel => searchGridPoint fuel env opts row nB nBr found gp)
             (fun fuel found' =>
                forEachGridPoint fuel env opts row nB nBr gps found')).
    + apply whileTrue_Mono.
    + intros found'. apply forEachGridPoint_Mono.
    + now apply whileTrue_Halts.
    + exact IH.
Qed.

Lemma matchQuery_Halts env opts gps row :
  Exhausts env -> Halts (fun fuel => matchQuery fuel env opts gps row).
Proof.
  intros X. unfold matchQuery.
  apply (Halts_bind
           (fun fuel => forEachGridPoint fuel env opts row _ _ gps _)
           (fun _ found =>
              if negb (foundBrandMatch found) then push (brandNotFound row)
              else ret tt)).
  - apply forEachGridPoint_Mono.
  - intros found fuel fuel' s _ _. reflexivity.
  - now apply forEachGridPoint_Halts.
  - intros found s. exists 0. destruct (negb _); discriminate.
Qed.

Lemma processQuery_Halts env opts row :
  GridEnds env opts -> Exhausts env ->
  Halts (fun fuel => processQuery fuel env opts row).
Proof.
  intros [n1 G] X s.
  destruct (gridPointsOf n1 env opts) as [gps|] eqn:E; [| now contradiction G].
  destruct (matchQuery_Halts env opts gps row X s) as [n2 N].
  exists (Nat.max n1 n2). unfold processQuery.
  rewrite (gridPointsOf_more n1 (Nat.max n1 n2) env opts gps ltac:(lia) E).
  now rewrite (matchQuery_Mono env opts gps row n2 (Nat.max n1 n2) s)
    by (try lia; exact N).
Qed.

Lemma forEachQuery_Halts env opts queryData :
  GridEnds env opts -> Exhausts env ->
  Halts (fun fuel => forEachQuery fuel env opts queryData).
Proof.
  intros G X. induction queryData as [|row rest IH].
  - intros s. exists 0. discriminate.
  - cbn [forEachQuery].
    apply (Halts_bind (fun fuel => processQuery fuel env opts row)
                      (fun fuel _ => forEachQuery fuel env opts rest)).
    + apply processQuery_Mono.
    + intros _. apply forEachQuery_Mono.
    + now apply processQuery_Halts.
    + intros _. exact IH.
Qed.

Lemma observations_ranks_seq env opts row nB nBr pt idx ps :
  ranks (observations env opts row nB nBr pt idx ps) = seq idx (List.length ps).
Proof.
  revert idx; induction ps as [|p ps IH]; intros idx; simpl;
    [reflexivity | now rewrite <- IH].
Qed.

Lemma observations_titles env opts row nB nBr pt idx ps :
  map title (observations env opts row nB nBr pt idx ps) = map place_title ps.
Proof.
  revert idx; induction ps as [|p ps IH]; intros idx; simpl;
    [reflexivity | now rewrite IH].
Qed.

Lemma observations_point env opts row nB nBr pt idx ps :
  Forall (fun r => isObservation r = true /\
                   search_latitude r = searchLat pt /\
                   search_longitude r = searchLng pt)
         (observations env opts row nB nBr pt idx ps).
Proof.
  revert idx; induction ps as [|p ps IH]; intros idx; constructor;
    [repeat split | apply IH].
Qed.

(** With a key and as long as the upstream has no places, every grid point
    costs one fetch and pushes nothing. *)
Lemma forEachGridPoint_barren fuel env opts row nB nBr :
  configured env = true ->
  forall gps found s,
    (forall i request, i < List.length gps ->
       emptyPage (upstream env (List.length (wire s) + i) request) = true) ->
    exists s',
      forEachGridPoint (S fuel) env opts row nB nBr gps found s
      = Returned found s' /\
      allResults s' = allResults s /\
      totalApiCalls s' = totalApiCalls s + List.length gps.
Proof.
  intros K. induction gps as [|gp gps IH]; intros found s E.
  - exists s. simpl. repeat split; auto.
  - cbn [forEachGridPoint]. unfold bind, searchGridPoint.
    rewrite whileTrue_step.
    destruct (searchSerperPlaces_configured env (Keywords row) (opt_gl opts)
                (opt_hl opts) 1 (deviceType opts) (searchLat gp)
                (searchLng gp) s K) as [apiKey [_ ->]]; cbv zeta.
    pose proof (E 0 (requestOf apiKey (Keywords row) (opt_gl opts)
                       (opt_hl opts) 1 (deviceType opts) (searchLat gp)
                       (searchLng gp)) ltac:(simpl; lia)) as E0.
    rewrite Nat.add_0_r in E0. unfold emptyPage in E0.
    apply andb_prop in E0 as [-> E0].
    set (s1 := counted (record _ (send _ s))).
    destruct (IH found s1) as [s' [R [A T]]].
    { intros i request L. subst s1. simpl. rewrite length_app. simpl.
      replace (List.length (wire s) + 1 + i)
        with (List.length (wire s) + S i) by lia.
      apply E. simpl. lia. }
    exists s'.
    destruct (places _) as [[|p ps]|]; try discriminate;
      (split; [exact R | split; [now rewrite A | rewrite T; subst s1; simpl; lia]]).
Qed.

(** The handler ends, with results or with an error, when the loops of
    the grid end and the upstream does not serve non-empty pages for
    ever. *)
Lemma processCsvStream_finishes env opts queryData :
  GridEnds env opts -> Exhausts env ->
  exists fuel, processCsvStream fuel env opts queryData <> Unfinished.
Proof.
  intros G X.
  destruct (forEachQuery_Halts env opts queryData G X start) as [fuel N].
  exists fuel. unfold processCsvStream.
  destruct (forEachQuery fuel env opts queryData start);
    [discriminate | discriminate | now contradiction N].
Qed.

Example alternating_exhausts : Exhausts (demoEnv alternating).
Proof.
  intros n. exists (if Nat.even n then 1 else 0). intros request.
  unfold demoEnv, alternating, endsPagination. simpl.
  destruct (Nat.even n) eqn:E.
  - replace (n + 1) with (S n) by lia. rewrite Nat.even_succ.
    rewrite <- Nat.negb_even, E. reflexivity.
  - rewrite Nat.add_0_r, E. reflexivity.
Qed.

(* ------------------------------------------------------------------ *)
(** *** The record built by the loop body *)

Lemma placeResult_MatchRule env opts row point n place :
  MatchRule env row place
    (brand_match
       (placeResult env opts row (normalizeBrandName env (Brand row))
          (normalizeBranchName env (Branch row)) point n place)).
Proof.
  unfold MatchRule, titleOf, spec_normalizeTitle, spec_normalizeBrand,
    lowerAlnumOnly.
  cbn [placeResult brand_match].
  rewrite andb_true_iff, !includes_iff. reflexivity.
Qed.

Lemma placeResult_LocalPackRule env opts row nB nBr point n place :
  LocalPackRule (placeResult env opts row nB nBr point n place) n.
Proof.
  unfold LocalPackRule.
  cbn [placeResult is_local_pack local_pack_position].
  destruct (n <=? 3) eqn:L.
  - apply Nat.leb_le in L. split; [split; auto | split].
    + intros _. reflexivity.
    + intros N. now contradiction N.
  - apply Nat.leb_gt in L. split; [split; [discriminate | lia] | split].
    + discriminate.
    + intros _. split; reflexivity.
Qed.

Lemma processCsvStream_Emitted fuel env opts queryData :
  Forall (Emitted env) (allPlacesOf (processCsvStream fuel env opts queryData)).
Proof.
  unfold processCsvStream.
  destruct (forEachQuery fuel env opts queryData start) as [u s|e s|] eqn:E;
    simpl; try constructor.
  apply forEachQuery_returned in E as [new [R [F _]]].
  now rewrite R.
Qed.

Lemma Emitted_observation env r :
  Emitted env r -> isObservation r = true ->
  exists opts point n place,
    r = placeResult env opts (rowOf r) (normalizeBrandName env (brand r))
          (normalizeBranchName env (branch r)) point n place.
Proof.
  intros [H | H] O; [exact H |].
  rewrite H in O. discriminate.
Qed.

Lemma observations_In env opts row nB nBr pt r : forall listings idx,
  In r (observations env opts row nB nBr pt idx listings) ->
  exists n place, r = placeResult env opts row nB nBr pt n place.
Proof.
  intros listings. induction listings as [|p ps IH]; intros idx; [intros [] |].
  intros [<- | I]; [now exists idx, p | exact (IH _ I)].
Qed.

(** Every listing observation a run has pushed was built by the loop body
    for a row of the input and some listing. *)
Lemma forEachQuery_built fuel env opts :
  forall queryData s u s',
    forEachQuery fuel env opts queryData s = Returned u s' ->
    exists new,
      allResults s' = allResults s ++ new /\
      forall r, In r new -> isObservation r = true ->
        exists row point n place,
          In row queryData /\
          r = placeResult env opts row (normalizeBrandName env (Brand row))
                (normalizeBranchName env (Branch row)) point n place.
Proof.
  induction queryData as [|row rest IH]; intros s u s' H.
  - injection H as _ <-. exists []. rewrite app_nil_r. split; [reflexivity |].
    intros r [].
  - cbn [forEachQuery] in H. unfold bind, processQuery in H.
    destruct (gridPointsOf fuel env opts) as [gps|]; [| discriminate].
    destruct (matchQuery fuel env opts gps row s)
      as [u1 s1|e s1|] eqn:E; try discriminate.
    apply matchQuery_returned in E as [blocks [B [R1 _]]].
    apply IH in H as [new [R2 F2]].
    eexists. split; [rewrite R2, R1, <- !app_assoc; reflexivity |].
    intros r I O. apply in_app_or in I as [I | I].
    + clear R1. induction B as [|gp b gps blocks [places ->] _ IHB];
        [destruct I |].
      cbn [List.concat] in I. apply in_app_or in I as [I | I];
        [| exact (IHB I)].
      apply observations_In in I as [n [place ->]].
      exists row, gp, n, place. split; [now left | reflexivity].
    + apply in_app_or in I as [I | I].
      * destruct (existsb brand_match (List.concat blocks)); [destruct I |].
        destruct I as [<- | []]. discriminate.
      * destruct (F2 r I O) as [row' [pt [n [place [Ir ->]]]]].
        exists row', pt, n, place. split; [now right | reflexivity].
Qed.

(* ================================================================== *)
(** ** The properties of the specification *)

(** C2, as the code has it.  The record the loop body builds for a row
    and a listing carries the row's brand and branch and the listing's
    title, and its [brand_match] flag is true exactly when the title,
    lowercased and stripped of white space, contains the brand
    (lowercased, white space removed) as a substring and contains the
    branch, lowercased and with every character other than [a] to [z] and
    [0] to [9] removed, as a substring, wherever the two occur in the
    title.  Every listing observation among the records the handler
    returns is such a record, for a row of the input. *)
Theorem brand_match_iff_both_substrings
    fuel env opts queryData row point n place :
  let r := placeResult env opts row (normalizeBrandName env (Brand row))
             (normalizeBranchName env (Branch row)) point n place in
  (brand r = Brand row /\ branch r = Branch row /\
   title r = place_title place) /\
  MatchRule env row place (brand_match r) /\
  (forall r',
      In r' (allPlacesOf (processCsvStream fuel env opts queryData)) ->
      isObservation r' = true ->
      exists row' place',
        In row' queryData /\
        brand r' = Brand row' /\ branch r' = Branch row' /\
        title r' = place_title place' /\
        MatchRule env row' place' (brand_match r')).
Proof.
  cbv zeta. split; [repeat split |].
  split; [apply placeResult_MatchRule |].
  intros r' I O. unfold processCsvStream in I.
  destruct (forEachQuery fuel env opts queryData start) as [u s|e s|] eqn:E;
    try destruct I.
  apply forEachQuery_built in E as [new [R B]].
  cbn [allPlacesOf allResults start app] in *. rewrite R in I.
  destruct (B r' I O) as [row' [pt [m [place' [Ir ->]]]]].
  exists row', place'. split; [exact Ir |].
  split; [reflexivity |]. split; [reflexivity |]. split; [reflexivity |].
  apply placeResult_MatchRule.
Qed.

(** The property at work: the second listing of the example page matches
    "Bright Smile" / "London". *)
Lemma brand_match_iff_both_substrings_witness :
  exists row place,
    In row [brightSmile] /\
    title (nth 1 (allPlacesOf
                    (processCsvStream 2 (demoEnv alternating) plainOptions
                                      [brightSmile]))
               (brandNotFound brightSmile))
    = place_title place /\
    MatchRule (demoEnv alternating) row place true.
Proof.
  destruct (proj2 (proj2
    (brand_match_iff_both_substrings 2 (demoEnv alternating)
       plainOptions [brightSmile] brightSmile
       (mkSearchPoint None None) 1 (listing "Smile Hub")))
    (nth 1 (allPlacesOf
              (processCsvStream 2 (demoEnv alternating) plainOptions
                                [brightSmile]))
         (brandNotFound brightSmile)))
    as [row [place [I [_ [_ [T R]]]]]].
  - vm_compute. right. left. reflexivity.
  - vm_compute. reflexivity.
  - exists row, place. split; [exact I |]. split; [exact T | exact R].
Defined.

(** Order does not matter: the specification's own example. *)
Example belfast_property_people :
  brand_match
    (placeResult (demoEnv barren) plainOptions
       {| Keywords := "estate agent"; Brand := "Property People";
          Branch := "Belfast" |}
       (normalizeBrandName (demoEnv barren) "Property People")
       (normalizeBranchName (demoEnv barren) "Belfast")
       {| searchLat := None; searchLng := None |} 1
       (listing "Belfast Property People Ltd"))
  = true.
Proof. reflexivity. Qed.

(** C2, as stated, fails: read with "non-alphanumeric" for what the
    branch loses, the rule makes the listing "Caf\u00E9 Nero Orl\u00E9ans"
    a match of brand "Caf\u00E9 Nero" and branch "Orl\u00E9ans", both
    normalised names being substrings of the normalised title; the code
    drops the letter [\u00E9] from the branch, looks for "orlans" and
    finds no match.  This is so in every environment that lowercases the
    three strings as ECMAScript does. *)
Lemma brand_match_alphanumeric_counterexample :
  ~ exists env,
      toLowerCase env cafeNero = cafeNeroLower /\
      toLowerCase env orleans = orleansLower /\
      toLowerCase env (cafeNero ++ " " ++ orleans)
      = (cafeNeroLower ++ " " ++ orleansLower)%js /\
      MatchClaim env cafeRow cafeListing
        (brand_match
           (placeResult env plainOptions cafeRow
              (normalizeBrandName env (Brand cafeRow))
              (normalizeBranchName env (Branch cafeRow))
              (mkSearchPoint None None) 1 cafeListing)).
Proof.
  intros [env [B [Br [T [_ H]]]]].
  unfold spec_normalizeBrand, spec_normalizeBranch, spec_normalizeTitle,
    titleOf, normalizeBrandName, normalizeBranchName, placeResult in H.
  cbn [brand_match Brand Branch cafeRow cafeListing listing place_title] in H.
  rewrite B, Br, T in H.
  assert (false = true) as F; [| discriminate F].
  apply H. split.
  - exists "", ("orl" ++ String 0xE9 "ans")%js. reflexivity.
  - exists ("caf" ++ String 0xE9 "nero")%js, "". reflexivity.
Qed.

(** The example environment is one of them: there the flag is false. *)
Example cafe_nero_orleans :
  toLowerCase (demoEnv barren) cafeNero = cafeNeroLower /\
  toLowerCase (demoEnv barren) orleans = orleansLower /\
  toLowerCase (demoEnv barren) (cafeNero ++ " " ++ orleans)
  = (cafeNeroLower ++ " " ++ orleansLower)%js /\
  brand_match
    (placeResult (demoEnv barren) plainOptions cafeRow
       (normalizeBrandName (demoEnv barren) (Brand cafeRow))
       (normalizeBranchName (demoEnv barren) (Branch cafeRow))
       (mkSearchPoint None None) 1 cafeListing)
  = false.
Proof. repeat split. Qed.

(** C4.  A listing observation of rank [n] has [is_local_pack] true exactly
    when [n <= 3]; its [local_pack_position] is [n] when it is in the local
    pack and [null] otherwise: so for the record the loop body builds at
    any rank, and so for every record of numeric rank among those the
    handler returns. *)
Theorem local_pack_invariant
    fuel env opts queryData row nB nBr point n place :
  LocalPackRule (placeResult env opts row nB nBr point n place) n /\
  (forall r m,
      In r (allPlacesOf (processCsvStream fuel env opts queryData)) ->
      query_result_number r = Position m ->
      LocalPackRule r m).
Proof.
  split; [apply placeResult_LocalPackRule |].
  intros r m I Q.
  pose proof (processCsvStream_Emitted fuel env opts queryData) as F.
  rewrite Forall_forall in F.
  assert (isObservation r = true) as O by (unfold isObservation; now rewrite Q).
  destruct (Emitted_observation env r (F r I) O) as [o [pt [k [pl E]]]].
  pose proof (f_equal query_result_number E) as En.
  cbn [placeResult query_result_number] in En.
  rewrite Q in En. injection En as ->.
  pose proof (placeResult_LocalPackRule env o (rowOf r)
                (normalizeBrandName env (brand r)) (normalizeBranchName env (branch r))
                pt k pl) as R.
  now rewrite <- E in R.
Qed.

Lemma local_pack_invariant_witness :
  LocalPackRule
    (nth 3 (allPlacesOf
              (processCsvStream 2 (demoEnv alternating) plainOptions
                                [brightSmile]))
         (brandNotFound brightSmile))
    4.
Proof.
  apply (proj2 (local_pack_invariant 2 (demoEnv alternating) plainOptions
                  [brightSmile] brightSmile "" "" (mkSearchPoint None None) 1
                  (listing "Smile Hub"))).
  - vm_compute. do 3 right. left. reflexivity.
  - vm_compute. reflexivity.
Defined.

(** The specification's example: the matching listing at rank 2 is in the
    local pack at position 2, and no "Brand not found" record follows. *)
Example bright_smile_page :
  map (fun r => (query_result_number r, brand_match r, is_local_pack r,
                 local_pack_position r))
      (allPlacesOf (processCsvStream 2 (demoEnv alternating) plainOptions
                                     [brightSmile]))
  = [ (Position 1, false, Some true, Some 1);
      (Position 2, true, Some true, Some 2);
      (Position 3, false, Some true, Some 3);
      (Position 4, false, Some false, None);
      (Position 5, false, Some false, None) ].
Proof. vm_compute. reflexivity. Qed.

(** C10.  When the branch normalises to the empty string, the loop
    body's flag is the brand test alone; when the brand normalises to the
    empty string, the flag is the branch test alone; when both do, every
    listing is a brand match.  The branch normalises to the empty string
    exactly when its lowercased text holds none of [a] to [z] and [0] to
    [9], and the brand exactly when its lowercased text is white space
    only.  So the brand does when it consists of white space only, and
    the branch when it consists of ASCII punctuation only, lowercasing
    leaving such strings as they are. *)
Theorem empty_normalisation_matches_vacuously env opts row point n place :
  let r := placeResult env opts row (normalizeBrandName env (Brand row))
             (normalizeBranchName env (Branch row)) point n place in
  let normTitle := removeAll isWhitespace (toLowerCase env (titleOf place)) in
  (normalizeBranchName env (Branch row) = "" ->
   brand_match r = includes normTitle (normalizeBrandName env (Brand row))) /\
  (normalizeBrandName env (Brand row) = "" ->
   brand_match r = includes normTitle (normalizeBranchName env (Branch row))) /\
  (normalizeBrandName env (Brand row) = "" ->
   normalizeBranchName env (Branch row) = "" ->
   brand_match r = true) /\
  ((normalizeBranchName env (Branch row) = "" <->
    allChars notLowerAlnum (toLowerCase env (Branch row)) = true) /\
   (normalizeBrandName env (Brand row) = "" <->
    allChars isWhitespace (toLowerCase env (Brand row)) = true)) /\
  (KeepsCaseless (toLowerCase env) ->
   (allChars isWhitespace (Brand row) = true ->
    normalizeBrandName env (Brand row) = "") /\
   (allChars isPunctuation (Branch row) = true ->
    normalizeBranchName env (Branch row) = "")).
Proof.
  cbv zeta. unfold titleOf. cbn [placeResult brand_match].
  split; [| split; [| split; [| split]]].
  - intros ->. now rewrite includes_empty, andb_true_r.
  - intros ->. now rewrite includes_empty.
  - intros -> ->. now rewrite includes_empty.
  - split; apply removeAll_empty.
  - intros K. split; intros H.
    + unfold normalizeBrandName. rewrite K.
      * now apply removeAll_all.
      * revert H. apply allChars_impl. intros c W. unfold caseless.
        now rewrite W.
    + unfold normalizeBranchName. rewrite K.
      * apply removeAll_all. revert H. apply allChars_impl.
        intros c P. unfold isPunctuation in P. unfold notLowerAlnum,
          isLowerLetter, isDigit.
        apply andb_prop in P as [_ P]. apply negb_true_iff in P.
        apply orb_false_iff in P as [P D]. apply orb_false_iff in P as [_ L].
        now rewrite L, D.
      * revert H. apply allChars_impl. intros c P. unfold caseless.
        unfold isPunctuation in P. apply andb_prop in P as [A P].
        rewrite A. apply negb_true_iff in P.
        apply orb_false_iff in P as [P _]. apply orb_false_iff in P as [U _].
        rewrite U. apply orb_true_r.
Qed.

(** A branch of punctuation only: the flag is the brand test. *)
Lemma empty_normalisation_matches_vacuously_witness :
  brand_match
    (placeResult (demoEnv barren) plainOptions
       {| Keywords := "dentist"; Brand := "Bright Smile"; Branch := "-- / --" |}
       (normalizeBrandName (demoEnv barren) "Bright Smile")
       (normalizeBranchName (demoEnv barren) "-- / --")
       {| searchLat := None; searchLng := None |} 1
       (listing "Bright Smile Leeds"))
  = includes "brightsmileleeds" "brightsmile".
Proof.
  apply (proj1
    (empty_normalisation_matches_vacuously (demoEnv barren) plainOptions
       {| Keywords := "dentist"; Brand := "Bright Smile"; Branch := "-- / --" |}
       {| searchLat := None; searchLng := None |} 1
       (listing "Bright Smile Leeds"))).
  apply (proj2 (proj2 (proj2 (proj2 (proj2
    (empty_normalisation_matches_vacuously (demoEnv barren) plainOptions
       {| Keywords := "dentist"; Brand := "Bright Smile"; Branch := "-- / --" |}
       {| searchLat := None; searchLng := None |} 1
       (listing "Bright Smile Leeds")))))
    latin1LowerCase_KeepsCaseless)).
  reflexivity.
Defined.

(** A brand of no-break and em spaces normalises to the empty string. *)
Example spaces_only_brand :
  normalizeBrandName (demoEnv barren) (String 0xA0 (String 0x2003 " ")) = "".
Proof. reflexivity. Qed.

(** C5.  Whether one grid point's loop ends normally or by a throw, the
    records it has pushed are the listings of the pages it fetched, in
    order, and their rank positions are 1, 2, 3, ...: the counter runs on
    over the page boundaries. *)
Theorem ranks_within_grid_point fuel env opts row nB nBr found gp s s' :
  (exists found', searchGridPoint fuel env opts row nB nBr found gp s
                  = Returned found' s') \/
  (exists e, searchGridPoint fuel env opts row nB nBr found gp s = Threw e s') ->
  exists pages obs,
    allResults s' = allResults s ++ obs /\
    map title obs = map place_title (List.concat pages) /\
    map query_result_number obs = map Position (seq 1 (List.length obs)) /\
    ranks obs = seq 1 (List.length obs).
Proof.
  unfold searchGridPoint.
  intros [[found' H] | [e H]].
  - apply whileTrue_returned in H as [pages [R _]].
    exists pages, (observations env opts row nB nBr gp 1 (List.concat pages)).
    rewrite observations_titles, observations_ranks, observations_ranks_seq,
      observations_length. auto.
  - apply whileTrue_threw in H as [pages [R _]].
    exists pages, (observations env opts row nB nBr gp 1 (List.concat pages)).
    rewrite observations_titles, observations_ranks, observations_ranks_seq,
      observations_length. auto.
Qed.

Lemma ranks_within_grid_point_witness :
  exists pages obs,
    obs <> [] /\
    map title obs = map place_title (List.concat pages) /\
    map query_result_number obs = map Position (seq 1 (List.length obs)) /\
    ranks obs = seq 1 (List.length obs).
Proof.
  destruct (ranks_within_grid_point 2 (demoEnv alternating) plainOptions
              brightSmile "brightsmile" "london"
              (mkFound false false false) (mkSearchPoint None None) start
              (mkState
                 (observations (demoEnv alternating) plainOptions brightSmile
                    "brightsmile" "london"
                    (mkSearchPoint None None) 1 firstPage)
                 2
                 (fetched (mkSearchPoint None None) 1 2)
                 [ requestOf "secret" "dentist london" "gb" "en" 1 "desktop"
                     None None;
                   requestOf "secret" "dentist london" "gb" "en" 2 "desktop"
                     None None ]))
    as [pages [obs [R H]]].
  - left. exists (mkFound true true true). vm_compute. reflexivity.
  - exists pages, obs. split; [| exact H].
    simpl in R. rewrite <- R. discriminate.
Defined.

(** C1, as the code has it.  The rank counter is reset at every grid point:
    a query that ends normally has pushed one block of listing
    observations per grid point, each tagged with its grid point's
    coordinates and each numbered 1, 2, 3, ... from its own first record,
    followed by the "Brand not found" record if none matched. *)
Theorem rank_counter_restarts_at_each_grid_point
    fuel env opts gridPoints row s s' :
  matchQuery fuel env opts gridPoints row s = Returned tt s' ->
  exists blocks,
    allResults s'
    = allResults s ++ List.concat blocks
      ++ (if existsb brand_match (List.concat blocks) then []
          else [brandNotFound row]) /\
    Forall2
      (fun gridPoint b =>
         Forall (fun r => isObservation r = true /\
                          search_latitude r = searchLat gridPoint /\
                          search_longitude r = searchLng gridPoint) b /\
         ranks b = seq 1 (List.length b))
      gridPoints blocks.
Proof.
  intros H. apply matchQuery_returned in H as [blocks [B [R _]]].
  exists blocks. split; [exact R |]. clear R.
  induction B as [|gp b gps blocks [places ->] _ IH]; [constructor |].
  constructor; [| exact IH].
  split; [apply observations_point |].
  now rewrite observations_ranks_seq, observations_length.
Qed.

(** Four grid points with one page of five listings each: the ranks run
    1..5 four times over. *)
Example grid_run_ranks :
  ranks (allPlacesOf (processCsvStream 2 (demoEnv alternating) gridOptions
                                       [brightSmile]))
  = [1; 2; 3; 4; 5; 1; 2; 3; 4; 5; 1; 2; 3; 4; 5; 1; 2; 3; 4; 5].
Proof. vm_compute. reflexivity. Qed.

(** C1, as stated, fails: with the geo-grid on, the rank positions of a
    query's observations do not increase across grid points, not even
    weakly: the fifth has rank 5 and the sixth, the first of the second grid
    point, has rank 1. *)
Lemma rank_counter_continues_counterexample :
  ~ NonDecreasing
      (ranks (allPlacesOf (processCsvStream 2 (demoEnv alternating) gridOptions
                                            [brightSmile]))).
Proof.
  rewrite grid_run_ranks. intros H.
  specialize (H 4 5 5 1 ltac:(lia) eq_refl eq_refl). lia.
Qed.

Lemma rank_counter_restarts_at_each_grid_point_witness :
  exists blocks,
    List.length blocks = 4 /\
    Forall (fun b => ranks b = seq 1 (List.length b)) blocks.
Proof.
  destruct (forEachQuery 2 (demoEnv alternating) gridOptions [brightSmile] start)
    as [u s'|e s'|] eqn:E; [| vm_compute in E; discriminate ..].
  assert (matchQuery 2 (demoEnv alternating) gridOptions
            (gridPoints 2 (demoEnv alternating) gridOptions) brightSmile start
          = Returned tt s') as Q.
  { revert E. cbn [forEachQuery]. unfold bind, processQuery, gridPoints.
    destruct (gridPointsOf 2 (demoEnv alternating) gridOptions) as [gps|];
      [| discriminate].
    destruct (matchQuery _ _ _ _ _ start) as [[] s1|e s1|];
      [| discriminate ..].
    intros E. injection E as _ <-. reflexivity. }
  destruct (rank_counter_restarts_at_each_grid_point _ _ _ _ _ _ _ Q)
    as [blocks [_ B]].
  exists blocks. split.
  - apply Forall2_length in B. rewrite <- B. vm_compute. reflexivity.
  - clear Q E. induction B as [|gp b gps bs [_ Hb] _ IH]; constructor; auto.
Defined.

(** C3.  A query that ends normally has pushed its listing observations
    and then exactly one "Brand not found" record if none of them is a
    brand match, and no such record if one is, whatever the number of grid
    points.  That record has the title "Brand not found", no brand match
    and ['N/A'] for a rank.  In particular, with a key configured and an
    upstream that has no places at any grid point, the query ends after one
    fetch per grid point with that one record and no observation.  A query
    always ends when the upstream does not serve non-empty pages for
    ever. *)
Theorem exactly_one_not_found_record fuel env opts gridPoints row s :
  (forall s',
      matchQuery fuel env opts gridPoints row s = Returned tt s' ->
      exists obs,
        Forall (fun r => isObservation r = true) obs /\
        allResults s'
        = allResults s ++ obs
          ++ (if existsb brand_match obs then [] else [brandNotFound row])) /\
  (title (brandNotFound row) = Some "Brand not found" /\
   brand_match (brandNotFound row) = false /\
   query_result_number (brandNotFound row) = NotAvailable /\
   isObservation (brandNotFound row) = false) /\
  (configured env = true ->
   (forall i request, i < List.length gridPoints ->
      emptyPage (upstream env (List.length (wire s) + i) request) = true) ->
   exists s',
     matchQuery (S fuel) env opts gridPoints row s = Returned tt s' /\
     allResults s' = allResults s ++ [brandNotFound row]) /\
  (Exhausts env ->
   exists fuel', matchQuery fuel' env opts gridPoints row s <> OutOfFuel).
Proof.
  split; [| split; [| split]].
  - intros s' H. apply matchQuery_returned in H as [blocks [B [R _]]].
    exists (List.concat blocks). split; [| exact R].
    clear R. induction B as [|gp b gps blocks [places ->] _ IH]; simpl.
    + constructor.
    + apply Forall_app. split; [| exact IH].
      eapply Forall_impl; [| apply observations_point]. now intros r [O _].
  - repeat split.
  - intros K E. unfold matchQuery, bind.
    destruct (forEachGridPoint_barren fuel env opts row
                (normalizeBrandName env (Brand row))
                (normalizeBranchName env (Branch row)) K gridPoints
                (mkFound false false false) s E) as [s1 [-> [R _]]].
    simpl. eexists. split; [reflexivity |].
    simpl. now rewrite R.
  - intros X. apply (matchQuery_Halts env opts gridPoints row X s).
Qed.

(** Four grid points and an upstream without places: one record. *)
Lemma exactly_one_not_found_record_witness :
  exists s',
    matchQuery 1 (demoEnv barren) gridOptions
      (gridPoints 2 (demoEnv barren) gridOptions) brightSmile start
    = Returned tt s' /\
    allResults s' = [brandNotFound brightSmile].
Proof.
  apply (proj1 (proj2 (proj2
    (exactly_one_not_found_record 0 (demoEnv barren) gridOptions
       (gridPoints 2 (demoEnv barren) gridOptions) brightSmile start)))).
  - reflexivity.
  - intros i request _. reflexivity.
Defined.

(** The specification's example: listings on every page and none that
    matches give exactly one "Brand not found" record, after them. *)
Example no_match_on_any_page :
  map title
    (allPlacesOf
       (processCsvStream 2 (demoEnv alternating) plainOptions
          [ {| Keywords := "dentist london"; Brand := "Bright Smile";
               Branch := "Leeds" |} ]))
  = [ Some "Smile Hub"; Some "Bright Smile Dental London"; Some "City Dental";
      Some "Dental Care"; Some "Tooth Fairy"; Some "Brand not found" ].
Proof. vm_compute. reflexivity. Qed.

(** C8.  When the handler completes, the [apiCallsMade] it reports is the
    number of calls of the fetcher during the run, all of which succeeded
    and each of which sent one request upstream; the fetch of the empty
    page that ends a grid point's pagination is one of them. *)
Theorem api_calls_counted fuel env opts queryData
    allPlaces brandMatches queriesProcessed placesFound apiCallsMade :
  processCsvStream fuel env opts queryData
  = Complete allPlaces brandMatches queriesProcessed placesFound apiCallsMade ->
  exists s',
    forEachQuery fuel env opts queryData start = Returned tt s' /\
    apiCallsMade = List.length (calls s') /\
    apiCallsMade = List.length (wire s') /\
    Forall succeeded (calls s').
Proof.
  unfold processCsvStream.
  destruct (forEachQuery fuel env opts queryData start) as [[] s'|e s'|] eqn:E;
    try discriminate.
  intros H. injection H as _ _ _ _ <-.
  apply forEachQuery_returned in E as [_ [_ [_ [cs [C [F [T W]]]]]]].
  simpl in C, T, W. exists s'. rewrite C, W, T. auto.
Qed.

(** Two queries over four grid points, each with one page of listings and
    the empty page that ends it: sixteen fetches. *)
Lemma api_calls_counted_witness :
  exists s',
    forEachQuery 2 (demoEnv alternating) gridOptions [brightSmile; brightSmile]
      start = Returned tt s' /\
    16 = List.length (calls s') /\
    16 = List.length (wire s') /\
    Forall succeeded (calls s').
Proof.
  apply (api_calls_counted 2 (demoEnv alternating) gridOptions
           [brightSmile; brightSmile]
           (allPlacesOf (processCsvStream 2 (demoEnv alternating) gridOptions
                           [brightSmile; brightSmile]))
           (filter brand_match
              (allPlacesOf (processCsvStream 2 (demoEnv alternating) gridOptions
                              [brightSmile; brightSmile])))
           2 40 16).
  vm_compute. reflexivity.
Defined.

(** C9.  The fetcher throws the configuration error exactly when no key is
    configured, and then no request has been sent; it throws the upstream
    error exactly when a key is configured and the answer to its request
    has a status outside 200-299, and the error carries that status and
    reason phrase.  A run that throws does so from a call of the fetcher,
    in the state that call left: the failed call is the last one, all
    calls before it succeeded, and the handler answers with the error's
    message and no results.  A run that ends normally had no failed
    call. *)
Theorem fetch_failures_end_the_run
    fuel env opts queryData query gl hl page dev lat lng s :
  (configured env = false <->
   exists s', searchSerperPlaces env query gl hl page dev lat lng s
              = Threw ConfigurationError s') /\
  (forall s', searchSerperPlaces env query gl hl page dev lat lng s
              = Threw ConfigurationError s' -> wire s' = wire s) /\
  (forall st txt,
      (exists s', searchSerperPlaces env query gl hl page dev lat lng s
                  = Threw (UpstreamError st txt) s') <->
      (exists apiKey,
          SERPER_API_KEY env = Some apiKey /\ apiKey <> "" /\
          let response :=
            upstream env (List.length (wire s))
                     (requestOf apiKey query gl hl page dev lat lng) in
          ok response = false /\
          status response = st /\ statusText response = txt)) /\
  (forall st txt,
      message (UpstreamError st txt)
      = ("Serper API error: " ++ decimal st ++ " " ++ txt)%js) /\
  (forall e s',
      forEachQuery fuel env opts queryData s = Threw e s' ->
      Failed e s s' /\ ThrownByFetch env e s') /\
  (forall e s',
      forEachQuery fuel env opts queryData start = Threw e s' ->
      processCsvStream fuel env opts queryData = ErrorEvent (message e)) /\
  (forall s',
      forEachQuery fuel env opts queryData s = Returned tt s' -> Clean s s').
Proof.
  repeat match goal with |- _ /\ _ => split end.
  - destruct (configured env) eqn:K.
    + split; [discriminate |]. intros [s' H].
      destruct (searchSerperPlaces_configured env query gl hl page dev lat lng
                  s K) as [apiKey [_ E]].
      cbv zeta in E. rewrite E in H. destruct (ok _); discriminate.
    + split; [intros _ | reflexivity].
      eexists. now apply searchSerperPlaces_unconfigured.
  - intros s' H. destruct (configured env) eqn:K.
    + destruct (searchSerperPlaces_configured env query gl hl page dev lat lng
                  s K) as [apiKey [_ E]].
      cbv zeta in E. rewrite E in H. destruct (ok _); discriminate.
    + rewrite searchSerperPlaces_unconfigured in H by exact K.
      now injection H as <-.
  - intros st txt. split.
    + intros [s' H]. destruct (configured env) eqn:K.
      * destruct (searchSerperPlaces_configured env query gl hl page dev lat
                    lng s K) as [apiKey [A E]].
        cbv zeta in E. rewrite E in H. exists apiKey. split; [exact A |].
        split.
        { unfold configured in K. rewrite A in K. now destruct apiKey. }
        cbv zeta. destruct (ok _); [discriminate |].
        injection H as <- <- _. auto.
      * rewrite searchSerperPlaces_unconfigured in H by exact K. discriminate.
    + intros [apiKey [A [N H]]]. cbv zeta in H. destruct H as [O [<- <-]].
      assert (configured env = true) as K.
      { unfold configured. rewrite A. destruct apiKey; [now contradiction N | reflexivity]. }
      destruct (searchSerperPlaces_configured env query gl hl page dev lat lng
                  s K) as [apiKey' [A' E]].
      rewrite A in A'. injection A' as <-.
      cbv zeta in E. rewrite O in E. eexists. exact E.
  - reflexivity.
  - intros e s'. apply forEachQuery_threw.
  - intros e s' H. unfold processCsvStream. rewrite H.
    destruct e; reflexivity.
  - intros s' H. now apply forEachQuery_returned in H as [new [_ [_ K]]].
Qed.

(** The upstream answers the third request with a 500: the handler reports
    that error, and three calls were made, the last of which failed. *)
Lemma fetch_failures_end_the_run_witness :
  processCsvStream 2 (demoEnv breaking) gridOptions [brightSmile; brightSmile]
  = ErrorEvent "Serper API error: 500 Internal Server Error".
Proof.
  destruct (forEachQuery 2 (demoEnv breaking) gridOptions
              [brightSmile; brightSmile] start) as [u s'|e s'|] eqn:E;
    [vm_compute in E; discriminate | | vm_compute in E; discriminate].
  assert (e = UpstreamError 500 "Internal Server Error") as ->.
  { vm_compute in E. now injection E as <-. }
  apply (proj1 (proj2 (proj2 (proj2 (proj2 (proj2
    (fetch_failures_end_the_run 2 (demoEnv breaking) gridOptions
       [brightSmile; brightSmile] "" "" "" 0 "" None None start))))))
    (UpstreamError 500 "Internal Server Error") s' E).
Defined.

Example breaking_run_calls :
  match forEachQuery 2 (demoEnv breaking) gridOptions
          [brightSmile; brightSmile] start with
  | Threw e s' =>
      (map call_page (calls s'), map call_error (calls s'),
       totalApiCalls s', List.length (wire s'), List.length (allResults s'))
  | _ => ([], [], 0, 0, 0)
  end
  = ([1; 2; 1],
     [None; None; Some (UpstreamError 500 "Internal Server Error")],
     2, 3, 5).
Proof. vm_compute. reflexivity. Qed.

(** Without a key, the first call fails and nothing is sent. *)
Example no_key_run :
  processCsvStream 2 noKeyEnv plainOptions [brightSmile]
  = ErrorEvent "SERPER_API_KEY not configured".
Proof. vm_compute. reflexivity. Qed.

(** C6, as the code has it.  For [gridSize >= 2] the grid has
    [gridSize * gridSize] points; when the latitude and longitude steps are
    finite numbers, the first point is the south-west corner
    [(centerLat - radiusKm / kmPerDegreeLat,
      centerLng - radiusKm / kmPerDegreeLng)], a negative zero coming out as
    the positive one. *)
Theorem grid_size_and_first_point cos centerLat centerLng radiusKm gridSize :
  2 <= gridSize ->
  List.length (generateGeoGrid cos centerLat centerLng radiusKm gridSize)
  = gridSize * gridSize /\
  (PrimFloat.is_finite (latStep radiusKm gridSize) = true ->
   PrimFloat.is_finite (lngStep cos centerLat radiusKm gridSize) = true ->
   exists p,
     hd_error (generateGeoGrid cos centerLat centerLng radiusKm gridSize)
     = Some p /\
     samePoint p (southWestCorner cos centerLat centerLng radiusKm)).
Proof.
  intros G. split; [apply generateGeoGrid_length |].
  intros Flat Flng.
  exists (gridPointAt cos centerLat centerLng radiusKm gridSize 0 0).
  split; [apply generateGeoGrid_first; lia |].
  split; simpl; now apply add_zero_times.
Qed.

Lemma grid_size_and_first_point_witness :
  List.length (generateGeoGrid cosSeries 51.5 (-0.12) 5 2) = 4 /\
  exists p,
    hd_error (generateGeoGrid cosSeries 51.5 (-0.12) 5 2) = Some p /\
    samePoint p (southWestCorner cosSeries 51.5 (-0.12) 5).
Proof.
  destruct (grid_size_and_first_point cosSeries 51.5 (-0.12) 5 2
              ltac:(lia)) as [L P].
  split; [exact L |].
  apply P; vm_compute; reflexivity.
Defined.

(** C6, as stated, fails: a radius so large that doubling it overflows
    makes the steps infinite and the first point's latitude [NaN], whatever
    the cosine. *)
Lemma grid_first_point_counterexample :
  ~ exists cos, GridClaim cos 0 0 1e308 2.
Proof.
  intros [cos [_ H]].
  apply (f_equal (option_map (fun p => PrimFloat.is_nan (lat p)))) in H.
  vm_compute in H. discriminate.
Qed.

(** The hypothesis [gridSize >= 2] matters for the first point: a grid of
    one divides by zero and its only point is [NaN]. *)
Example grid_of_one :
  map lat (generateGeoGrid cosSeries 51.5 (-0.12) 5 1) = [nan].
Proof. vm_compute. reflexivity. Qed.

(** C7, as the code has it.  The sequence starts at the south-west corner
    and runs east first, then north: the point at position
    [i * gridSize + j] lies [i] latitude steps north and [j] longitude
    steps east of the corner, so that consecutive points of a row have the
    same latitude and the latitude advances only after a full row of
    [gridSize] longitudes. *)
Theorem grid_runs_east_then_north
    cos centerLat centerLng radiusKm gridSize i j :
  i < gridSize -> j < gridSize ->
  nth_error (generateGeoGrid cos centerLat centerLng radiusKm gridSize)
            (i * gridSize + j)
  = Some {| lat := (centerLat - radiusKm / kmPerDegreeLat
                    + number i * latStep radiusKm gridSize)%float;
            lng := (centerLng - radiusKm / kmPerDegreeLng cos centerLat
                    + number j * lngStep cos centerLat radiusKm gridSize)%float |}
  /\
  (S j < gridSize ->
   exists p q,
     nth_error (generateGeoGrid cos centerLat centerLng radiusKm gridSize)
               (i * gridSize + j) = Some p /\
     nth_error (generateGeoGrid cos centerLat centerLng radiusKm gridSize)
               (i * gridSize + j + 1) = Some q /\
     lat q = lat p).
Proof.
  intros Hi Hj. split; [now apply generateGeoGrid_nth |].
  intros Hj'.
  exists (gridPointAt cos centerLat centerLng radiusKm gridSize i j),
    (gridPointAt cos centerLat centerLng radiusKm gridSize i (S j)).
  repeat split.
  - now apply generateGeoGrid_nth.
  - replace (i * gridSize + j + 1) with (i * gridSize + S j) by lia.
    now apply generateGeoGrid_nth.
Qed.

Lemma grid_runs_east_then_north_witness :
  nth_error (generateGeoGrid cosSeries 51.5 (-0.12) 5 2) (0 * 2 + 1)
  = Some {| lat := (51.5 - 5 / kmPerDegreeLat + number 0 * latStep 5 2)%float;
            lng := (-0.12 - 5 / kmPerDegreeLng cosSeries 51.5
                    + number 1 * lngStep cosSeries 51.5 5 2)%float |}.
Proof.
  exact (proj1 (grid_runs_east_then_north cosSeries 51.5 (-0.12) 5 2 0 1
                  ltac:(lia) ltac:(lia))).
Defined.

(** C7, as stated, fails: in the grid of the example the second point of
    the sequence lies one step east of the corner, not one step north. *)
Lemma grid_north_then_east_counterexample :
  ~ exists cos, NorthThenEast cos 51.5 (-0.12) 5 2.
Proof.
  intros [cos H]. specialize (H 1 ltac:(simpl; lia)).
  apply (f_equal (option_map (fun p => Prim2SF (lat p)))) in H.
  vm_compute in H. discriminate.
Qed.

Example grid_of_four :
  map lat (generateGeoGrid cosSeries 51.5 (-0.12) 5 2)
  = [ 51.455084441250449; 51.455084441250449;
      51.544915558749551; 51.544915558749551 ]%float.
Proof. vm_compute. reflexivity. Qed.

(* ================================================================== *)
(** ** Further properties of the run *)

Lemma gridPointCount_Some fuel env opts points :
  gridPointsOf fuel env opts = Some points ->
  gridPointCount fuel env opts = List.length points.
Proof. intros H. unfold gridPointCount, gridPoints. now rewrite H. Qed.

Lemma gridPointsOf_count fuel env opts points :
  gridPointsOf fuel env opts = Some points ->
  match geoGridEnabled opts, geoGridConfig opts with
  | true, Some cfg =>
      exists k, rounds fuel (orElse (gridSize cfg) 3) = Some k /\
                List.length points = k * k
  | _, _ => points = [ {| searchLat := None; searchLng := None |} ]
  end.
Proof.
  unfold gridPointsOf, generateGeoGridOf, rounds.
  destruct (geoGridEnabled opts); [| now intros [= <-]].
  destruct (geoGridConfig opts) as [cfg|]; [| now intros [= <-]].
  destruct (counting fuel 0 _) as [counters|]; [| discriminate].
  intros [= <-]. exists (List.length counters). split; [reflexivity |].
  rewrite length_map.
  assert (forall (A B : Type) (f : A -> A -> B) (inner outer : list A),
             List.length (flat_map (fun i => map (f i) inner) outer)
             = List.length outer * List.length inner) as L.
  { intros A B f inner outer.
    induction outer as [|i outer IH]; cbn [flat_map List.length];
      [reflexivity |].
    rewrite length_app, length_map, IH. reflexivity. }
  apply L.
Qed.

Lemma whileTrue_wire fuel env opts row nB nBr pt apiKey :
  SERPER_API_KEY env = Some apiKey ->
  forall page idx found s found' s',
    whileTrue fuel env opts row nB nBr pt page idx found s = Returned found' s' ->
    exists k,
      wire s' = wire s ++ pageRequests apiKey opts row pt page (S k) /\
      calls s' = calls s ++ fetched pt page (S k).
Proof.
  intros A. induction fuel as [|fuel IH]; intros page idx found s found' s' H;
    [discriminate |].
  rewrite whileTrue_step in H.
  destruct (configured env) eqn:K.
  2:{ rewrite searchSerperPlaces_unconfigured in H by exact K. discriminate. }
  destruct (searchSerperPlaces_configured env (Keywords row) (opt_gl opts)
              (opt_hl opts) page (deviceType opts) (searchLat pt)
              (searchLng pt) s K) as [apiKey' [A' E]].
  rewrite A in A'. injection A' as <-.
  cbv zeta in E. rewrite E in H. clear E.
  destruct (ok _); [| discriminate].
  destruct (places _) as [[|p ps]|].
  - injection H as _ <-. exists 0. split; reflexivity.
  - cbv zeta in H. apply IH in H as [k [W C]]. exists (S k).
    rewrite W, C. simpl wire. simpl calls.
    rewrite <- !app_assoc. split; reflexivity.
  - injection H as _ <-. exists 0. split; reflexivity.
Qed.

(** X1.  The requests one grid point's loop has sent when it ends normally
    are those for the pages 1, 2, ..., k + 1 in this order, each with the
    row's keywords, the run's locale and device and the key, and each
    carrying the grid point's coordinates (none when either is
    undefined); the history of calls lists the same pages. *)
Theorem grid_point_requests fuel env opts row nB nBr found gp apiKey s found' s' :
  SERPER_API_KEY env = Some apiKey ->
  searchGridPoint fuel env opts row nB nBr found gp s = Returned found' s' ->
  exists k,
    wire s' = wire s ++ pageRequests apiKey opts row gp 1 (S k) /\
    map call_page (skipn (List.length (calls s)) (calls s')) = seq 1 (S k) /\
    Forall (fun request =>
              X_API_KEY request = apiKey /\
              q (body request) = Keywords row /\
              ll (body request)
              = match searchLat gp, searchLng gp with
                | Some a, Some b => Some (a, b)
                | _, _ => None
                end)
           (skipn (List.length (wire s)) (wire s')).
Proof.
  intros A H. unfold searchGridPoint in H.
  destruct (whileTrue_wire _ _ _ _ _ _ _ _ A _ _ _ _ _ _ H) as [k [W C]].
  exists k. split; [exact W |]. split.
  - rewrite C, skipn_app, skipn_all, Nat.sub_diag. simpl skipn.
    rewrite app_nil_l. unfold fetched. rewrite map_map. simpl.
    now rewrite map_id.
  - rewrite W, skipn_app, skipn_all, Nat.sub_diag. simpl skipn.
    rewrite app_nil_l. unfold pageRequests. apply Forall_forall. intros request I.
    apply in_map_iff in I as [pg [<- _]]. repeat split.
Qed.

Lemma grid_point_requests_witness :
  exists k s',
    wire s' = pageRequests "secret" plainOptions brightSmile
                (mkSearchPoint None None) 1 (S k) /\
    map call_page (calls s') = seq 1 (S k).
Proof.
  destruct (searchGridPoint 2 (demoEnv alternating) plainOptions brightSmile
              "brightsmile" "london" (mkFound false false false)
              (mkSearchPoint None None) start) as [found' s'|e s'|] eqn:E;
    [| vm_compute in E; discriminate ..].
  destruct (grid_point_requests 2 (demoEnv alternating) plainOptions
              brightSmile "brightsmile" "london" (mkFound false false false)
              (mkSearchPoint None None) "secret" start found' s'
              eq_refl E) as [k [W [C _]]].
  exists k, s'. split; [exact W | exact C].
Defined.

Lemma forEachGridPoint_calls fuel env opts row nB nBr :
  forall gps found s found' s',
    forEachGridPoint fuel env opts row nB nBr gps found s = Returned found' s' ->
    totalApiCalls s + List.length gps <= totalApiCalls s'.
Proof.
  induction gps as [|gp gps IH]; intros found s found' s' H.
  - injection H as _ <-. simpl. lia.
  - cbn [forEachGridPoint] in H. unfold bind, searchGridPoint in H.
    destruct (whileTrue fuel env opts row nB nBr gp 1 1 found s)
      as [found1 s1|e s1|] eqn:E; try discriminate.
    apply whileTrue_returned in E as [pages [_ [_ [_ [T _]]]]].
    apply IH in H. simpl. lia.
Qed.

Lemma forEachQuery_calls fuel env opts :
  forall queryData s u s',
    forEachQuery fuel env opts queryData s = Returned u s' ->
    totalApiCalls s + List.length queryData * gridPointCount fuel env opts
    <= totalApiCalls s'.
Proof.
  induction queryData as [|row rest IH]; intros s u s' H.
  - injection H as _ <-. simpl. lia.
  - cbn [forEachQuery] in H. unfold bind, processQuery in H.
    destruct (gridPointsOf fuel env opts) as [gps|] eqn:G; [| discriminate].
    unfold matchQuery, bind in H.
    destruct (forEachGridPoint fuel env opts row _ _ gps _ s)
      as [found s1|e s1|] eqn:E; try discriminate.
    apply forEachGridPoint_calls in E.
    rewrite <- (gridPointCount_Some _ _ _ _ G) in E.
    assert (forall m : M unit, forall s2 u2,
               m = push (brandNotFound row) \/ m = ret tt ->
               m s1 = Returned u2 s2 -> totalApiCalls s2 = totalApiCalls s1)
      as P.
    { intros m s2 u2 [-> | ->] R; injection R as _ <-; reflexivity. }
    destruct (negb (foundBrandMatch found)).
    + destruct (push (brandNotFound row) s1) as [u2 s2|e s2|] eqn:R;
        try discriminate.
      apply (P _ _ _ (or_introl eq_refl)) in R. apply IH in H. simpl. lia.
    + destruct (ret tt s1) as [u2 s2|e s2|] eqn:R; try discriminate.
      apply (P _ _ _ (or_intror eq_refl)) in R. apply IH in H. simpl. lia.
Qed.

(** X2.  A run that completes has cost at least one fetch per query and
    grid point: [apiCallsMade >= queriesProcessed * G], where [G] is the
    number of grid points of a query.  Without the geo-grid [G] is 1; with
    it [G] is the square of the number of rounds of
    [for (let i = 0; i < gridSize; i++)], which is none for a negative
    size, [gridSize || 3] standing for a missing or zero size. *)
Theorem api_calls_lower_bound fuel env opts queryData
    allPlaces brandMatches queriesProcessed placesFound apiCallsMade :
  processCsvStream fuel env opts queryData
  = Complete allPlaces brandMatches queriesProcessed placesFound apiCallsMade ->
  queriesProcessed = List.length queryData /\
  queriesProcessed * gridPointCount fuel env opts <= apiCallsMade /\
  (queryData <> [] ->
   exists points, gridPointsOf fuel env opts = Some points) /\
  match geoGridEnabled opts, geoGridConfig opts with
  | true, Some cfg =>
      queryData <> [] ->
      exists k, rounds fuel (orElse (gridSize cfg) 3) = Some k /\
                gridPointCount fuel env opts = k * k
  | _, _ => gridPointCount fuel env opts = 1
  end.
Proof.
  unfold processCsvStream.
  destruct (forEachQuery fuel env opts queryData start) as [[] s'|e s'|] eqn:E;
    try discriminate.
  intros H. injection H as _ _ <- _ <-.
  pose proof (forEachQuery_calls _ _ _ _ _ _ _ E) as C. simpl in C.
  split; [reflexivity |]. split; [exact C |].
  assert (queryData <> [] ->
          exists points, gridPointsOf fuel env opts = Some points) as P.
  { destruct queryData as [|row rest]; [intros N; now contradiction N |].
    intros _. cbn [forEachQuery] in E. unfold bind, processQuery in E.
    destruct (gridPointsOf fuel env opts) as [gps|]; [| discriminate].
    now exists gps. }
  split; [exact P |].
  destruct (geoGridEnabled opts) eqn:Ge;
    [destruct (geoGridConfig opts) as [cfg|] eqn:Gc |].
  - intros N. destruct (P N) as [points G].
    rewrite (gridPointCount_Some _ _ _ _ G).
    apply gridPointsOf_count in G. now rewrite Ge, Gc in G.
  - unfold gridPointCount, gridPoints, gridPointsOf. now rewrite Ge, Gc.
  - unfold gridPointCount, gridPoints, gridPointsOf. now rewrite Ge.
Qed.

Lemma api_calls_lower_bound_witness :
  2 = List.length [brightSmile; brightSmile] /\
  2 * gridPointCount 2 (demoEnv alternating) gridOptions <= 16 /\
  gridPointCount 2 (demoEnv alternating) gridOptions = 4.
Proof.
  destruct (api_calls_lower_bound 2 (demoEnv alternating) gridOptions
              [brightSmile; brightSmile]
              (allPlacesOf (processCsvStream 2 (demoEnv alternating)
                              gridOptions [brightSmile; brightSmile]))
              (filter brand_match
                 (allPlacesOf (processCsvStream 2 (demoEnv alternating)
                                 gridOptions [brightSmile; brightSmile])))
              2 40 16) as [Q [B _]].
  - vm_compute. reflexivity.
  - split; [exact Q |]. split; [exact B | vm_compute; reflexivity].
Defined.

(** A negative grid size: the loops of the grid make no round, the query
    is searched nowhere and the run completes without a fetch. *)
Example negative_grid_size :
  let opts := {| opt_gl := "gb"; opt_hl := "en"; deviceType := "desktop";
                 geoGridEnabled := true;
                 geoGridConfig :=
                   Some {| centerLat := 51.5; centerLng := -0.12;
                           radiusKm := 5; gridSize := -2 |} |} in
  gridPointsOf 2 (demoEnv alternating) opts = Some [] /\
  processCsvStream 2 (demoEnv alternating) opts [brightSmile]
  = Complete [brandNotFound brightSmile] [] 1 1 0.
Proof. vm_compute. split; reflexivity. Qed.

(** A grid size of two and a half makes three rounds, nine grid points. *)
Example fractional_grid_size :
  rounds 3 2.5 = Some 3 /\ rounds 2 2 = Some 2 /\ rounds 0 nan = Some 0 /\
  rounds 5 infinity = None.
Proof. vm_compute. repeat split; reflexivity. Qed.

Lemma observations_tagged env opts row nB nBr pt ps : forall idx,
  Forall (taggedWith row) (observations env opts row nB nBr pt idx ps).
Proof.
  induction ps as [|p ps IH]; intros idx; constructor;
    [repeat split | apply IH].
Qed.

Lemma matchQuery_group fuel env opts gps row s u s' :
  matchQuery fuel env opts gps row s = Returned u s' ->
  exists g,
    allResults s' = allResults s ++ g /\ g <> [] /\ Forall (taggedWith row) g.
Proof.
  intros H. apply matchQuery_returned in H as [blocks [B [R _]]].
  eexists. split; [exact R |].
  assert (Forall (taggedWith row) (List.concat blocks)) as T.
  { clear R. induction B as [|gp b gps blocks [places ->] _ IH]; simpl;
      [constructor |].
    apply Forall_app. split; [apply observations_tagged | exact IH]. }
  destruct (existsb brand_match (List.concat blocks)) eqn:X.
  - rewrite app_nil_r. split; [| exact T].
    intros N. rewrite N in X. discriminate.
  - split.
    + intros N. apply app_eq_nil in N as [_ N]. discriminate.
    + apply Forall_app. split; [exact T |].
      constructor; [repeat split | constructor].
Qed.

Lemma forEachQuery_groups fuel env opts :
  forall queryData s u s',
    forEachQuery fuel env opts queryData s = Returned u s' ->
    exists groups,
      allResults s' = allResults s ++ List.concat groups /\
      Forall2 (fun row g => g <> [] /\ Forall (taggedWith row) g)
              queryData groups.
Proof.
  induction queryData as [|row rest IH]; intros s u s' H.
  - injection H as _ <-. exists []. simpl. rewrite app_nil_r.
    split; [reflexivity | constructor].
  - cbn [forEachQuery] in H. unfold bind, processQuery in H.
    destruct (gridPointsOf fuel env opts) as [gps|] eqn:G; [| discriminate].
    destruct (matchQuery fuel env opts gps row s)
      as [u1 s1|e s1|] eqn:E; try discriminate.
    apply matchQuery_group in E as [g [R1 [N T]]].
    apply IH in H as [groups [R2 F]].
    exists (g :: groups). simpl. split.
    + now rewrite R2, R1, app_assoc.
    + constructor; [split; assumption | exact F].
Qed.

(** X3.  The records of a run that completes come in the order of the
    input rows, one non-empty group per row, every record carrying its
    row's keywords, brand and branch; so [placesFound], which counts the
    "Brand not found" records too, is at least [queriesProcessed]. *)
Theorem results_grouped_by_query fuel env opts queryData
    allPlaces brandMatches queriesProcessed placesFound apiCallsMade :
  processCsvStream fuel env opts queryData
  = Complete allPlaces brandMatches queriesProcessed placesFound apiCallsMade ->
  (exists groups,
      allPlaces = List.concat groups /\
      Forall2 (fun row g => g <> [] /\ Forall (taggedWith row) g)
              queryData groups) /\
  placesFound = List.length allPlaces /\
  queriesProcessed <= placesFound.
Proof.
  unfold processCsvStream.
  destruct (forEachQuery fuel env opts queryData start) as [[] s'|e s'|] eqn:E;
    try discriminate.
  intros H. injection H as <- _ <- <- _.
  apply forEachQuery_groups in E as [groups [R F]]. simpl in R.
  split; [now exists groups | split; [reflexivity |]].
  rewrite R. clear R. induction F as [|row g rows groups [N _] _ IH]; simpl.
  - lia.
  - rewrite length_app. destruct g; [now contradiction N | simpl; lia].
Qed.

Lemma results_grouped_by_query_witness :
  (exists groups,
      allPlacesOf (processCsvStream 2 (demoEnv alternating) plainOptions
                     [brightSmile; mkQueryRow "vet leeds" "Paws" "Leeds"])
      = List.concat groups /\
      Forall2 (fun row g => g <> [] /\ Forall (taggedWith row) g)
              [brightSmile; mkQueryRow "vet leeds" "Paws" "Leeds"] groups) /\
  11 = List.length
         (allPlacesOf (processCsvStream 2 (demoEnv alternating) plainOptions
                         [brightSmile; mkQueryRow "vet leeds" "Paws" "Leeds"])) /\
  2 <= 11.
Proof.
  apply (results_grouped_by_query 2 (demoEnv alternating) plainOptions
           [brightSmile; mkQueryRow "vet leeds" "Paws" "Leeds"]
           _
           (filter brand_match
              (allPlacesOf (processCsvStream 2 (demoEnv alternating) plainOptions
                              [brightSmile; mkQueryRow "vet leeds" "Paws" "Leeds"])))
           2 11 4).
  vm_compute. reflexivity.
Defined.

(* ================================================================== *)
(** ** [parseCSV] *)

Lemma trimStart_startsClean s : startsClean (trimStart s).
Proof.
  induction s as [|c t IH]; simpl; [exact I |].
  destruct (isWhitespace c) eqn:W; [exact IH | exact W].
Qed.

Lemma trimStart_fixed s : startsClean s -> trimStart s = s.
Proof. destruct s as [|c t]; simpl; [reflexivity | now intros ->]. Qed.

Lemma trimEnd_startsClean s : startsClean s -> startsClean (trimEnd s).
Proof.
  destruct s as [|c t]; simpl; [exact id |]. intros W.
  destruct (trimEnd t); [rewrite W |]; exact W.
Qed.

Lemma trimEnd_idempotent s : trimEnd (trimEnd s) = trimEnd s.
Proof.
  induction s as [|c t IH]; [reflexivity |].
  simpl. destruct (trimEnd t) as [|d t'] eqn:E.
  - destruct (isWhitespace c) eqn:W; [reflexivity |].
    simpl. now rewrite W.
  - change (trimEnd (String c (String d t')))
      with (match trimEnd (String d t') with
            | EmptyString =>
                if isWhitespace c then EmptyString else String c EmptyString
            | t'' => String c t''
            end).
    now rewrite IH.
Qed.

Lemma trim_idempotent s : trim (trim s) = trim s.
Proof.
  unfold trim.
  rewrite (trimStart_fixed (trimEnd (trimStart s)))
    by (apply trimEnd_startsClean, trimStart_startsClean).
  apply trimEnd_idempotent.
Qed.

Lemma pushValidRow_app rows row :
  pushValidRow rows row = rows ++ pushValidRow [] row.
Proof.
  unfold pushValidRow. destruct (_ && _); [reflexivity |].
  now rewrite app_nil_r.
Qed.

Lemma fold_pushValidRow records : forall rows,
  fold_left pushValidRow records rows
  = rows ++ flat_map (pushValidRow []) records.
Proof.
  induction records as [|r rest IH]; intros rows; simpl.
  - now rewrite app_nil_r.
  - rewrite IH, pushValidRow_app, <- app_assoc. reflexivity.
Qed.

Lemma nonEmpty_true s : nonEmpty s = true <-> s <> "".
Proof. destruct s; simpl; split; intros; congruence. Qed.

Lemma pushValidRow_clean row : Forall cleanRow (pushValidRow [] row).
Proof.
  unfold pushValidRow.
  destruct (nonEmpty _ && nonEmpty _ && nonEmpty _) eqn:N; [| constructor].
  apply andb_prop in N as [N Nc]. apply andb_prop in N as [Na Nb].
  constructor; [| constructor].
  unfold cleanRow, cleanField, trimmedCell; simpl.
  rewrite !trim_idempotent.
  repeat split; now apply nonEmpty_true.
Qed.

Lemma pushValidRow_length row : List.length (pushValidRow [] row) <= 1.
Proof. unfold pushValidRow. destruct (_ && _); simpl; lia. Qed.

(** X4.  What [parseCSV] returns is never empty (so the handlers' own
    test for an empty [queryData] after it cannot fire); every row it
    returns has three non-empty fields with no whitespace at either end;
    the rows are those of the records that have all three cells
    non-blank, in the records' order, and no parse error was reported. *)
Theorem parseCSV_rows_are_clean result rows :
  parseCSV result = inr rows ->
  rows <> [] /\
  Forall cleanRow rows /\
  rows = flat_map (pushValidRow []) (data result) /\
  List.length rows <= List.length (data result) /\
  errors result = [].
Proof.
  unfold parseCSV.
  destruct (errors result); [| discriminate].
  destruct (data result) as [|firstRow rest] eqn:D; [discriminate |].
  cbv zeta. destruct (negb _ || negb _ || negb _); [discriminate |].
  rewrite fold_pushValidRow, app_nil_l.
  destruct (flat_map _ _) as [|r rs] eqn:F; [discriminate |].
  intros H. injection H as <-. rewrite <- F.
  repeat split.
  - rewrite F. discriminate.
  - clear F. generalize (firstRow :: rest) as records.
    induction records as [|x xs IH]; simpl; [constructor |].
    apply Forall_app. split; [apply pushValidRow_clean | exact IH].
  - clear F. generalize (firstRow :: rest) as records.
    induction records as [|x xs IH]; simpl; [lia |].
    rewrite length_app. pose proof (pushValidRow_length x). lia.
Qed.

Lemma parseCSV_rows_are_clean_witness :
  [ mkQueryRow "dentist london" "Bright Smile" "London" ] <> [] /\
  Forall cleanRow [ mkQueryRow "dentist london" "Bright Smile" "London" ] /\
  [ mkQueryRow "dentist london" "Bright Smile" "London" ]
  = flat_map (pushValidRow [])
      [ [ ("Keywords", "  dentist london "); ("Brand", "Bright Smile");
          ("Branch", "London") ];
        [ ("Keywords", "vet leeds"); ("Brand", "   "); ("Branch", "Leeds") ] ] /\
  1 <= 2 /\
  @nil string = [].
Proof.
  apply (parseCSV_rows_are_clean
           (mkPapaResult
              [ [ ("Keywords", "  dentist london "); ("Brand", "Bright Smile");
                  ("Branch", "London") ];
                [ ("Keywords", "vet leeds"); ("Brand", "   ");
                  ("Branch", "Leeds") ] ]
              [])).
  reflexivity.
Defined.

Lemma pushValidRow_recordOf row :
  cleanRow row ->
  pushValidRow [] (recordOf row) = [row] /\
  pushValidRow [] (lowerRecordOf row) = [row].
Proof.
  destruct row as [k b br]. unfold cleanRow, cleanField.
  cbn [Keywords Brand Branch].
  intros [[Tk Nk] [[Tb Nb] [Tbr Nbr]]].
  destruct k as [|k0 k]; [now contradiction Nk |].
  destruct b as [|b0 b]; [now contradiction Nb |].
  destruct br as [|br0 br]; [now contradiction Nbr |].
  set (row := mkQueryRow (String k0 k) (String b0 b) (String br0 br)).
  assert (trimmedCell "Keywords" "keywords" (recordOf row) = String k0 k /\
          trimmedCell "Brand" "brand" (recordOf row) = String b0 b /\
          trimmedCell "Branch" "branch" (recordOf row) = String br0 br /\
          trimmedCell "Keywords" "keywords" (lowerRecordOf row) = String k0 k /\
          trimmedCell "Brand" "brand" (lowerRecordOf row) = String b0 b /\
          trimmedCell "Branch" "branch" (lowerRecordOf row) = String br0 br)
    as [E1 [E2 [E3 [E4 [E5 E6]]]]].
  { unfold trimmedCell.
    change (cell "Keywords" (recordOf row)) with (Some (String k0 k)).
    change (cell "Brand" (recordOf row)) with (Some (String b0 b)).
    change (cell "Branch" (recordOf row)) with (Some (String br0 br)).
    change (cell "Keywords" (lowerRecordOf row)) with (@None string).
    change (cell "Brand" (lowerRecordOf row)) with (@None string).
    change (cell "Branch" (lowerRecordOf row)) with (@None string).
    change (cell "keywords" (lowerRecordOf row)) with (Some (String k0 k)).
    change (cell "brand" (lowerRecordOf row)) with (Some (String b0 b)).
    change (cell "branch" (lowerRecordOf row)) with (Some (String br0 br)).
    repeat split; assumption. }
  unfold pushValidRow. rewrite E1, E2, E3, E4, E5, E6. split; reflexivity.
Qed.

(** X5.  Round trip: rows whose fields are non-empty and have no
    whitespace at either end, written as records under the headers
    [Keywords], [Brand], [Branch] (or under [keywords], [brand],
    [branch]), are read back by [parseCSV] unchanged. *)
Theorem parseCSV_round_trip rows :
  rows <> [] ->
  Forall cleanRow rows ->
  parseCSV (mkPapaResult (map recordOf rows) []) = inr rows /\
  parseCSV (mkPapaResult (map lowerRecordOf rows) []) = inr rows.
Proof.
  intros N C.
  assert (flat_map (pushValidRow []) (map recordOf rows) = rows /\
          flat_map (pushValidRow []) (map lowerRecordOf rows) = rows) as [F G].
  { clear N. induction C as [|r rs Cr _ [IH1 IH2]]; [split; reflexivity |].
    destruct (pushValidRow_recordOf r Cr) as [P1 P2].
    simpl. rewrite P1, P2, IH1, IH2. split; reflexivity. }
  destruct rows as [|r rs]; [now contradiction N |].
  unfold parseCSV. cbn [errors data map].
  split.
  - change (hasColumn "Keywords" (recordOf r)) with true.
    change (hasColumn "Brand" (recordOf r)) with true.
    change (hasColumn "Branch" (recordOf r)) with true.
    cbv zeta. cbn [orb negb].
    rewrite fold_pushValidRow, app_nil_l.
    change (recordOf r :: map recordOf rs) with (map recordOf (r :: rs)).
    now rewrite F.
  - change (hasColumn "Keywords" (lowerRecordOf r)) with false.
    change (hasColumn "keywords" (lowerRecordOf r)) with true.
    change (hasColumn "Brand" (lowerRecordOf r)) with false.
    change (hasColumn "brand" (lowerRecordOf r)) with true.
    change (hasColumn "Branch" (lowerRecordOf r)) with false.
    change (hasColumn "branch" (lowerRecordOf r)) with true.
    cbv zeta. cbn [orb negb].
    rewrite fold_pushValidRow, app_nil_l.
    change (lowerRecordOf r :: map lowerRecordOf rs)
      with (map lowerRecordOf (r :: rs)).
    now rewrite G.
Qed.

Lemma parseCSV_round_trip_witness :
  parseCSV (mkPapaResult (map recordOf [brightSmile]) []) = inr [brightSmile] /\
  parseCSV (mkPapaResult (map lowerRecordOf [brightSmile]) [])
  = inr [brightSmile].
Proof.
  apply (parseCSV_round_trip [brightSmile]).
  - discriminate.
  - repeat constructor; discriminate.
Defined.

(* ================================================================== *)
(** ** What the handler saves *)

Lemma forEachQuery_structure fuel env opts :
  forall queryData s u s',
    forEachQuery fuel env opts queryData s = Returned u s' ->
    exists groups,
      allResults s' = allResults s ++ List.concat groups /\
      Forall2 (QueryRecords fuel env opts) queryData groups.
Proof.
  induction queryData as [|row rest IH]; intros s u s' H.
  - injection H as _ <-. exists []. simpl. rewrite app_nil_r.
    split; [reflexivity | constructor].
  - cbn [forEachQuery] in H. unfold bind, processQuery in H.
    destruct (gridPointsOf fuel env opts) as [gps|] eqn:G; [| discriminate].
    destruct (matchQuery fuel env opts gps row s)
      as [u1 s1|e s1|] eqn:E; try discriminate.
    apply matchQuery_returned in E as [blocks [B [R1 _]]].
    apply IH in H as [groups [R2 F]].
    exists ((List.concat blocks
             ++ (if existsb brand_match (List.concat blocks) then []
                 else [brandNotFound row])) :: groups).
    simpl. split.
    + now rewrite R2, R1, <- !app_assoc.
    + constructor; [| exact F]. exists gps, blocks.
      split; [exact G |]. split; [exact B | reflexivity].
Qed.

Lemma observations_Saveable env opts row nB nBr pt ps : forall idx,
  1 <= idx ->
  Forall (Saveable opts) (observations env opts row nB nBr pt idx ps).
Proof.
  induction ps as [|p ps IH]; intros idx L; constructor.
  - left. exists idx. repeat split. exact L.
  - apply IH. lia.
Qed.

Lemma QueryRecords_Saveable fuel env opts row g :
  QueryRecords fuel env opts row g -> Forall (Saveable opts) g.
Proof.
  intros [points [blocks [_ [B ->]]]]. apply Forall_app. split.
  - induction B as [|gp b gps blocks [places ->] _ IH]; simpl;
      [constructor |].
    apply Forall_app. split; [now apply observations_Saveable | exact IH].
  - destruct (existsb _ _); constructor; [| constructor].
    right. destruct row; reflexivity.
Qed.

Lemma groups_Saveable fuel env opts queryData groups :
  Forall2 (QueryRecords fuel env opts) queryData groups ->
  Forall (Saveable opts) (List.concat groups).
Proof.
  induction 1 as [|row g rows groups Q _ IH]; simpl; [constructor |].
  apply Forall_app. split;
    [exact (QueryRecords_Saveable _ _ _ _ _ Q) | exact IH].
Qed.

Lemma toSave_rule String_ sid opts r :
  Saveable opts r -> isObservation r = true ->
  SavedRowRule sid opts (toSave String_ sid (deviceType opts) r).
Proof.
  intros [[n [L [Q [P [LP D]]]]] | E] O.
  - unfold SavedRowRule, toSave. simpl. rewrite Q, P, LP, D.
    split; [reflexivity |]. split.
    + now destruct (deviceType opts).
    + repeat split; [exact L |].
      destruct (n <=? 3); [| reflexivity].
      destruct n; [lia | reflexivity].
  - rewrite E in O. discriminate.
Qed.

Lemma toNoMatch_rule sid opts r :
  SavedRowRule sid opts (toNoMatch sid (deviceType opts) r).
Proof. unfold SavedRowRule, toNoMatch. simpl. repeat split. Qed.

(** X6.  Every row that a completed run of the handler hands to
    [storage.createRankingResults] carries the search's id and the run's
    device type; a row with a ranking position [n] has [n >= 1],
    [isLocalPack] exactly when [n <= 3] and [localPackPosition] equal to
    [n] then and [null] otherwise; a row without a ranking position is a
    "Brand not found" row: no brand match, not in the local pack, no
    coordinates. *)
Theorem saved_rows_obey_rule String_ searchId fuel env opts queryData s' :
  forEachQuery fuel env opts queryData start = Returned tt s' ->
  Forall (SavedRowRule searchId opts)
         (rowsToSave String_ searchId (deviceType opts) (allResults s')).
Proof.
  intros H. apply forEachQuery_structure in H as [groups [R F]].
  simpl in R. apply groups_Saveable in F. rewrite <- R in F. clear R.
  unfold rowsToSave. apply Forall_app. split; apply Forall_forall;
    intros row I; apply in_map_iff in I as [r [<- I]];
    apply filter_In in I as [I O].
  - rewrite Forall_forall in F. now apply toSave_rule; [apply F |].
  - apply toNoMatch_rule.
Qed.

Lemma saved_rows_obey_rule_witness :
  Forall (SavedRowRule "search-1" plainOptions)
    (rowsToSave (fun _ => "0") "search-1" "desktop"
       (allPlacesOf (processCsvStream 2 (demoEnv alternating) plainOptions
                       [brightSmile; mkQueryRow "vet leeds" "Paws" "Leeds"]))).
Proof.
  destruct (forEachQuery 2 (demoEnv alternating) plainOptions
              [brightSmile; mkQueryRow "vet leeds" "Paws" "Leeds"] start)
    as [[] s'|e s'|] eqn:E; [| vm_compute in E; discriminate ..].
  pose proof (saved_rows_obey_rule (fun _ => "0") "search-1" 2
                (demoEnv alternating) plainOptions
                [brightSmile; mkQueryRow "vet leeds" "Paws" "Leeds"] s' E) as R.
  unfold processCsvStream. rewrite E. exact R.
Defined.

Lemma filter_length_map {A B : Type} (p : B -> bool) (f : A -> B) l :
  List.length (filter p (map f l)) = List.length (filter (fun x => p (f x)) l).
Proof.
  induction l as [|x l IH]; simpl; [reflexivity |].
  destruct (p (f x)); simpl; now rewrite IH.
Qed.

Lemma filter_filter {A : Type} (p q : A -> bool) l :
  filter p (filter q l) = filter (fun x => q x && p x) l.
Proof.
  induction l as [|x l IH]; simpl; [reflexivity |].
  destruct (q x); simpl; [destruct (p x) |]; now rewrite IH.
Qed.

Lemma filter_partition_length {A : Type} (p : A -> bool) l :
  List.length (filter p l) + List.length (filter (fun x => negb (p x)) l)
  = List.length l.
Proof.
  induction l as [|x l IH]; simpl; [reflexivity |].
  destruct (p x); simpl; lia.
Qed.

Lemma filter_none {A : Type} (p : A -> bool) l :
  (forall x, In x l -> p x = false) -> filter p l = [].
Proof.
  induction l as [|x l IH]; intros H; simpl; [reflexivity |].
  rewrite (H x (or_introl eq_refl)). apply IH. intros y I. apply H. now right.
Qed.

Lemma Saveable_not_observation opts r :
  Saveable opts r -> isObservation r = false ->
  brand_match r = false /\ inLocalPack r = false.
Proof.
  intros [[n [_ [Q _]]] | E] O.
  - unfold isObservation in O. rewrite Q in O. discriminate.
  - rewrite E. split; reflexivity.
Qed.

Lemma saved_count String_ sid dev opts (p : Insert.row -> bool)
    (q : PlaceResult -> bool) l :
  Forall (Saveable opts) l ->
  (forall r, p (toSave String_ sid dev r) = q r) ->
  (forall r, p (toNoMatch sid dev r) = false) ->
  (forall r, Saveable opts r -> isObservation r = false -> q r = false) ->
  List.length (filter p (rowsToSave String_ sid dev l))
  = List.length (filter q l).
Proof.
  intros F P1 P2 Q. unfold rowsToSave.
  rewrite filter_app, length_app, !filter_length_map.
  rewrite (filter_none (fun x => p (toNoMatch sid dev x))) by (intros; apply P2).
  simpl. rewrite Nat.add_0_r, filter_filter.
  f_equal. apply filter_ext_in. intros r I. rewrite P1.
  rewrite Forall_forall in F.
  destruct (isObservation r) eqn:O; [reflexivity |].
  simpl. symmetry. now apply (Q r (F r I)).
Qed.

(** X7.  When a run completes, the rows handed to
    [storage.createRankingResults] are as many as [totalResults], the rows
    with [brandMatch] as many as [totalBrandMatches] and the rows with
    both [isLocalPack] and [brandMatch] as many as
    [totalLocalPackMatches]: the counts written to the search describe
    exactly the rows stored for it. *)
Theorem saved_rows_match_totals String_ searchId fuel env opts queryData s' :
  forEachQuery fuel env opts queryData start = Returned tt s' ->
  let rows := rowsToSave String_ searchId (deviceType opts) (allResults s') in
  List.length rows = totalResults (totalsOf s') /\
  List.length (filter Insert.brandMatch rows) = totalBrandMatches (totalsOf s') /\
  List.length (filter (fun row => Insert.isLocalPack row && Insert.brandMatch row)
                      rows)
  = totalLocalPackMatches (totalsOf s').
Proof.
  intros H rows. subst rows.
  apply forEachQuery_structure in H as [groups [R F]].
  simpl in R. apply groups_Saveable in F. rewrite <- R in F. clear R.
  unfold totalsOf. cbn [totalResults totalBrandMatches totalLocalPackMatches].
  repeat split.
  - unfold rowsToSave. rewrite length_app, !length_map.
    apply filter_partition_length.
  - apply (saved_count String_ searchId (deviceType opts) opts
             Insert.brandMatch brand_match _ F); try reflexivity.
    intros r S O. now apply (Saveable_not_observation opts r S O).
  - apply (saved_count String_ searchId (deviceType opts) opts
             (fun row => Insert.isLocalPack row && Insert.brandMatch row)
             (fun r => inLocalPack r && brand_match r) _ F); try reflexivity.
    intros r S O. destruct (Saveable_not_observation opts r S O) as [-> _].
    apply andb_false_r.
Qed.

Lemma saved_rows_match_totals_witness :
  exists s',
    forEachQuery 2 (demoEnv alternating) plainOptions
      [brightSmile; mkQueryRow "vet leeds" "Paws" "Leeds"] start
    = Returned tt s' /\
    List.length (rowsToSave (fun _ => "0") "search-1" "desktop" (allResults s'))
    = 11 /\
    totalsOf s' = mkTotals 11 1 1 4.
Proof.
  destruct (forEachQuery 2 (demoEnv alternating) plainOptions
              [brightSmile; mkQueryRow "vet leeds" "Paws" "Leeds"] start)
    as [[] s'|e s'|] eqn:E; [| vm_compute in E; discriminate ..].
  exists s'. split; [reflexivity |].
  destruct (saved_rows_match_totals (fun _ => "0") "search-1" 2
              (demoEnv alternating) plainOptions
              [brightSmile; mkQueryRow "vet leeds" "Paws" "Leeds"] s' E)
    as [L _].
  cbv zeta in L. change (deviceType plainOptions) with "desktop" in L.
  assert (totalsOf s' = mkTotals 11 1 1 4) as T.
  { vm_compute in E. injection E as <-. vm_compute. reflexivity. }
  split; [| exact T]. rewrite L, T. reflexivity.
Defined.

Lemma observations_local_pack env opts row nB nBr pt ps : forall idx,
  List.length (filter inLocalPack (observations env opts row nB nBr pt idx ps))
  <= 4 - idx.
Proof.
  induction ps as [|p ps IH]; intros idx; cbn [observations filter];
    [cbn [List.length]; lia |].
  unfold inLocalPack at 1. cbn [placeResult is_local_pack].
  specialize (IH (S idx)).
  destruct (idx <=? 3) eqn:L; cbn [List.length].
  - apply Nat.leb_le in L. lia.
  - apply Nat.leb_gt in L. lia.
Qed.

Lemma QueryRecords_local_pack fuel env opts row g :
  QueryRecords fuel env opts row g ->
  List.length (filter inLocalPack g) <= 3 * gridPointCount fuel env opts.
Proof.
  intros [points [blocks [G [B ->]]]].
  rewrite (gridPointCount_Some _ _ _ _ G).
  rewrite filter_app, length_app.
  replace (List.length (filter inLocalPack
             (if existsb brand_match (List.concat blocks) then []
              else [brandNotFound row]))) with 0
    by (destruct (existsb _ _); reflexivity).
  rewrite Nat.add_0_r.
  clear G.
  induction B as [|gp b gps blocks [places ->] _ IH]; simpl; [lia |].
  rewrite filter_app, length_app.
  pose proof (observations_local_pack env opts row
                (normalizeBrandName env (Brand row))
                (normalizeBranchName env (Branch row)) gp places 1).
  lia.
Qed.

Lemma filter_and_length {A : Type} (p q : A -> bool) l :
  List.length (filter (fun x => p x && q x) l) <= List.length (filter p l) /\
  List.length (filter (fun x => p x && q x) l) <= List.length (filter q l).
Proof.
  induction l as [|x l [IH1 IH2]]; simpl; [lia |].
  destruct (p x), (q x); simpl; lia.
Qed.

(** X8.  In a run that completes, at most three records per query and
    grid point are in the local pack, so
    [totalLocalPackMatches <= 3 * queries * G] with [G] the number of grid
    points; and
    [totalLocalPackMatches <= totalBrandMatches <= totalResults]. *)
Theorem local_pack_matches_bounded fuel env opts queryData s' :
  forEachQuery fuel env opts queryData start = Returned tt s' ->
  totalLocalPackMatches (totalsOf s')
  <= 3 * List.length queryData * gridPointCount fuel env opts /\
  totalLocalPackMatches (totalsOf s') <= totalBrandMatches (totalsOf s') /\
  totalBrandMatches (totalsOf s') <= totalResults (totalsOf s').
Proof.
  intros H. apply forEachQuery_structure in H as [groups [R F]].
  simpl in R. unfold totalsOf.
  cbn [totalResults totalBrandMatches totalLocalPackMatches].
  destruct (filter_and_length inLocalPack brand_match (allResults s'))
    as [L1 L2].
  repeat split; [| exact L2 | apply filter_length_le].
  eapply Nat.le_trans; [exact L1 |].
  rewrite R. clear R L1 L2.
  induction F as [|row g rows groups Q _ IH]; simpl; [lia |].
  rewrite filter_app, length_app.
  pose proof (QueryRecords_local_pack _ _ _ _ _ Q). lia.
Qed.

Lemma local_pack_matches_bounded_witness :
  exists s',
    forEachQuery 2 (demoEnv alternating) gridOptions [brightSmile] start
    = Returned tt s' /\
    totalLocalPackMatches (totalsOf s') <= 3 * 1 * 4 /\
    totalsOf s' = mkTotals 20 4 4 8.
Proof.
  destruct (forEachQuery 2 (demoEnv alternating) gridOptions [brightSmile]
              start) as [[] s'|e s'|] eqn:E; [| vm_compute in E; discriminate ..].
  exists s'. split; [reflexivity |].
  destruct (local_pack_matches_bounded 2 (demoEnv alternating) gridOptions
              [brightSmile] s' E) as [L _].
  split; [exact L |].
  vm_compute in E. injection E as <-. vm_compute. reflexivity.
Defined.

(* ================================================================== *)
(** ** The ranking history and its trends *)

Lemma mapWithIndex_trends (history : list RankingResult) : forall pre l,
  history = pre ++ l ->
  mapWithIndex
    (fun result index =>
       let prevResult :=
         if index <? List.length history - 1
         then nth_error history (index + 1)
         else None in
       let prevPos :=
         match prevResult with
         | Some p => Insert.rankingPosition (columns p)
         | None => None
         end in
       let currPos := Insert.rankingPosition (columns result) in
       {| result := result;
          previousPosition := prevPos;
          change :=
            match truthyPosition currPos, truthyPosition prevPos with
            | Some c, Some p => Some (Z.of_nat p - Z.of_nat c)%Z
            | _, _ => None
            end |})
    (List.length pre) l
  = trendsOf l.
Proof.
  intros pre l. revert pre. induction l as [|r rest IH]; intros pre E;
    [reflexivity |].
  cbn [mapWithIndex trendsOf]. cbv zeta.
  assert ((if List.length pre <? List.length history - 1
           then nth_error history (List.length pre + 1) else None)
          = match rest with p :: _ => Some p | [] => None end) as P.
  { rewrite E, length_app. cbn [List.length].
    destruct rest as [|p rest'].
    - match goal with
      | |- context [?a <? ?b] => destruct (Nat.ltb_spec a b)
      end; [cbn [List.length] in *; lia | reflexivity].
    - match goal with
      | |- context [?a <? ?b] => destruct (Nat.ltb_spec a b)
      end; [| cbn [List.length] in *; lia].
      rewrite nth_error_app2 by lia.
      replace (List.length pre + 1 - List.length pre) with 1 by lia.
      reflexivity. }
  rewrite P.
  replace (match match rest with p :: _ => Some p | [] => None end with
           | Some p => Insert.rankingPosition (columns p)
           | None => None
           end)
    with (match rest with
          | p :: _ => Insert.rankingPosition (columns p)
          | [] => None
          end) by (destruct rest; reflexivity).
  f_equal.
  specialize (IH (pre ++ [r])). rewrite length_app in IH. simpl in IH.
  replace (S (List.length pre)) with (List.length pre + 1) by lia.
  apply IH. now rewrite <- app_assoc.
Qed.

Lemma historyWithTrends_trendsOf history :
  historyWithTrends history = trendsOf history.
Proof. exact (mapWithIndex_trends history [] history eq_refl). Qed.

Lemma trendsOf_results history : map result (trendsOf history) = history.
Proof.
  induction history as [|r rest IH]; simpl; [reflexivity | now rewrite IH].
Qed.

Lemma trendsOf_nth history : forall i t,
  nth_error (trendsOf history) i = Some t ->
  nth_error history i = Some (result t) /\
  previousPosition t
  = match nth_error history (S i) with
    | Some p => positionOf p
    | None => None
    end /\
  getTrendIcon (change t) = iconFor (positionOf (result t)) (previousPosition t).
Proof.
  induction history as [|r rest IH]; intros i t H;
    [destruct i; discriminate |].
  destruct i as [|i].
  - injection H as <-. cbn [result previousPosition change nth_error].
    split; [reflexivity |]. split; [destruct rest; reflexivity |].
    unfold iconFor, positionOf, getTrendIcon.
    destruct (truthyPosition (Insert.rankingPosition (columns r))) as [c|];
      [| reflexivity].
    destruct (truthyPosition _) as [p|]; [| reflexivity].
    destruct (c <? p) eqn:L1.
    + apply Nat.ltb_lt in L1.
      assert ((Z.of_nat p - Z.of_nat c =? 0)%Z = false) as ->
        by (apply Z.eqb_neq; lia).
      assert ((0 <? Z.of_nat p - Z.of_nat c)%Z = true) as ->
        by (apply Z.ltb_lt; lia).
      reflexivity.
    + apply Nat.ltb_ge in L1. destruct (p <? c) eqn:L2.
      * apply Nat.ltb_lt in L2.
        assert ((Z.of_nat p - Z.of_nat c =? 0)%Z = false) as ->
          by (apply Z.eqb_neq; lia).
        assert ((0 <? Z.of_nat p - Z.of_nat c)%Z = false) as ->
          by (apply Z.ltb_ge; lia).
        reflexivity.
      * apply Nat.ltb_ge in L2.
        assert ((Z.of_nat p - Z.of_nat c =? 0)%Z = true) as ->
          by (apply Z.eqb_eq; lia).
        reflexivity.
  - cbn [trendsOf nth_error] in H. apply IH in H. exact H.
Qed.

(** X9.  [/api/ranking-history] returns the history rows in their order,
    each with the position of the row after it (the measurement before it
    in time) as [previousPosition], none for the last row; and the icon
    that the history page draws for a row is the upward trend exactly when
    both positions are present and non-zero and the row's position number
    is smaller than the previous one, the downward trend exactly when it
    is larger, and the dash in every other case. *)
Theorem history_trends_and_icons history :
  map result (historyWithTrends history) = history /\
  forall i t,
    nth_error (historyWithTrends history) i = Some t ->
    nth_error history i = Some (result t) /\
    previousPosition t
    = match nth_error history (S i) with
      | Some p => positionOf p
      | None => None
      end /\
    getTrendIcon (change t)
    = iconFor (positionOf (result t)) (previousPosition t).
Proof.
  rewrite historyWithTrends_trendsOf. split.
  - apply trendsOf_results.
  - apply trendsOf_nth.
Qed.

Lemma last_cons_default {A : Type} (x : A) l d d' :
  last (x :: l) d = last (x :: l) d'.
Proof.
  revert x. induction l as [|y l IH]; intros x; [reflexivity |].
  change (last (y :: l) d = last (y :: l) d'). apply IH.
Qed.

Lemma trendsOf_total history :
  Forall (fun r => exists n, positionOf r = Some (S n)) history ->
  forall newest oldest,
    hd_error history = Some newest ->
    last history newest = oldest ->
    exists a b,
      positionOf newest = Some a /\ positionOf oldest = Some b /\
      totalChange (trendsOf history) = (Z.of_nat b - Z.of_nat a)%Z.
Proof.
  induction 1 as [|r rest [n Pr] F IH]; intros newest oldest Hd La;
    [discriminate |].
  injection Hd as <-.
  destruct rest as [|p rest'].
  - simpl in La. subst oldest. exists (S n), (S n).
    repeat split; try exact Pr.
    unfold totalChange. cbn [trendsOf fold_right change].
    destruct (truthyPosition (Insert.rankingPosition (columns r)));
      cbn [truthyPosition orDefault]; lia.
  - destruct (IH p oldest eq_refl) as [a [b [Pa [Pb T]]]].
    { rewrite <- La. change (last (r :: p :: rest') r)
        with (last (p :: rest') r). apply last_cons_default. }
    exists (S n), b. repeat split; try assumption.
    inversion F as [|x xs [m Pp] _]; subst.
    rewrite Pa in Pp. injection Pp as ->.
    change (totalChange (trendsOf (r :: p :: rest')))
      with (orDefault
              (match truthyPosition (Insert.rankingPosition (columns r)),
                     truthyPosition (Insert.rankingPosition (columns p)) with
               | Some c, Some q => Some (Z.of_nat q - Z.of_nat c)%Z
               | _, _ => None
               end) 0
            + totalChange (trendsOf (p :: rest')))%Z.
    rewrite T. unfold positionOf in Pr, Pa. rewrite Pr, Pa.
    cbn [truthyPosition orDefault]. lia.
Qed.

(** X10.  When every row of the history has a position of at least 1, the
    changes add up to the movement over the whole history: the position
    of the oldest row minus the position of the newest. *)
Theorem history_changes_telescope history newest oldest :
  Forall (fun r => exists n, positionOf r = Some (S n)) history ->
  hd_error history = Some newest ->
  last history newest = oldest ->
  exists a b,
    positionOf newest = Some a /\ positionOf oldest = Some b /\
    totalChange (historyWithTrends history) = (Z.of_nat b - Z.of_nat a)%Z.
Proof.
  rewrite historyWithTrends_trendsOf. intros F Hd La.
  exact (trendsOf_total history F newest oldest Hd La).
Qed.

Lemma history_changes_telescope_witness :
  exists a b,
    Some 2 = Some a /\ Some 4 = Some b /\
    totalChange
      (historyWithTrends
         [ historyRow "c" 300 (Some 2); historyRow "b" 200 (Some 5);
           historyRow "a" 100 (Some 4) ])
    = (Z.of_nat b - Z.of_nat a)%Z.
Proof.
  apply (history_changes_telescope
           [ historyRow "c" 300 (Some 2); historyRow "b" 200 (Some 5);
             historyRow "a" 100 (Some 4) ]
           (historyRow "c" 300 (Some 2)) (historyRow "a" 100 (Some 4))).
  - repeat constructor; eexists; reflexivity.
  - reflexivity.
  - reflexivity.
Defined.

Example history_icons :
  map (fun t => (previousPosition t, change t, getTrendIcon (change t)))
      (historyWithTrends
         [ historyRow "d" 400 (Some 2); historyRow "c" 300 (Some 5);
           historyRow "b" 200 None; historyRow "a" 100 (Some 5) ])
  = [ (Some 5, Some 3%Z, TrendingUp); (None, None, Minus);
      (Some 5, None, Minus); (None, None, Minus) ].
Proof. reflexivity. Qed.

(* ================================================================== *)
(** ** [MemStorage] *)

Lemma mapGet_mapSet_same {V : Type} k (v : V) m :
  mapGet k (mapSet k v m) = Some v.
Proof.
  induction m as [|[k' v'] m IH]; simpl.
  - now rewrite String_eqb_refl.
  - destruct (String.eqb k k') eqn:E; simpl.
    + now rewrite String_eqb_refl.
    + now rewrite E.
Qed.

Lemma mapGet_mapSet_other {V : Type} k k' (v : V) m :
  k' <> k -> mapGet k' (mapSet k v m) = mapGet k' m.
Proof.
  intros N. induction m as [|[k0 v0] m IH]; simpl.
  - apply String_eqb_neq in N. now rewrite N.
  - destruct (String.eqb k k0) eqn:E; simpl.
    + apply String_eqb_eq in E. subst k0.
      apply String_eqb_neq in N. now rewrite N.
    + destruct (String.eqb k' k0); [reflexivity | exact IH].
Qed.

Lemma mapGet_None {V : Type} k (m : JsMap V) :
  mapGet k m = None <-> ~ In k (map fst m).
Proof.
  induction m as [|[k' v'] m IH]; simpl; [tauto |].
  destruct (String.eqb k k') eqn:E.
  - apply String_eqb_eq in E. subst. split; [discriminate | tauto].
  - apply String_eqb_neq in E. rewrite IH. split; [intros H [F | F] | ];
      [congruence | tauto | tauto].
Qed.

Lemma mapSet_fresh {V : Type} k (v : V) m :
  mapGet k m = None -> mapSet k v m = m ++ [(k, v)].
Proof.
  induction m as [|[k' v'] m IH]; simpl; [reflexivity |].
  destruct (String.eqb k k'); [discriminate |].
  intros H. now rewrite IH.
Qed.

Lemma mapSet_present {V : Type} k (v v0 : V) m :
  mapGet k m = Some v0 ->
  map fst (mapSet k v m) = map fst m /\
  List.length (mapSet k v m) = List.length m.
Proof.
  induction m as [|[k' v'] m IH]; simpl; [discriminate |].
  destruct (String.eqb k k') eqn:E.
  - apply String_eqb_eq in E. subst. intros _. split; reflexivity.
  - intros H. destruct (IH H) as [A B]. simpl. now rewrite A, B.
Qed.

Lemma uniqueKeys_mapSet {V : Type} k (v : V) m :
  uniqueKeys m -> uniqueKeys (mapSet k v m).
Proof.
  unfold uniqueKeys. intros U.
  destruct (mapGet k m) as [v0|] eqn:G.
  - now rewrite (proj1 (mapSet_present k v v0 m G)).
  - rewrite (mapSet_fresh k v m G), map_app. simpl.
    apply NoDup_app; [exact U | repeat constructor; exact id | ].
    intros x I [<- | []]. now apply mapGet_None in G.
Qed.

Lemma mapDelete_other {V : Type} k k' (m : JsMap V) :
  k' <> k -> mapGet k' (mapDelete k m) = mapGet k' m.
Proof.
  intros N. induction m as [|[k0 v0] m IH]; simpl; [reflexivity |].
  destruct (String.eqb k k0) eqn:E.
  - apply String_eqb_eq in E. subst k0. apply String_eqb_neq in N.
    now rewrite N.
  - simpl. destruct (String.eqb k' k0); [reflexivity | exact IH].
Qed.

Lemma mapDelete_same {V : Type} k (m : JsMap V) :
  uniqueKeys m -> mapGet k (mapDelete k m) = None.
Proof.
  unfold uniqueKeys. induction m as [|[k0 v0] m IH]; simpl; [reflexivity |].
  intros U. inversion U as [|x xs Nin U']; subst.
  destruct (String.eqb k k0) eqn:E.
  - apply String_eqb_eq in E. subst k0. now apply mapGet_None.
  - simpl. rewrite E. now apply IH.
Qed.

Lemma mapDelete_keys {V : Type} k (m : JsMap V) x :
  In x (map fst (mapDelete k m)) -> In x (map fst m).
Proof.
  induction m as [|[k0 v0] m IH]; simpl; [tauto |].
  destruct (String.eqb k k0); simpl; tauto.
Qed.

Lemma uniqueKeys_mapDelete {V : Type} k (m : JsMap V) :
  uniqueKeys m -> uniqueKeys (mapDelete k m).
Proof.
  unfold uniqueKeys. induction m as [|[k0 v0] m IH]; simpl; [exact id |].
  intros U. inversion U as [|x xs Nin U']; subst.
  destruct (String.eqb k k0); [exact U' |].
  simpl. constructor; [| now apply IH].
  intros I. apply Nin. eapply mapDelete_keys. exact I.
Qed.

Lemma insertSorted_perm {A : Type} (cmp : A -> A -> Z) x l :
  Permutation (insertSorted cmp x l) (x :: l).
Proof.
  induction l as [|y l IH]; simpl; [reflexivity |].
  destruct (cmp x y <=? 0)%Z; [reflexivity |].
  rewrite IH. apply perm_swap.
Qed.

Lemma sort_perm {A : Type} (cmp : A -> A -> Z) l : Permutation (sort cmp l) l.
Proof.
  induction l as [|x l IH]; simpl; [reflexivity |].
  rewrite insertSorted_perm. now constructor.
Qed.

Lemma insertSorted_newest {A : Type} (key : A -> Z) x l :
  NewestFirst key l -> NewestFirst key (insertSorted (newestFirst key) x l).
Proof.
  unfold NewestFirst. induction l as [|y l IH]; intros S; simpl.
  - repeat constructor.
  - inversion S as [|a b S' F]; subst. unfold newestFirst at 1.
    destruct (key y - key x <=? 0)%Z eqn:L.
    + apply Z.leb_le in L. constructor; [exact S |].
      constructor; [lia |].
      eapply Forall_impl; [| exact F]. intros b Hb. simpl in Hb. lia.
    + apply Z.leb_gt in L. constructor; [now apply IH |].
      assert (Forall (fun b => (key b <= key y)%Z) (x :: l)) as G
        by (constructor; [lia | exact F]).
      eapply Permutation_Forall; [| exact G].
      symmetry. apply insertSorted_perm.
Qed.

Lemma sort_newest {A : Type} (key : A -> Z) l :
  NewestFirst key (sort (newestFirst key) l).
Proof.
  induction l as [|x l IH]; simpl; [constructor |].
  now apply insertSorted_newest.
Qed.

Lemma firstn_In {A : Type} n (l : list A) x : In x (firstn n l) -> In x l.
Proof.
  revert l. induction n as [|n IH]; intros [|y l]; simpl; try tauto.
  intros [E | I]; [now left | right; now apply IH].
Qed.

Lemma firstn_newest {A : Type} (key : A -> Z) n l :
  NewestFirst key l -> NewestFirst key (firstn n l).
Proof.
  unfold NewestFirst. revert l. induction n as [|n IH]; intros l S; simpl;
    [constructor |].
  destruct l as [|x l]; [constructor |].
  inversion S as [|a b S' F]; subst. constructor; [now apply IH |].
  rewrite Forall_forall in *. intros y I. apply F.
  eapply firstn_In. exact I.
Qed.

Lemma mapSet_mapSet {V : Type} k (v v' : V) m :
  mapSet k v (mapSet k v' m) = mapSet k v m.
Proof.
  induction m as [|[k0 v0] m IH]; simpl.
  - now rewrite String_eqb_refl.
  - destruct (String.eqb k k0) eqn:E; simpl.
    + now rewrite String_eqb_refl.
    + now rewrite E, IH.
Qed.

Lemma mapGet_In {V : Type} k (v : V) m :
  mapGet k m = Some v -> In (k, v) m.
Proof.
  induction m as [|[k0 v0] m IH]; simpl; [discriminate |].
  destruct (String.eqb k k0) eqn:E.
  - apply String_eqb_eq in E. intros [= <-]. subst. now left.
  - intros H. right. now apply IH.
Qed.

Lemma mapGet_filed {V : Type} (idOf : V -> string) k v m :
  filedById idOf m -> mapGet k m = Some v -> idOf v = k.
Proof.
  intros F G. apply mapGet_In in G. unfold filedById in F.
  rewrite Forall_forall in F. exact (F _ G).
Qed.

Lemma filedById_mapSet {V : Type} (idOf : V -> string) k v m :
  idOf v = k -> filedById idOf m -> filedById idOf (mapSet k v m).
Proof.
  unfold filedById. intros E. induction m as [|[k0 v0] m IH]; simpl; intros F.
  - repeat constructor. exact E.
  - apply Forall_cons_iff in F as [Hx Hxs].
    destruct (String.eqb k k0); constructor; auto.
Qed.

Lemma filedById_mapDelete {V : Type} (idOf : V -> string) k m :
  filedById idOf m -> filedById idOf (mapDelete k m).
Proof.
  unfold filedById. induction m as [|[k0 v0] m IH]; simpl; intros F;
    [constructor |].
  inversion F as [|x xs Hx Hxs]; subst.
  destruct (String.eqb k k0); [exact Hxs | constructor; auto].
Qed.

Lemma sort_In {A : Type} (cmp : A -> A -> Z) l x :
  In x (sort cmp l) <-> In x l.
Proof.
  split; apply Permutation_in; [| symmetry]; apply sort_perm.
Qed.

Lemma sort_length {A : Type} (cmp : A -> A -> Z) l :
  List.length (sort cmp l) = List.length l.
Proof. apply Permutation_length, sort_perm. Qed.

Lemma sort_newest_last {A : Type} (key : A -> Z) x l :
  Forall (fun y => (key y < key x)%Z) l ->
  sort (newestFirst key) (l ++ [x]) = x :: sort (newestFirst key) l.
Proof.
  induction 1 as [|y l Hy F IH]; [reflexivity |].
  change (insertSorted (newestFirst key) y (sort (newestFirst key) (l ++ [x]))
          = x :: insertSorted (newestFirst key) y (sort (newestFirst key) l)).
  rewrite IH. cbn [insertSorted]. unfold newestFirst at 1.
  destruct (key x - key y <=? 0)%Z eqn:L; [| reflexivity].
  apply Z.leb_le in L. lia.
Qed.

Lemma newest_split {A : Type} (key : A -> Z) : forall n l,
  NewestFirst key l ->
  forall s r, In s (firstn n l) -> In r (skipn n l) -> (key r <= key s)%Z.
Proof.
  unfold NewestFirst.
  induction n as [|n IH]; intros l S s r Is Ir; [destruct Is |].
  destruct l as [|x l]; [destruct Is |].
  inversion S as [|a b S' F]; subst. cbn [firstn skipn] in *.
  destruct Is as [<- | Is].
  - rewrite Forall_forall in F. apply F.
    rewrite <- (firstn_skipn n l). apply in_or_app. now right.
  - exact (IH l S' s r Is Ir).
Qed.

Lemma newest_app_r {A : Type} (key : A -> Z) l1 l2 :
  NewestFirst key (l1 ++ l2) -> NewestFirst key l2.
Proof.
  unfold NewestFirst. induction l1 as [|x l1 IH]; simpl; [exact id |].
  intros S. inversion S; subst. now apply IH.
Qed.

Lemma upTo_le len x : upTo len x <= len.
Proof.
  unfold upTo. eapply Nat.le_trans; [apply filter_length_le |].
  now rewrite length_seq.
Qed.

Lemma sliceCount_le len limit : sliceCount len limit <= len.
Proof.
  unfold sliceCount. pose proof (upTo_le len limit).
  pose proof (upTo_le len (- limit)%float).
  destruct (limit <? 0)%float; [destruct (- limit <? 1)%float |]; lia.
Qed.

(** A limit of at least one keeps the first element of a list that has
    one. *)
Lemma sliceCount_one len limit :
  (1 <=? limit)%float = true -> 1 <= len -> 1 <= sliceCount len limit.
Proof.
  intros L N. unfold sliceCount.
  assert ((limit <? 0)%float = false) as ->.
  { rewrite FloatAxioms.leb_spec in L. rewrite FloatAxioms.ltb_spec.
    change (Prim2SF 0) with (S754_zero false).
    revert L. change (Prim2SF 1) with (S754_finite false 4503599627370496 (-52)).
    destruct (Prim2SF limit) as [b|b| |b m e]; try destruct b;
      try reflexivity; try discriminate. }
  unfold upTo. destruct len as [|len]; [lia |].
  cbn [seq filter]. change (number 1) with 1%float. rewrite L.
  cbn [List.length]. lia.
Qed.

Lemma patched_idem {A : Type} (u : option A) old :
  patched u (patched u old) = patched u old.
Proof. now destruct u. Qed.

Lemma applySearchPatch_idem existing patch :
  applySearchPatch (applySearchPatch existing patch) patch
  = applySearchPatch existing patch.
Proof.
  unfold applySearchPatch. cbn. now rewrite !patched_idem.
Qed.

(** X11.  [createSearch] stores what it returns under the new id and
    touches nothing else: [getSearch] of the id gives the created search,
    every other lookup answers as before, and the other three maps are
    unchanged.  When the id is new and the search is newer than every
    stored one, it is appended to the map and comes first in
    [getAllSearches] for every limit of at least one. *)
Theorem created_search_is_stored id now search st :
  let created := fst (createSearch id now search st) in
  let st' := snd (createSearch id now search st) in
  getSearch id st' = Some created /\
  search_id created = id /\
  (forall other, other <> id -> getSearch other st' = getSearch other st) /\
  (users st' = users st /\ projects st' = projects st /\
   rankingResults st' = rankingResults st) /\
  (getSearch id st = None ->
   mapValues (searches st') = mapValues (searches st) ++ [created] /\
   forall limit,
     (1 <=? limit)%float = true ->
     Forall (fun s => (search_createdAt s < now)%Z) (mapValues (searches st)) ->
     hd_error (getAllSearches limit st') = Some created).
Proof.
  unfold createSearch, getSearch.
  cbn [fst snd searches users projects rankingResults search_id].
  split; [apply mapGet_mapSet_same |].
  split; [reflexivity |].
  split; [intros other N; now apply mapGet_mapSet_other |].
  split; [repeat split |].
  intros G. rewrite (mapSet_fresh _ _ _ G).
  unfold mapValues. rewrite map_app. cbn [map snd].
  split; [reflexivity |].
  intros limit L F. unfold getAllSearches. cbn [searches].
  unfold mapValues. rewrite map_app. cbn [map snd].
  rewrite sort_newest_last by exact F.
  rewrite length_app. cbn [List.length]. rewrite Nat.add_1_r.
  pose proof (sliceCount_one (S (List.length (searches st))) limit L
                ltac:(lia)) as C.
  destruct (sliceCount _ limit); [lia | reflexivity].
Qed.

(** X12.  [updateSearch] on an id that is not stored returns [undefined]
    and leaves the store as it is.  On a stored id it returns and stores
    the old search overwritten by the keys of the patch: id and creation
    time are kept, the entry keeps its place in the map, every other
    search and the other maps are untouched, and the same update applied
    again changes nothing. *)
Theorem updateSearch_merges id patch st :
  (getSearch id st = None -> updateSearch id patch st = (None, st)) /\
  (forall existing,
     getSearch id st = Some existing ->
     let updated := applySearchPatch existing patch in
     let st' := snd (updateSearch id patch st) in
     fst (updateSearch id patch st) = Some updated /\
     getSearch id st' = Some updated /\
     search_id updated = search_id existing /\
     search_createdAt updated = search_createdAt existing /\
     (forall other, other <> id -> getSearch other st' = getSearch other st) /\
     map fst (searches st') = map fst (searches st) /\
     (users st' = users st /\ projects st' = projects st /\
      rankingResults st' = rankingResults st) /\
     updateSearch id patch st' = (Some updated, st')).
Proof.
  unfold getSearch, updateSearch. split.
  - intros G. now rewrite G.
  - intros existing G. rewrite G. cbn.
    split; [reflexivity |].
    split; [apply mapGet_mapSet_same |].
    split; [reflexivity |]. split; [reflexivity |].
    split; [intros other N; now apply mapGet_mapSet_other |].
    split; [exact (proj1 (mapSet_present _ _ _ _ G)) |].
    split; [repeat split |].
    rewrite mapGet_mapSet_same, applySearchPatch_idem, mapSet_mapSet.
    reflexivity.
Qed.

(** X13.  [getAllSearches(limit)] returns the newest searches of the
    store, newest first, as many as [slice(0, limit)] keeps of them: the
    stored searches are the returned ones together with a rest none of
    which is newer than any returned one.  The limit is any number: the
    route passes what [parseInt] made of the query string. *)
Theorem getAllSearches_newest limit st :
  let found := getAllSearches limit st in
  List.length found = sliceCount (List.length (searches st)) limit /\
  List.length found <= List.length (searches st) /\
  NewestFirst search_createdAt found /\
  exists rest,
    Permutation (found ++ rest) (mapValues (searches st)) /\
    forall s r, In s found -> In r rest ->
                (search_createdAt r <= search_createdAt s)%Z.
Proof.
  cbn. unfold getAllSearches.
  set (sorted := sort (newestFirst search_createdAt) (mapValues (searches st))).
  set (k := sliceCount (List.length (searches st)) limit).
  assert (NewestFirst search_createdAt sorted) as Srt by apply sort_newest.
  assert (List.length sorted = List.length (searches st)) as Len
    by (unfold sorted, mapValues; now rewrite sort_length, length_map).
  pose proof (sliceCount_le (List.length (searches st)) limit) as K.
  fold k in K.
  assert (List.length (firstn k sorted) = k) as Lk
    by (rewrite length_firstn; lia).
  split; [exact Lk |]. split; [lia |]. split.
  - now apply firstn_newest.
  - exists (skipn k sorted). split.
    + rewrite firstn_skipn. apply sort_perm.
    + now apply newest_split.
Qed.

(** What [slice(0, limit)] keeps of three searches: all for a limit of 50
    or [Infinity], two for 2.5, all but the last for -1, none for [NaN],
    for a half below zero and for [-Infinity]. *)
Example slice_counts :
  map (sliceCount 3) [50; infinity; 2.5; -1; nan; -0.5; neg_infinity]%float
  = [3; 3; 2; 2; 0; 0; 0].
Proof. vm_compute. reflexivity. Qed.

Example getAllSearches_negative_limit :
  (map search_id (getAllSearches 50 threeRuns),
   map search_id (getAllSearches (-1) threeRuns))
  = (["s3"; "s2"; "s1"], ["s3"; "s2"]).
Proof. vm_compute. reflexivity. Qed.

(** X14.  [/api/ranking-history] over [getRankingHistory]: the history
    holds exactly the stored results of the given query, brand and branch
    whose creation time lies within the given dates, newest first; the
    answer lists them in that order, and the [previousPosition] of a row
    is the position of the row after it, which is not newer than the row
    itself. *)
Theorem ranking_history_compares_with_older q b br startDate endDate st :
  let history := getRankingHistory q b br startDate endDate st in
  let answer := rankingHistory q b br startDate endDate st in
  (forall r,
     In r history <->
     In r (mapValues (rankingResults st)) /\
     Insert.query (columns r) = q /\ Insert.brand (columns r) = b /\
     Insert.branch (columns r) = br /\
     (forall d, startDate = Some d -> (d <= ranking_createdAt r)%Z) /\
     (forall d, endDate = Some d -> (ranking_createdAt r <= d)%Z)) /\
  NewestFirst ranking_createdAt history /\
  map result answer = history /\
  (forall i t older,
     nth_error answer i = Some t ->
     nth_error history (S i) = Some older ->
     previousPosition t = positionOf older /\
     (ranking_createdAt older <= ranking_createdAt (result t))%Z).
Proof.
  cbn. unfold rankingHistory. rewrite historyWithTrends_trendsOf.
  split; [| split; [| split]].
  - intros r. unfold getRankingHistory. rewrite sort_In, filter_In.
    unfold inHistory. split.
    + intros [I H]. split; [exact I |].
      destruct (String.eqb (Insert.query (columns r)) q) eqn:E1;
        [| discriminate].
      destruct (String.eqb (Insert.brand (columns r)) b) eqn:E2;
        [| discriminate].
      destruct (String.eqb (Insert.branch (columns r)) br) eqn:E3;
        [| discriminate].
      apply String_eqb_eq in E1, E2, E3. cbn in H.
      repeat split; try assumption.
      * intros d ->. destruct (ranking_createdAt r <? d)%Z eqn:L;
          [discriminate |]. apply Z.ltb_ge in L. exact L.
      * intros d ->. destruct startDate as [d0|].
        -- destruct (ranking_createdAt r <? d0)%Z; [discriminate |].
           destruct (d <? ranking_createdAt r)%Z eqn:L; [discriminate |].
           apply Z.ltb_ge in L. exact L.
        -- destruct (d <? ranking_createdAt r)%Z eqn:L; [discriminate |].
           apply Z.ltb_ge in L. exact L.
    + intros [I [E1 [E2 [E3 [S E]]]]]. split; [exact I |].
      apply String_eqb_eq in E1, E2, E3. rewrite E1, E2, E3. cbn.
      assert (match startDate with
              | Some d => (ranking_createdAt r <? d)%Z
              | None => false
              end = false) as ->.
      { destruct startDate as [d|]; [| reflexivity].
        apply Z.ltb_ge. now apply S. }
      assert (match endDate with
              | Some d => (d <? ranking_createdAt r)%Z
              | None => false
              end = false) as ->.
      { destruct endDate as [d|]; [| reflexivity].
        apply Z.ltb_ge. now apply E. }
      reflexivity.
  - apply sort_newest.
  - apply trendsOf_results.
  - intros i t older T O.
    change (nth_error (getRankingHistory q b br startDate endDate st) (S i)
            = Some older) in O.
    destruct (trendsOf_nth _ i t T) as [R [P _]]. rewrite O in P.
    split; [exact P |].
    pose proof (sort_newest ranking_createdAt
                  (filter (inHistory q b br startDate endDate)
                          (mapValues (rankingResults st)))) as Srt.
    fold (getRankingHistory q b br startDate endDate st) in Srt.
    apply nth_error_split in R as [l1 [l2 [E L]]].
    rewrite E in Srt, O. apply newest_app_r in Srt. unfold NewestFirst in Srt.
    inversion Srt as [|a l S' F]; subst a l.
    rewrite Forall_forall in F. apply F.
    replace (S i) with (List.length l1 + 1) in O by lia.
    rewrite nth_error_app2 in O by lia.
    replace (List.length l1 + 1 - List.length l1) with 1 in O by lia.
    cbn in O. destruct l2 as [|x l2]; [discriminate |].
    injection O as ->. now left.
Qed.

Example ranking_history_example :
  let st := after [ CreateRankingResults demoStamps
                      [ columns (historyRow "" 0 (Some 4));
                        columns (historyRow "" 0 (Some 2)) ] ] in
  map (fun t => (ranking_id (result t), previousPosition t, change t))
      (rankingHistory "dentist london" "Bright Smile" "London" None None st)
  = [ ("r1", Some 4, Some 2%Z); ("r0", None, None) ].
Proof. reflexivity. Qed.

Lemma stamped_columns stamps : forall results first,
  map columns (stamped stamps first results) = results.
Proof.
  unfold stamped. induction results as [|r rest IH]; intros first;
    [reflexivity |].
  cbn [mapWithIndex map columns]. now rewrite IH.
Qed.

Lemma stamped_ids stamps : forall results first,
  map ranking_id (stamped stamps first results)
  = map (fun i => fst (stamps i)) (seq first (List.length results)).
Proof.
  unfold stamped. induction results as [|r rest IH]; intros first;
    [reflexivity |].
  cbn [mapWithIndex map ranking_id List.length seq]. now rewrite IH.
Qed.

Lemma createRankingResultsFrom_created stamps : forall results first st,
  fst (createRankingResultsFrom first stamps results st)
  = stamped stamps first results /\
  users (snd (createRankingResultsFrom first stamps results st)) = users st /\
  projects (snd (createRankingResultsFrom first stamps results st))
  = projects st /\
  searches (snd (createRankingResultsFrom first stamps results st))
  = searches st.
Proof.
  induction results as [|r rest IH]; intros first st;
    [repeat split |].
  cbn [createRankingResultsFrom]. unfold createRankingResult.
  match goal with
  | |- context [createRankingResultsFrom (S first) stamps rest ?st1] =>
      specialize (IH (S first) st1);
      destruct (createRankingResultsFrom (S first) stamps rest st1)
        as [others st2]
  end.
  cbn [fst snd] in *. destruct IH as [-> [-> [-> ->]]]. repeat split.
Qed.

Lemma createRankingResultsFrom_fresh stamps : forall results first st,
  FreshStamps stamps first (List.length results) (rankingResults st) ->
  rankingResults (snd (createRankingResultsFrom first stamps results st))
  = rankingResults st
    ++ map (fun r => (ranking_id r, r)) (stamped stamps first results).
Proof.
  induction results as [|r rest IH]; intros first st [N G].
  - cbn. now rewrite app_nil_r.
  - cbn [createRankingResultsFrom]. unfold createRankingResult.
    match goal with
    | |- context [createRankingResultsFrom (S first) stamps rest ?st1] =>
        specialize (IH (S first) st1);
        destruct (createRankingResultsFrom (S first) stamps rest st1)
          as [others st2]
    end.
    cbn [fst snd rankingResults List.length seq map] in *.
    inversion N as [|x xs Nin N']; subst x xs.
    rewrite IH.
    + rewrite mapSet_fresh by (apply G; lia).
      unfold stamped. cbn [mapWithIndex map ranking_id].
      now rewrite <- app_assoc.
    + split; [exact N' |]. intros i Hi.
      rewrite mapGet_mapSet_other; [apply G; lia |].
      intros E. apply Nin. apply in_map_iff. exists i.
      split; [exact E | apply in_seq; lia].
Qed.

Lemma createRankingResultsFrom_invariant stamps : forall results first st,
  uniqueKeys (rankingResults st) ->
  filedById ranking_id (rankingResults st) ->
  uniqueKeys
    (rankingResults (snd (createRankingResultsFrom first stamps results st)))
  /\ filedById ranking_id
       (rankingResults (snd (createRankingResultsFrom first stamps results st))).
Proof.
  induction results as [|r rest IH]; intros first st U F; [now split |].
  cbn [createRankingResultsFrom]. unfold createRankingResult.
  match goal with
  | |- context [createRankingResultsFrom (S first) stamps rest ?st1] =>
      specialize (IH (S first) st1);
      destruct (createRankingResultsFrom (S first) stamps rest st1)
        as [others st2]
  end.
  cbn [fst snd rankingResults] in *. apply IH.
  - now apply uniqueKeys_mapSet.
  - now apply filedById_mapSet.
Qed.

(** X15.  [createRankingResults] returns one result per row, in the order
    of the rows, each holding its row and the id of its call; when these
    ids are distinct and not in use, the results are appended to the store
    in that order behind the ones that were there, and nothing else
    changes. *)
Theorem createRankingResults_appends stamps results st :
  FreshStamps stamps 0 (List.length results) (rankingResults st) ->
  let created := fst (createRankingResults stamps results st) in
  let st' := snd (createRankingResults stamps results st) in
  map columns created = results /\
  map ranking_id created
  = map (fun i => fst (stamps i)) (seq 0 (List.length results)) /\
  mapValues (rankingResults st') = mapValues (rankingResults st) ++ created /\
  Forall (fun r => mapGet (ranking_id r) (rankingResults st') = Some r)
         created /\
  users st' = users st /\ projects st' = projects st /\
  searches st' = searches st.
Proof.
  intros Fr. unfold createRankingResults. cbn zeta.
  destruct (createRankingResultsFrom_created stamps results 0 st)
    as [C [U [P S']]].
  pose proof (createRankingResultsFrom_fresh stamps results 0 st Fr) as R.
  rewrite C, R, U, P, S'.
  split; [apply stamped_columns |]. split; [apply stamped_ids |].
  split.
  { unfold mapValues. rewrite map_app, map_map. cbn [snd].
    now rewrite map_id. }
  split; [| repeat split].
  assert (NoDup (map ranking_id (stamped stamps 0 results))) as N
    by (rewrite stamped_ids; exact (proj1 Fr)).
  assert (forall r, In r (stamped stamps 0 results) ->
                    mapGet (ranking_id r) (rankingResults st) = None) as Old.
  { intros r I. apply (in_map ranking_id) in I. rewrite stamped_ids in I.
    apply in_map_iff in I as [i [<- I]]. apply in_seq in I.
    apply (proj2 Fr). lia. }
  revert N Old. generalize (stamped stamps 0 results) as l.
  generalize (rankingResults st) as m. clear.
  intros m l. revert m. induction l as [|r l IH]; intros m N Old;
    [constructor |].
  inversion N as [|x xs Nin N']; subst x xs. constructor.
  - cbn [map app]. clear IH N N'.
    assert (mapGet (ranking_id r) m = None) as G by (apply Old; now left).
    clear Old. induction m as [|[k v] m IHm]; cbn.
    + now rewrite String_eqb_refl.
    + cbn in G. destruct (String.eqb (ranking_id r) k); [discriminate |].
      now apply IHm.
  - cbn [map app].
    change (m ++ (ranking_id r, r) :: map (fun r0 => (ranking_id r0, r0)) l)
      with (m ++ [(ranking_id r, r)] ++ map (fun r0 => (ranking_id r0, r0)) l).
    rewrite app_assoc. apply IH; [exact N' |].
    intros r' I. rewrite <- mapSet_fresh by (apply Old; now left).
    rewrite mapGet_mapSet_other; [apply Old; now right |].
    intros E. apply Nin. rewrite <- E. now apply in_map.
Qed.

Lemma createRankingResults_appends_witness :
  mapValues
    (rankingResults
       (snd (createRankingResults demoStamps
               [ columns (historyRow "" 0 (Some 4));
                 columns (historyRow "" 0 None) ] emptyStorage)))
  = [ historyRow "r0" 1000 (Some 4); historyRow "r1" 1001 None ].
Proof.
  assert (FreshStamps demoStamps 0 2 (rankingResults emptyStorage)) as Fr.
  { split; [| reflexivity].
    repeat constructor; cbn; intuition discriminate. }
  destruct (createRankingResults_appends demoStamps
              [ columns (historyRow "" 0 (Some 4));
                columns (historyRow "" 0 None) ] emptyStorage Fr)
    as [_ [_ [V _]]].
  rewrite V. reflexivity.
Defined.

(** X16.  [deleteProject] answers [true] exactly when the project was
    stored; afterwards the project is gone, a second delete answers
    [false], every other project is still there, and the searches that
    were run for the deleted project are still listed for it. *)
Theorem deleteProject_removes id st :
  uniqueKeys (projects st) ->
  let st' := snd (deleteProject id st) in
  (fst (deleteProject id st) = true <-> exists p, getProject id st = Some p) /\
  getProject id st' = None /\
  fst (deleteProject id st') = false /\
  (forall other, other <> id -> getProject other st' = getProject other st) /\
  (forall pid, getSearchesByProject pid st' = getSearchesByProject pid st) /\
  campaignDetails id st' = None.
Proof.
  intros U. unfold deleteProject, getProject, campaignDetails, getProject.
  cbn [fst snd projects].
  rewrite (mapDelete_same id (projects st) U).
  split.
  { destruct (mapGet id (projects st)) as [p|]; split;
      [now exists p | reflexivity | discriminate | intros [p E]; discriminate]. }
  split; [reflexivity |]. split; [reflexivity |].
  split; [intros other N; now apply mapDelete_other |].
  split; reflexivity.
Qed.

Lemma deleteProject_removes_witness :
  getProject "p1"
    (snd (deleteProject "p1"
            (after [ CreateProject "p1" 10 10
                       (mkInsertProject "Dentists" None None None None) ])))
  = None.
Proof.
  apply (deleteProject_removes "p1"
           (after [ CreateProject "p1" 10 10
                      (mkInsertProject "Dentists" None None None None) ])).
  repeat constructor. exact id.
Defined.

Lemma perform_Consistent st call :
  Consistent st -> Consistent (perform st call).
Proof.
  intros [[U1 [U2 [U3 U4]]] [F1 [F2 [F3 F4]]]].
  destruct call as [id uname pw | id created updated project
                   | id project now | id | id now search | id search
                   | stamps results]; cbn [perform].
  - unfold createUser, Consistent, WellFormed. cbn.
    repeat split; try assumption;
      [now apply uniqueKeys_mapSet | now apply filedById_mapSet].
  - unfold createProject, Consistent, WellFormed. cbn.
    repeat split; try assumption;
      [now apply uniqueKeys_mapSet | now apply filedById_mapSet].
  - unfold updateProject.
    destruct (mapGet id (projects st)) as [existing|] eqn:G;
      [| repeat split; assumption].
    unfold Consistent, WellFormed. cbn.
    repeat split; try assumption;
      [now apply uniqueKeys_mapSet |].
    apply filedById_mapSet; [| assumption].
    cbn. exact (mapGet_filed project_id id existing _ F2 G).
  - unfold deleteProject, Consistent, WellFormed. cbn.
    repeat split; try assumption;
      [now apply uniqueKeys_mapDelete | now apply filedById_mapDelete].
  - unfold createSearch, Consistent, WellFormed. cbn.
    repeat split; try assumption;
      [now apply uniqueKeys_mapSet | now apply filedById_mapSet].
  - unfold updateSearch.
    destruct (mapGet id (searches st)) as [existing|] eqn:G;
      [| repeat split; assumption].
    unfold Consistent, WellFormed. cbn.
    repeat split; try assumption;
      [now apply uniqueKeys_mapSet |].
    apply filedById_mapSet; [| assumption].
    cbn. exact (mapGet_filed search_id id existing _ F3 G).
  - unfold createRankingResults.
    destruct (createRankingResultsFrom_created stamps results 0 st)
      as [_ [E1 [E2 E3]]].
    destruct (createRankingResultsFrom_invariant stamps results 0 st U4 F4)
      as [U F].
    unfold Consistent, WellFormed. rewrite E1, E2, E3.
    repeat split; assumption.
Qed.

Lemma fold_perform_Consistent history : forall st,
  Consistent st -> Consistent (fold_left perform history st).
Proof.
  induction history as [|call rest IH]; intros st C; [exact C |].
  cbn [fold_left]. apply IH. now apply perform_Consistent.
Qed.

(** X17.  Whatever sequence of creating, updating and deleting calls is
    made on a new [MemStorage], each of its four maps holds every id once
    and files every record under the record's own id: a lookup by id
    never answers with a record of another id. *)
Theorem reachable_stores_are_consistent history :
  Consistent (after history) /\
  (forall id u, getUser id (after history) = Some u -> user_id u = id) /\
  (forall id p, getProject id (after history) = Some p -> project_id p = id) /\
  (forall id s, getSearch id (after history) = Some s -> search_id s = id).
Proof.
  assert (Consistent (after history)) as C.
  { apply fold_perform_Consistent. repeat split; constructor. }
  split; [exact C |].
  destruct C as [_ [F1 [F2 [F3 _]]]].
  split; [| split]; intros id x G.
  - exact (mapGet_filed user_id id x _ F1 G).
  - exact (mapGet_filed project_id id x _ F2 G).
  - exact (mapGet_filed search_id id x _ F3 G).
Qed.

(* ================================================================== *)
(** ** The handlers over [MemStorage] *)

Lemma parseCSV_inr result rows : parseCSV result = inr rows -> rows <> [].
Proof.
  unfold parseCSV.
  destruct (errors result); [| discriminate].
  destruct (data result) as [|firstRow rest]; [discriminate |].
  cbv zeta. destruct (negb _ || negb _ || negb _); [discriminate |].
  destruct (fold_left _ _ _) as [|r rs]; [discriminate |].
  intros H. injection H as <-. discriminate.
Qed.

Lemma parseCSV_inl result thrown : parseCSV result = inl thrown -> thrown <> "".
Proof.
  unfold parseCSV.
  destruct (errors result).
  - destruct (data result) as [|firstRow rest];
      [intros H; injection H as <-; discriminate |].
    cbv zeta. destruct (negb _ || negb _ || negb _);
      [intros H; injection H as <-; discriminate |].
    destruct (fold_left _ _ _) as [|r rs];
      [intros H; injection H as <-; discriminate | discriminate].
  - intros H. injection H as <-. discriminate.
Qed.

Lemma message_nonEmpty e fallback :
  match message e with
  | EmptyString => fallback
  | m => m
  end = message e.
Proof. now destruct e. Qed.

Lemma processCsvStreamStored_run String_ fuel env f b opts rt st queryData :
  streamOptions b = inr opts ->
  parseCSV (parsed f) = inr queryData ->
  processCsvStreamStored String_ fuel env (Some f) b rt st
  = (Finished (Some (rt_searchId rt)) (processCsvStream fuel env opts queryData),
     let st1 :=
       snd (createSearch (rt_searchId rt) (rt_searchCreatedAt rt)
              (processingSearch (orNull (body_projectId b)) (originalname f)
                 opts queryData) st) in
     match forEachQuery fuel env opts queryData start with
     | Returned _ s =>
         if nonEmpty (rt_searchId rt)
         then saveRun String_ (rt_searchId rt) opts rt s st1 else st1
     | Threw _ _ =>
         if nonEmpty (rt_searchId rt)
         then snd (updateSearch (rt_searchId rt) errorPatch st1) else st1
     | OutOfFuel => st1
     end).
Proof.
  intros O P. pose proof (parseCSV_inr _ _ P) as N.
  unfold processCsvStreamStored. rewrite O, P.
  destruct queryData as [|row rest]; [contradiction | reflexivity].
Qed.

Lemma nonEmpty_neq s : s <> "" -> nonEmpty s = true.
Proof. destruct s; [contradiction | reflexivity]. Qed.

Lemma filter_length_perm {A : Type} (p : A -> bool) l l' :
  Permutation l l' -> List.length (filter p l) = List.length (filter p l').
Proof.
  induction 1 as [| x l l' _ IH | x y l | l l' l'' _ IH1 _ IH2]; simpl.
  - reflexivity.
  - destruct (p x); simpl; now rewrite IH.
  - destruct (p x), (p y); reflexivity.
  - now rewrite IH1.
Qed.

Lemma filter_all {A : Type} (p : A -> bool) l :
  (forall x, In x l -> p x = true) -> filter p l = l.
Proof.
  induction l as [|x l IH]; intros H; simpl; [reflexivity |].
  rewrite (H x) by now left. rewrite IH; [reflexivity |].
  intros y I. apply H. now right.
Qed.

Lemma filter_nothing {A : Type} (p : A -> bool) l :
  (forall x, In x l -> p x = false) -> filter p l = [].
Proof.
  induction l as [|x l IH]; intros H; simpl; [reflexivity |].
  rewrite (H x) by now left. apply IH. intros y I. apply H. now right.
Qed.

Lemma rowsToSave_searchId String_ sid dev l :
  Forall (fun row => Insert.searchId row = sid) (rowsToSave String_ sid dev l).
Proof.
  unfold rowsToSave. apply Forall_app. split; apply Forall_forall;
    intros row I; apply in_map_iff in I as [r [<- _]]; reflexivity.
Qed.

Lemma rowsToSave_length String_ sid dev l :
  List.length (rowsToSave String_ sid dev l) = List.length l.
Proof.
  unfold rowsToSave. rewrite length_app, !length_map.
  apply filter_partition_length.
Qed.

(** The store after [saveRun], for a search that is stored and stamps that
    are fresh. *)
Lemma saveRun_stores String_ sid opts rt s st existing :
  getSearch sid st = Some existing ->
  FreshStamps (rt_stamps rt) 0 (List.length (allResults s)) (rankingResults st) ->
  let rows := rowsToSave String_ sid (deviceType opts) (allResults s) in
  let st' := saveRun String_ sid opts rt s st in
  getSearch sid st'
  = Some (applySearchPatch existing (completedPatch s (rt_processingTime rt))) /\
  rankingResults st'
  = rankingResults st
    ++ map (fun r => (ranking_id r, r)) (stamped (rt_stamps rt) 0 rows) /\
  (forall other, other <> sid -> getSearch other st' = getSearch other st) /\
  map fst (searches st') = map fst (searches st) /\
  projects st' = projects st /\ users st' = users st.
Proof.
  intros G Fr rows st'. subst st'. unfold saveRun, createRankingResults.
  fold rows.
  destruct (createRankingResultsFrom_created (rt_stamps rt) rows 0 st)
    as [_ [U [P Se]]].
  assert (FreshStamps (rt_stamps rt) 0 (List.length rows) (rankingResults st))
    as Fr' by (unfold rows; now rewrite rowsToSave_length).
  pose proof (createRankingResultsFrom_fresh (rt_stamps rt) rows 0 st Fr') as R.
  destruct (createRankingResultsFrom 0 (rt_stamps rt) rows st) as [created st1].
  cbn [snd] in *. unfold updateSearch, getSearch in *.
  rewrite Se, G. cbn [snd searches rankingResults projects users].
  split; [apply mapGet_mapSet_same |]. split; [exact R |].
  split; [intros other N; now apply mapGet_mapSet_other |].
  split; [exact (proj1 (mapSet_present _ _ _ _ G)) |].
  split; assumption.
Qed.

(** The rows found for a search in a store to which the run's rows were
    appended. *)
Lemma results_of_run (localeCompare : string -> string -> Z) sid st st' stamps
    rows :
  (forall r, In r (mapValues (rankingResults st)) ->
             Insert.searchId (columns r) <> sid) ->
  Forall (fun row => Insert.searchId row = sid) rows ->
  rankingResults st'
  = rankingResults st ++ map (fun r => (ranking_id r, r)) (stamped stamps 0 rows) ->
  Permutation (map columns (getRankingResultsBySearch localeCompare sid st'))
              rows.
Proof.
  intros Old New E. unfold getRankingResultsBySearch.
  rewrite sort_perm. rewrite E. unfold mapValues.
  rewrite map_app, map_map. cbn [snd]. rewrite map_id, filter_app.
  rewrite filter_nothing.
  - rewrite filter_all; [cbn [app]; now rewrite stamped_columns |].
    intros r I. unfold ofSearch. apply String_eqb_eq.
    rewrite Forall_forall in New. apply New.
    rewrite <- (stamped_columns stamps rows 0). now apply in_map.
  - intros r I. unfold ofSearch. apply String_eqb_neq. now apply Old.
Qed.

Lemma rowsToSave_brandMatches String_ sid fuel env opts queryData s :
  forEachQuery fuel env opts queryData start = Returned tt s ->
  List.length (filter Insert.brandMatch
                 (rowsToSave String_ sid (deviceType opts) (allResults s)))
  = totalBrandMatches (totalsOf s).
Proof.
  intros H. apply forEachQuery_structure in H as [groups [R F]].
  simpl in R. apply groups_Saveable in F. rewrite <- R in F. clear R.
  apply (saved_count String_ sid (deviceType opts) opts
           Insert.brandMatch brand_match _ F); try reflexivity.
  intros r Sv O. now apply (Saveable_not_observation opts r Sv O).
Qed.

(** X18.  A run of [/api/process-csv-stream] that completes is recorded:
    the answer carries the id of the search made for it, and
    [GET /api/searches/:id] then shows that search as ['completed'] with
    the number of queries, the processing time and the totals of the run,
    together with exactly the rows the run saved; the [stats] of that page
    agree with the totals written to the search. *)
Theorem stream_run_is_recorded String_ localeCompare fuel env f b opts rt st
    queryData s :
  streamOptions b = inr opts ->
  parseCSV (parsed f) = inr queryData ->
  forEachQuery fuel env opts queryData start = Returned tt s ->
  rt_searchId rt <> "" ->
  FreshStamps (rt_stamps rt) 0 (List.length (allResults s)) (rankingResults st) ->
  (forall r, In r (mapValues (rankingResults st)) ->
             Insert.searchId (columns r) <> rt_searchId rt) ->
  let sid := rt_searchId rt in
  let answer :=
    fst (processCsvStreamStored String_ fuel env (Some f) b rt st) in
  let st' :=
    snd (processCsvStreamStored String_ fuel env (Some f) b rt st) in
  answer
  = Finished (Some sid)
      (Complete (allResults s) (filter brand_match (allResults s))
         (List.length queryData) (List.length (allResults s))
         (totalApiCalls s)) /\
  exists details,
    searchDetails localeCompare sid st' = Some details /\
    search_id (details_search details) = sid /\
    search_status (details_search details) = "completed" /\
    csvFilename (details_search details) = originalname f /\
    totalQueries (details_search details) = List.length queryData /\
    search_totals (details_search details) = totalsOf s /\
    processingTimeSeconds (details_search details)
    = Some (rt_processingTime rt) /\
    Permutation (map columns (details_results details))
                (rowsToSave String_ sid (deviceType opts) (allResults s)) /\
    stats_totalResults details = totalResults (totalsOf s) /\
    stats_brandMatches details = totalBrandMatches (totalsOf s).
Proof.
  intros Op P H N Fr Old sid answer st'. subst answer st'.
  rewrite (processCsvStreamStored_run _ _ _ _ _ _ _ _ _ Op P).
  cbn [fst snd]. cbv zeta. rewrite H, (nonEmpty_neq _ N).
  split; [unfold processCsvStream; now rewrite H |].
  set (created := fst (createSearch (rt_searchId rt) (rt_searchCreatedAt rt)
                         (processingSearch (orNull (body_projectId b))
                            (originalname f) opts queryData)
                         st)).
  set (st1 := snd (createSearch (rt_searchId rt) (rt_searchCreatedAt rt)
                     (processingSearch (orNull (body_projectId b))
                        (originalname f) opts queryData) st)).
  assert (getSearch sid st1 = Some created) as G
    by (unfold getSearch; apply mapGet_mapSet_same).
  assert (rankingResults st1 = rankingResults st) as RR by reflexivity.
  rewrite <- RR in Fr.
  destruct (saveRun_stores String_ sid opts rt s st1 created G Fr)
    as [G' [R' _]].
  fold sid. unfold searchDetails. rewrite G'. eexists. split; [reflexivity |].
  cbn [details_search details_results stats_totalResults stats_brandMatches].
  pose proof (results_of_run localeCompare sid st1
                (saveRun String_ sid opts rt s st1) (rt_stamps rt)
                (rowsToSave String_ sid (deviceType opts) (allResults s)))
    as Perm.
  rewrite RR in Perm.
  specialize (Perm Old (rowsToSave_searchId _ _ _ _) R').
  split; [reflexivity |]. split; [reflexivity |]. split; [reflexivity |].
  split; [reflexivity |]. split; [reflexivity |]. split; [reflexivity |].
  split; [exact Perm |]. split.
  - rewrite <- (length_map columns), (Permutation_length Perm).
    apply rowsToSave_length.
  - rewrite <- (filter_length_map Insert.brandMatch columns).
    rewrite (filter_length_perm _ _ _ Perm).
    now apply (rowsToSave_brandMatches String_ sid fuel env opts queryData).
Qed.

Lemma stream_run_is_recorded_witness :
  exists details,
    searchDetails (fun _ _ => 0%Z) "search-1"
      (snd (processCsvStreamStored (fun _ => "0") 2 (demoEnv alternating)
              (Some demoFile) plainBody demoRuntime emptyStorage))
    = Some details /\
    search_status (details_search details) = "completed" /\
    search_totals (details_search details) = mkTotals 5 1 1 2 /\
    stats_totalResults details = 5 /\
    stats_brandMatches details = 1.
Proof.
  assert (exists s,
            forEachQuery 2 (demoEnv alternating) plainOptions [brightSmile] start
            = Returned tt s /\
            List.length (allResults s) = 5 /\
            totalsOf s = mkTotals 5 1 1 2) as [s [E [L T]]].
  { vm_compute. eexists. split; [reflexivity |]. split; reflexivity. }
  assert (FreshStamps (rt_stamps demoRuntime) 0 (List.length (allResults s))
            (rankingResults emptyStorage)) as Fr.
  { rewrite L. split; [| reflexivity].
    repeat constructor; cbn; intuition discriminate. }
  destruct (stream_run_is_recorded (fun _ => "0") (fun _ _ => 0%Z) 2
              (demoEnv alternating) demoFile plainBody plainOptions
              demoRuntime emptyStorage [brightSmile] s eq_refl eq_refl E)
    as [_ [details [D [_ [St [_ [_ [To [_ [_ [R B]]]]]]]]]]].
  - discriminate.
  - exact Fr.
  - intros r [].
  - exists details. rewrite T in To, R, B.
    split; [exact D |]. split; [exact St |]. split; [exact To |].
    split; [exact R | exact B].
Defined.

Lemma createSearch_processing id now pid filename opts queryData st :
  let created :=
    fst (createSearch id now (processingSearch pid filename opts queryData) st) in
  let st1 :=
    snd (createSearch id now (processingSearch pid filename opts queryData) st) in
  getSearch id st1 = Some created /\
  rankingResults st1 = rankingResults st /\
  projects st1 = projects st /\
  search_id created = id /\
  search_status created = "processing" /\
  projectId created = pid /\
  csvFilename created = filename /\
  country created = opt_gl opts /\
  language created = opt_hl opts /\
  totalQueries created = List.length queryData /\
  search_totals created = mkTotals 0 0 0 0.
Proof.
  cbv zeta. split; [unfold getSearch; apply mapGet_mapSet_same |].
  repeat split.
Qed.

(** X19.  A run of [/api/process-csv-stream] that fails in a fetch is
    recorded as a failure: the last event is the error event with the
    message of the fetch error, the search made for the run is left with
    status ['error'] and all four totals zero, and none of the records
    collected before the failure is stored. *)
Theorem stream_failure_is_recorded String_ fuel env f b opts rt st queryData
    e s :
  streamOptions b = inr opts ->
  parseCSV (parsed f) = inr queryData ->
  forEachQuery fuel env opts queryData start = Threw e s ->
  rt_searchId rt <> "" ->
  let sid := rt_searchId rt in
  let answer :=
    fst (processCsvStreamStored String_ fuel env (Some f) b rt st) in
  let st' :=
    snd (processCsvStreamStored String_ fuel env (Some f) b rt st) in
  answer = Finished (Some sid) (ErrorEvent (message e)) /\
  rankingResults st' = rankingResults st /\
  exists search,
    getSearch sid st' = Some search /\
    search_status search = "error" /\
    search_totals search = mkTotals 0 0 0 0 /\
    totalQueries search = List.length queryData /\
    processingTimeSeconds search = None.
Proof.
  intros Op P H N sid answer st'. subst answer st'.
  rewrite (processCsvStreamStored_run _ _ _ _ _ _ _ _ _ Op P).
  cbn [fst snd]. cbv zeta. rewrite H, (nonEmpty_neq _ N).
  split; [unfold processCsvStream; now rewrite H, message_nonEmpty |].
  destruct (createSearch_processing (rt_searchId rt) (rt_searchCreatedAt rt)
              (orNull (body_projectId b)) (originalname f) opts queryData st)
    as [G [RR _]].
  unfold updateSearch. unfold getSearch in G. rewrite G.
  cbn [snd rankingResults]. split; [exact RR |].
  eexists. unfold getSearch. cbn [searches]. fold sid.
  split; [apply mapGet_mapSet_same |]. repeat split.
Qed.

Lemma stream_failure_is_recorded_witness :
  fst (processCsvStreamStored (fun _ => "0") 2 (demoEnv breaking)
         (Some twoLineFile) plainBody demoRuntime emptyStorage)
  = Finished (Some "search-1")
      (ErrorEvent "Serper API error: 500 Internal Server Error") /\
  rankingResults
    (snd (processCsvStreamStored (fun _ => "0") 2 (demoEnv breaking)
            (Some twoLineFile) plainBody demoRuntime emptyStorage))
  = [].
Proof.
  assert (exists s,
            forEachQuery 2 (demoEnv breaking) plainOptions
              [brightSmile; pawsLeeds] start
            = Threw (UpstreamError 500 "Internal Server Error") s)
    as [s E].
  { vm_compute. eexists. reflexivity. }
  destruct (stream_failure_is_recorded (fun _ => "0") 2 (demoEnv breaking)
              twoLineFile plainBody plainOptions demoRuntime emptyStorage
              [brightSmile; pawsLeeds] _ s eq_refl eq_refl E)
    as [A [R _]].
  - discriminate.
  - split; [exact A | exact R].
Defined.

(** X20.  An upload that is turned down changes nothing in the store.
    [/api/process-csv-stream] answers with status 400 only when no file
    was uploaded, never with "No valid data rows found in CSV".  It ends
    with an error event without a search exactly when a file was uploaded
    and either the geo-grid configuration of the request could not be
    parsed, which is tried before the file is read, or [parseCSV] threw;
    the event carries the thrown message.  In all these cases the store is
    as before.  In every other case a search has been made under the id the
    answer carries. *)
Theorem rejected_uploads_store_nothing String_ fuel env file b rt st :
  let answer :=
    fst (processCsvStreamStored String_ fuel env file b rt st) in
  let st' :=
    snd (processCsvStreamStored String_ fuel env file b rt st) in
  answer <> StatusJson 400 "No valid data rows found in CSV" /\
  (forall code error,
     answer = StatusJson code error ->
     file = None /\ code = 400 /\ error = "No file uploaded" /\ st' = st) /\
  (forall last,
     answer = Finished None last ->
     st' = st /\
     exists f thrown,
       file = Some f /\
       ((streamOptions b = inl thrown /\
         last = ErrorEvent (match thrown with
                            | EmptyString => "Failed to process CSV file"
                            | m => m
                            end)) \/
        ((exists opts, streamOptions b = inr opts) /\
         parseCSV (parsed f) = inl thrown /\
         last = ErrorEvent thrown))) /\
  (forall f,
     file = Some f ->
     (exists thrown, streamOptions b = inl thrown) \/
     (exists thrown, parseCSV (parsed f) = inl thrown) ->
     exists last, answer = Finished None last) /\
  (forall sid last,
     answer = Finished (Some sid) last ->
     sid = rt_searchId rt /\
     (exists f opts queryData,
        file = Some f /\ streamOptions b = inr opts /\
        parseCSV (parsed f) = inr queryData) /\
     exists search, getSearch sid st' = Some search /\ search_id search = sid).
Proof.
  cbv zeta. destruct file as [f|].
  - destruct (streamOptions b) as [failed | opts] eqn:Op.
    { unfold processCsvStreamStored. rewrite Op. cbn [fst snd].
      split; [discriminate |]. split; [discriminate |]. split; [| split].
      - intros last H. injection H as <-. split; [reflexivity |].
        exists f, failed. split; [reflexivity |]. left. now split.
      - intros f' _ _. eexists. reflexivity.
      - discriminate. }
    destruct (parseCSV (parsed f)) as [thrown | queryData] eqn:P.
    + unfold processCsvStreamStored. rewrite Op, P. cbn [fst snd].
      pose proof (parseCSV_inl _ _ P) as N.
      split; [discriminate |]. split; [discriminate |]. split; [| split].
      * intros last H. injection H as <-. split; [reflexivity |].
        exists f, thrown. split; [reflexivity |]. right.
        split; [now exists opts |]. split; [exact P |].
        destruct thrown; [contradiction | reflexivity].
      * intros f' _ _. eexists. reflexivity.
      * discriminate.
    + rewrite (processCsvStreamStored_run _ _ _ _ _ _ _ _ _ Op P).
      cbn [fst snd]. cbv zeta.
      split; [discriminate |]. split; [discriminate |].
      split; [discriminate |]. split.
      { intros f' F [[thrown T] | [thrown T]]; [discriminate |].
        injection F as <-. rewrite P in T. discriminate. }
      intros sid last H. injection H as <- _.
      split; [reflexivity |].
      split; [exists f, opts, queryData; now repeat split |].
      destruct (createSearch_processing (rt_searchId rt)
                  (rt_searchCreatedAt rt) (orNull (body_projectId b))
                  (originalname f) opts queryData st)
        as [G [RR [_ [I _]]]].
      destruct (forEachQuery fuel env opts queryData start) as [u s|e s|].
      * destruct (nonEmpty (rt_searchId rt));
          [| eexists; split; [exact G | exact I]].
        unfold saveRun.
        destruct (createRankingResultsFrom_created (rt_stamps rt)
                    (rowsToSave String_ (rt_searchId rt) (deviceType opts)
                       (allResults s)) 0
                    (snd (createSearch (rt_searchId rt) (rt_searchCreatedAt rt)
                            (processingSearch (orNull (body_projectId b))
                               (originalname f) opts queryData) st)))
          as [_ [_ [_ Se]]].
        unfold createRankingResults.
        destruct (createRankingResultsFrom 0 _ _ _) as [created st2].
        cbn [snd] in Se. unfold updateSearch, getSearch in *.
        rewrite Se, G. cbn [snd searches].
        eexists. split; [apply mapGet_mapSet_same | reflexivity].
      * destruct (nonEmpty (rt_searchId rt));
          [| eexists; split; [exact G | exact I]].
        unfold updateSearch, getSearch in *. rewrite G. cbn [snd searches].
        eexists. split; [apply mapGet_mapSet_same | reflexivity].
      * eexists; split; [exact G | exact I].
  - cbn. split; [discriminate |]. split.
    + intros code error H. injection H as <- <-. repeat split.
    + split; [discriminate |]. split; discriminate.
Qed.

(** A geo-grid configuration that is not JSON ends the upload with an
    error event although the file itself is read without complaint. *)
Example malformed_grid_configuration :
  processCsvStreamStored (fun _ => "0") 2 (demoEnv alternating)
    (Some demoFile) brokenBody demoRuntime emptyStorage
  = (Finished None (ErrorEvent "Unexpected token o in JSON at position 1"),
     emptyStorage) /\
  parseCSV (parsed demoFile) = inr [brightSmile].
Proof. split; reflexivity. Qed.

Lemma rerunCampaign_run String_ fuel env id b opts rt st c queryData :
  getProject id st = Some c ->
  project_queryData c = Some queryData ->
  rerunOptions c b = inr opts ->
  rerunCampaign String_ fuel env id b rt st
  = let sid := rt_searchId rt in
    let st1 :=
      snd (createSearch sid (rt_searchCreatedAt rt)
             (processingSearch (Some id) (name c ++ " - Rerun")%js opts
                               queryData) st) in
    match forEachQuery fuel env opts queryData start with
    | Returned _ s =>
        (Finished (Some sid)
           (Complete (allResults s) (filter brand_match (allResults s))
              (List.length queryData) (List.length (allResults s))
              (totalApiCalls s)),
         saveRun String_ sid opts rt s st1)
    | Threw e _ => (StatusJson 500 (message e), st1)
    | OutOfFuel => (Finished (Some sid) Unfinished, st1)
    end.
Proof.
  intros G Q Op. unfold rerunCampaign. rewrite G, Q, Op. cbv zeta.
  unfold createSearch. cbn [fst snd search_id].
  destruct (forEachQuery _ _ _ _ _) as [u s|e s|]; try reflexivity.
  now rewrite message_nonEmpty.
Qed.

Lemma stored_search_of_project sid pid search st :
  getSearch sid st = Some search ->
  projectId search = Some pid ->
  In search (getSearchesByProject pid st).
Proof.
  intros G P. unfold getSearchesByProject. apply sort_In, filter_In. split.
  - apply mapGet_In in G. unfold mapValues.
    change search with (snd (sid, search)). now apply in_map.
  - unfold ofProject. rewrite P. apply String_eqb_refl.
Qed.

(** X21.  A run of [/api/campaigns/:id/rerun] that fails in a fetch
    answers with status 500 and the message of the fetch error, and,
    unlike the upload, leaves the search it made for the run in the store
    with status ['processing'] and zero totals, listed among the
    campaign's searches; none of the records collected before the failure
    is stored. *)
Theorem rerun_failure_leaves_processing String_ fuel env id b opts rt st c
    queryData e s :
  getProject id st = Some c ->
  project_queryData c = Some queryData ->
  rerunOptions c b = inr opts ->
  forEachQuery fuel env opts queryData start = Threw e s ->
  let answer := fst (rerunCampaign String_ fuel env id b rt st) in
  let st' := snd (rerunCampaign String_ fuel env id b rt st) in
  answer = StatusJson 500 (message e) /\
  rankingResults st' = rankingResults st /\
  exists search,
    getSearch (rt_searchId rt) st' = Some search /\
    search_status search = "processing" /\
    projectId search = Some id /\
    csvFilename search = (name c ++ " - Rerun")%js /\
    totalQueries search = List.length queryData /\
    search_totals search = mkTotals 0 0 0 0 /\
    In search (getSearchesByProject id st').
Proof.
  intros G Q Op H answer st'. subst answer st'.
  rewrite (rerunCampaign_run _ _ _ _ _ _ _ _ _ _ G Q Op). cbv zeta.
  rewrite H. cbn [fst snd].
  split; [reflexivity |]. split; [reflexivity |].
  destruct (createSearch_processing (rt_searchId rt) (rt_searchCreatedAt rt)
              (Some id) (name c ++ " - Rerun")%js opts queryData st)
    as [G1 [_ [_ [_ [St [Pi [Fn [_ [_ [Tq To]]]]]]]]]].
  eexists. split; [exact G1 |].
  split; [exact St |]. split; [exact Pi |]. split; [exact Fn |].
  split; [exact Tq |]. split; [exact To |].
  exact (stored_search_of_project _ _ _ _ G1 Pi).
Qed.

Lemma rerun_failure_leaves_processing_witness :
  fst (rerunCampaign (fun _ => "0") 2 (demoEnv breaking) "p1" plainBody
         demoRuntime campaignStore)
  = StatusJson 500 "Serper API error: 500 Internal Server Error" /\
  map search_status
      (getSearchesByProject "p1"
         (snd (rerunCampaign (fun _ => "0") 2 (demoEnv breaking) "p1" plainBody
                 demoRuntime campaignStore)))
  = ["processing"].
Proof.
  assert (exists c opts,
            getProject "p1" campaignStore = Some c /\
            project_queryData c = Some [brightSmile; pawsLeeds] /\
            rerunOptions c plainBody = inr opts /\
            exists s,
              forEachQuery 2 (demoEnv breaking) opts [brightSmile; pawsLeeds]
                start
              = Threw (UpstreamError 500 "Internal Server Error") s)
    as [c [opts [G [Q [Op [s E]]]]]].
  { eexists. eexists. split; [reflexivity |]. split; [reflexivity |].
    split; [reflexivity |]. vm_compute. eexists. reflexivity. }
  destruct (rerun_failure_leaves_processing (fun _ => "0") 2
              (demoEnv breaking) "p1" plainBody opts demoRuntime
              campaignStore c [brightSmile; pawsLeeds] _ s G Q Op E)
    as [A _].
  split; [exact A | reflexivity].
Defined.

(** X22.  A run of [/api/campaigns/:id/rerun] that completes is recorded
    under the campaign: the search made for it is ['completed'], belongs
    to the campaign, is named after it, uses the campaign's country (['gb']
    when the campaign has none) and carries the totals of the run;
    [GET /api/searches/:id] shows exactly the rows the run saved, with
    [stats] that agree with those totals, and [GET /api/campaigns/:id]
    lists the search. *)
Theorem rerun_is_recorded String_ localeCompare fuel env id b opts rt st c
    queryData s :
  getProject id st = Some c ->
  project_queryData c = Some queryData ->
  rerunOptions c b = inr opts ->
  forEachQuery fuel env opts queryData start = Returned tt s ->
  FreshStamps (rt_stamps rt) 0 (List.length (allResults s)) (rankingResults st) ->
  (forall r, In r (mapValues (rankingResults st)) ->
             Insert.searchId (columns r) <> rt_searchId rt) ->
  let sid := rt_searchId rt in
  let answer := fst (rerunCampaign String_ fuel env id b rt st) in
  let st' := snd (rerunCampaign String_ fuel env id b rt st) in
  answer
  = Finished (Some sid)
      (Complete (allResults s) (filter brand_match (allResults s))
         (List.length queryData) (List.length (allResults s))
         (totalApiCalls s)) /\
  exists details found,
    searchDetails localeCompare sid st' = Some details /\
    campaignDetails id st' = Some found /\
    campaign found = c /\
    In (details_search details) (campaign_searches found) /\
    search_status (details_search details) = "completed" /\
    projectId (details_search details) = Some id /\
    csvFilename (details_search details) = (name c ++ " - Rerun")%js /\
    country (details_search details) = orString (project_country c) "gb" /\
    search_totals (details_search details) = totalsOf s /\
    Permutation (map columns (details_results details))
                (rowsToSave String_ sid (orString (body_deviceType b) "desktop")
                   (allResults s)) /\
    stats_totalResults details = totalResults (totalsOf s) /\
    stats_brandMatches details = totalBrandMatches (totalsOf s).
Proof.
  intros G Q Op H Fr Old sid answer st'. subst answer st'.
  rewrite (rerunCampaign_run _ _ _ _ _ _ _ _ _ _ G Q Op). cbv zeta.
  rewrite H. cbn [fst snd]. split; [reflexivity |].
  assert (opt_gl opts = orString (project_country c) "gb" /\
          deviceType opts = orString (body_deviceType b) "desktop")
    as [Gl Dev].
  { unfold rerunOptions in Op. destruct (parsedGeoGridConfig b);
      [discriminate |]. injection Op as <-. split; reflexivity. }
  rewrite <- Gl, <- Dev.
  destruct (createSearch_processing (rt_searchId rt) (rt_searchCreatedAt rt)
              (Some id) (name c ++ " - Rerun")%js opts queryData st)
    as [G1 [RR [PP _]]].
  set (created := fst (createSearch (rt_searchId rt) (rt_searchCreatedAt rt)
                         (processingSearch (Some id)
                            (name c ++ " - Rerun")%js opts queryData) st))
    in *.
  set (st1 := snd (createSearch (rt_searchId rt) (rt_searchCreatedAt rt)
                     (processingSearch (Some id)
                        (name c ++ " - Rerun")%js opts queryData) st))
    in *.
  rewrite <- RR in Fr.
  destruct (saveRun_stores String_ sid opts rt s st1 created G1 Fr)
    as [G' [R' [_ [_ [P' _]]]]].
  fold sid. unfold searchDetails, campaignDetails, getProject.
  rewrite G', P', PP. unfold getProject in G. rewrite G.
  eexists. eexists. split; [reflexivity |]. split; [reflexivity |].
  cbn [details_search details_results stats_totalResults stats_brandMatches
       campaign campaign_searches].
  pose proof (results_of_run localeCompare sid st1
                (saveRun String_ sid opts rt s st1) (rt_stamps rt)
                (rowsToSave String_ sid (deviceType opts) (allResults s)))
    as Perm.
  rewrite RR in Perm.
  specialize (Perm Old (rowsToSave_searchId _ _ _ _) R').
  split; [reflexivity |].
  split; [exact (stored_search_of_project _ _ _ _ G' eq_refl) |].
  split; [reflexivity |]. split; [reflexivity |]. split; [reflexivity |].
  split; [reflexivity |]. split; [reflexivity |].
  split; [exact Perm |]. split.
  - rewrite <- (length_map columns), (Permutation_length Perm).
    apply rowsToSave_length.
  - rewrite <- (filter_length_map Insert.brandMatch columns).
    rewrite (filter_length_perm _ _ _ Perm).
    now apply (rowsToSave_brandMatches String_ sid fuel env opts queryData).
Qed.

Lemma rerun_is_recorded_witness :
  exists details,
    searchDetails (fun _ _ => 0%Z) "search-1"
      (snd (rerunCampaign (fun _ => "0") 2 (demoEnv alternating) "p1"
              plainBody demoRuntime campaignStore))
    = Some details /\
    search_status (details_search details) = "completed" /\
    projectId (details_search details) = Some "p1" /\
    search_totals (details_search details) = mkTotals 11 1 1 4 /\
    stats_totalResults details = 11.
Proof.
  assert (exists c opts,
            getProject "p1" campaignStore = Some c /\
            project_queryData c = Some [brightSmile; pawsLeeds] /\
            rerunOptions c plainBody = inr opts /\
            exists s,
              forEachQuery 2 (demoEnv alternating) opts
                [brightSmile; pawsLeeds] start
              = Returned tt s /\
              List.length (allResults s) = 11 /\
              totalsOf s = mkTotals 11 1 1 4)
    as [c [opts [G [Q [Op [s [E [L T]]]]]]]].
  { eexists. eexists. split; [reflexivity |]. split; [reflexivity |].
    split; [reflexivity |]. vm_compute. eexists.
    split; [reflexivity |]. split; reflexivity. }
  assert (FreshStamps (rt_stamps demoRuntime) 0 (List.length (allResults s))
            (rankingResults campaignStore)) as Fr.
  { rewrite L. split; [| reflexivity].
    repeat constructor; cbn; intuition discriminate. }
  destruct (rerun_is_recorded (fun _ => "0") (fun _ _ => 0%Z) 2
              (demoEnv alternating) "p1" plainBody opts demoRuntime
              campaignStore c [brightSmile; pawsLeeds] s G Q Op E Fr)
    as [_ [details [found [D [_ [_ [_ [St [Pi [_ [_ [To [_ [R _]]]]]]]]]]]]]].
  - intros r [].
  - exists details. rewrite T in To, R.
    split; [exact D |]. split; [exact St |]. split; [exact Pi |].
    split; [exact To | exact R].
Defined.

(** X23.  [GET /api/campaigns/:id] answers for a stored campaign with the
    searches that belong to it, newest first, and their number; [lastRun]
    is the creation time of a search of the campaign and no search of the
    campaign is newer, and it is [null] exactly when the campaign has no
    search. *)
Theorem campaign_last_run_is_latest id st found :
  campaignDetails id st = Some found ->
  getProject id st = Some (campaign found) /\
  (forall s, In s (campaign_searches found) <->
             In s (mapValues (searches st)) /\ projectId s = Some id) /\
  NewestFirst search_createdAt (campaign_searches found) /\
  totalSearches found
  = List.length (filter (ofProject id) (mapValues (searches st))) /\
  match lastRun found with
  | Some t =>
      (exists s, In s (mapValues (searches st)) /\ projectId s = Some id /\
                 search_createdAt s = t) /\
      forall s, In s (mapValues (searches st)) -> projectId s = Some id ->
                (search_createdAt s <= t)%Z
  | None =>
      forall s, In s (mapValues (searches st)) -> projectId s <> Some id
  end.
Proof.
  unfold campaignDetails. destruct (getProject id st) as [c|]; [| discriminate].
  intros H. injection H as <-.
  cbn [campaign campaign_searches totalSearches lastRun].
  assert (forall s, In s (getSearchesByProject id st) <->
                    In s (mapValues (searches st)) /\ projectId s = Some id)
    as Mem.
  { intros s. unfold getSearchesByProject. rewrite sort_In, filter_In.
    unfold ofProject. destruct (projectId s) as [p|].
    - split; intros [I E]; split; try exact I.
      + apply String_eqb_eq in E. now subst.
      + injection E as ->. apply String_eqb_refl.
    - split; intros [I E]; discriminate. }
  assert (NewestFirst search_createdAt (getSearchesByProject id st)) as Srt
    by apply sort_newest.
  split; [reflexivity |]. split; [exact Mem |]. split; [exact Srt |].
  split; [unfold getSearchesByProject; apply sort_length |].
  destruct (getSearchesByProject id st) as [|newest rest].
  - intros s I E. apply (proj2 (Mem s)). now split.
  - split.
    + exists newest. destruct (proj1 (Mem newest) (or_introl eq_refl)) as [I E].
      now repeat split.
    + intros s I E. unfold NewestFirst in Srt.
      inversion Srt as [|a l _ F]; subst a l.
      destruct (proj2 (Mem s) (conj I E)) as [<- | In']; [lia |].
      rewrite Forall_forall in F. now apply F.
Qed.

Lemma campaign_last_run_is_latest_witness :
  exists found,
    campaignDetails "p1" threeRuns = Some found /\
    totalSearches found = 2 /\
    lastRun found = Some 30%Z.
Proof.
  eexists. split; [reflexivity |].
  pose proof (campaign_last_run_is_latest "p1" threeRuns _ eq_refl) as H.
  split; [exact (proj1 (proj2 (proj2 (proj2 H)))) | reflexivity].
Defined.

Lemma find_app_one {A : Type} (p : A -> bool) l x :
  find p (l ++ [x])
  = match find p l with
    | Some y => Some y
    | None => if p x then Some x else None
    end.
Proof.
  induction l as [|y l IH]; simpl; [reflexivity |].
  destruct (p y); [reflexivity | exact IH].
Qed.

(** X24.  [createUser] does not look at the user name: with a new id the
    user is stored and found by id, but [getUserByUsername] keeps
    answering with the user that was created first under that name, so a
    second user of the same name is never found by name; lookups of other
    names are unchanged. *)
Theorem usernames_are_not_unique id uname pw st :
  getUser id st = None ->
  let created := fst (createUser id uname pw st) in
  let st' := snd (createUser id uname pw st) in
  getUser id st' = Some created /\
  getUserByUsername uname st'
  = Some (match getUserByUsername uname st with
          | Some earlier => earlier
          | None => created
          end) /\
  forall other, other <> uname ->
                getUserByUsername other st' = getUserByUsername other st.
Proof.
  intros G. unfold createUser, getUser, getUserByUsername in *.
  cbn [fst snd users]. split; [apply mapGet_mapSet_same |].
  rewrite (mapSet_fresh _ _ _ G). unfold mapValues.
  rewrite map_app. cbn [map snd]. split.
  - rewrite find_app_one. cbn [username]. rewrite String_eqb_refl.
    now destruct (find _ _).
  - intros other N. rewrite find_app_one. cbn [username].
    apply String_eqb_neq in N. rewrite String_eqb_sym in N. rewrite N.
    now destruct (find _ _).
Qed.

Lemma usernames_are_not_unique_witness :
  getUserByUsername "ann"
    (snd (createUser "u2" "ann" "new"
            (after [CreateUser "u1" "ann" "old"])))
  = Some (mkUser "u1" "ann" "old").
Proof.
  exact (proj1 (proj2 (usernames_are_not_unique "u2" "ann" "new"
                         (after [CreateUser "u1" "ann" "old"]) eq_refl))).
Defined.

(* ================================================================== *)
(** ** The chart of the history page *)

Lemma trendsOf_adjacent : forall history l1 tn to l2,
  trendsOf history = l1 ++ tn :: to :: l2 ->
  change tn
  = match orDefault (positionOf (result tn)) 0,
          orDefault (positionOf (result to)) 0 with
    | S c, S p => Some (Z.of_nat (S p) - Z.of_nat (S c))%Z
    | _, _ => None
    end.
Proof.
  induction history as [|r rest IH]; intros l1 tn to l2 H;
    [destruct l1; discriminate |].
  destruct l1 as [|x l1].
  - cbn [trendsOf app] in H. injection H as <- H.
    destruct rest as [|r' rest']; [discriminate |].
    cbn [trendsOf] in H. injection H as <- _.
    cbn [change result]. unfold positionOf.
    destruct (Insert.rankingPosition (columns r)) as [[|c]|];
      destruct (Insert.rankingPosition (columns r')) as [[|p]|]; reflexivity.
  - cbn [trendsOf app] in H. injection H as _ H. exact (IH _ _ _ _ H).
Qed.

Lemma trendsOf_last : forall history l1 t,
  trendsOf history = l1 ++ [t] -> change t = None.
Proof.
  induction history as [|r rest IH]; intros l1 t H;
    [destruct l1; discriminate |].
  destruct l1 as [|x l1].
  - cbn [trendsOf app] in H. injection H as <- H.
    destruct rest as [|r' rest']; [| discriminate].
    cbn [change]. now destruct (truthyPosition _).
  - cbn [trendsOf app] in H. injection H as _ H. exact (IH _ _ H).
Qed.

Lemma map_split_two {A B : Type} (f : A -> B) : forall l l1 y1 y2 l2,
  map f l = l1 ++ y1 :: y2 :: l2 ->
  exists k1 x1 x2 k2,
    l = k1 ++ x1 :: x2 :: k2 /\ f x1 = y1 /\ f x2 = y2 /\
    map f k1 = l1 /\ map f k2 = l2.
Proof.
  intros l l1. revert l. induction l1 as [|y l1 IH]; intros l y1 y2 l2 H.
  - destruct l as [|x1 [|x2 k2]]; try discriminate.
    cbn in H. injection H as E1 E2 E3.
    exists [], x1, x2, k2. now repeat split.
  - destruct l as [|x l]; [discriminate |].
    cbn in H. injection H as E H.
    destruct (IH _ _ _ _ H) as [k1 [x1 [x2 [k2 [-> [E1 [E2 [E3 E4]]]]]]]].
    exists (x :: k1), x1, x2, k2. cbn. rewrite E, E3. now repeat split.
Qed.

Lemma map_split_last {A B : Type} (f : A -> B) : forall l l1 y,
  map f l = l1 ++ [y] -> exists k x, l = k ++ [x] /\ f x = y.
Proof.
  intros l l1. revert l. induction l1 as [|z l1 IH]; intros l y H.
  - destruct l as [|x [|x' l]]; try discriminate.
    cbn in H. injection H as E. exists [], x. now split.
  - destruct l as [|x l]; [discriminate |].
    cbn in H. injection H as _ H.
    destruct (IH _ _ H) as [k [x' [-> E]]].
    exists (x :: k), x'. now split.
Qed.

Lemma newest_adjacent {A : Type} (key : A -> Z) l1 a b l2 :
  NewestFirst key (l1 ++ a :: b :: l2) -> (key b <= key a)%Z.
Proof.
  intros Srt. apply newest_app_r in Srt. unfold NewestFirst in Srt.
  inversion Srt as [|x l _ F]; subst x l.
  apply Forall_cons_iff in F. tauto.
Qed.

(** X25.  The chart of the history page, fed by [/api/ranking-history],
    has one point per history row and runs forward in time: of two
    neighbouring points the left one is not newer than the right one, the
    [change] of the right one is the left position minus the right
    position when neither is zero (zero standing for no position) and
    [null] otherwise, and the leftmost point has no [change]. *)
Theorem chart_is_chronological q b br startDate endDate st :
  let points := chartData (rankingHistory q b br startDate endDate st) in
  List.length points
  = List.length (getRankingHistory q b br startDate endDate st) /\
  (forall before older newer later,
     points = before ++ older :: newer :: later ->
     (chart_date older <= chart_date newer)%Z /\
     chart_change newer
     = match chart_position newer, chart_position older with
       | S c, S p => Some (Z.of_nat (S p) - Z.of_nat (S c))%Z
       | _, _ => None
       end) /\
  (forall oldest later,
     points = oldest :: later -> chart_change oldest = None).
Proof.
  cbv zeta. unfold chartData, rankingHistory.
  rewrite historyWithTrends_trendsOf.
  set (history := getRankingHistory q b br startDate endDate st).
  assert (NewestFirst ranking_createdAt history) as Srt by apply sort_newest.
  clearbody history.
  split; [| split].
  - rewrite length_rev, length_map, <- (length_map result).
    now rewrite trendsOf_results.
  - intros before older newer later H.
    apply (f_equal (@rev ChartPoint)) in H. rewrite rev_involutive in H.
    rewrite rev_app_distr in H. cbn [rev] in H.
    rewrite <- !app_assoc in H. cbn [app] in H.
    apply map_split_two in H
      as [k1 [tn [to [k2 [E [<- [<- _]]]]]]].
    cbn [chart_date chart_change chart_position]. split.
    + rewrite <- (trendsOf_results history), E in Srt.
      rewrite map_app in Srt. cbn [map] in Srt.
      exact (newest_adjacent _ _ _ _ _ Srt).
    + exact (trendsOf_adjacent _ _ _ _ _ E).
  - intros oldest later H.
    apply (f_equal (@rev ChartPoint)) in H. rewrite rev_involutive in H.
    cbn [rev] in H.
    apply map_split_last in H as [k [t [E <-]]]. cbn [chart_change].
    exact (trendsOf_last _ _ _ E).
Qed.

Example chart_example :
  map (fun p => (chart_date p, chart_position p, chart_change p))
      (chartData
         (rankingHistory "dentist london" "Bright Smile" "London" None None
            (after [ CreateRankingResults demoStamps
                       [ columns (historyRow "" 0 (Some 4));
                         columns (historyRow "" 0 None);
                         columns (historyRow "" 0 (Some 2));
                         columns (historyRow "" 0 (Some 3)) ] ])))
  = [ (1000%Z, 4, None); (1001%Z, 0, None); (1002%Z, 2, None);
      (1003%Z, 3, Some (-1)%Z) ].
Proof. reflexivity. Qed.
